(** * uxarray: polygon geometry, antimeridian handling and nearest-neighbour
    remapping, embedded from

      - [uxarray/remap/nearest_neighbor.py]
      - [uxarray/grid/geometry.py]
      - [uxarray/core/dataarray.py]
      - [uxarray/plot/utils.py]

    Conventions of the embedding.

    - A numpy array is a shape together with its row-major (C order) buffer.
    - Floating point numbers (coordinates in degrees, Cartesian coordinates)
      are rationals; rounding and NaN are outside the model.
    - Python exceptions are values of [exn]; fallible code returns [result].
    - Calls into the spatial index are recorded in a call log, so that
      statements of the form "raised before the index is built" can be
      made about the log. *)

From Stdlib Require Import QArith Qabs Qround Qminmax Lqa.
From stdpp Require Import base tactics option list strings.

Local Open Scope string_scope.
Local Open Scope list_scope.
Local Open Scope nat_scope.

(** ** Exceptions and results *)

(** The [ValueError]s raised by the modelled code, told apart by message. *)
Inductive value_error : Set :=
  | InvalidSourceShape   (* "Invalid source_data shape. ..." *)
  | InvalidRemapTo       (* "Invalid remap_to. Expected 'nodes', ..." *)
  | InvalidCoordType     (* "Invalid coord_type. Expected either ..." *)
  | NotOneDimensional    (* "Data Variable must be 1-dimensional, ..." *)
  | SizeMatchesNodes     (* "... Current size matches the number of nodes." *)
  | SizeMismatch         (* "... does not match the number of faces (n." *)
  | ZeroSizeReduction    (* numpy: max of an empty array *)
  | DimensionMismatch    (* numpy: vstack of rows of different lengths *)
  | InvalidTreeArgument  (* get_ball_tree: unknown coordinates or system *)
  | LengthMismatch.      (* data frame: column length differs from row count *)

Inductive exn : Set :=
  | ValueError (msg : value_error)
  | IndexError
  | AxisError
  | GeometryError.       (* raised inside the antimeridian package *)

Inductive result (A : Type) : Type :=
  | Ok (a : A)
  | Raise (e : exn).
Arguments Ok {A} a.
Arguments Raise {A} e.

#[global] Instance result_ret : MRet result := fun A a => Ok a.
#[global] Instance result_bind : MBind result := fun A B f m =>
  match m with
  | Ok a => f a
  | Raise e => Raise e
  end.

Fixpoint rmapM {A B} (f : A -> result B) (l : list A) : result (list B) :=
  match l with
  | [] => Ok []
  | a :: l' =>
      b ← f a; bs ← rmapM f l'; Ok (b :: bs)
  end.

Definition of_option {A} (e : exn) (o : option A) : result A :=
  match o with
  | Some a => Ok a
  | None => Raise e
  end.

(** ** numpy arrays *)

Record ndarray (A : Type) : Type := NdArray {
  shape : list nat;
  data : list A
}.
Arguments NdArray {A} shape data.
Arguments shape {A} _.
Arguments data {A} _.

Definition ndim {A} (a : ndarray A) : nat := length (shape a).

Definition product (dims : list nat) : nat := foldr Nat.mul 1 dims.

(** [a.size] *)
Definition np_size {A} (a : ndarray A) : nat := product (shape a).

(** The buffer holds exactly [a.size] elements. *)
Definition well_formed {A} (a : ndarray A) : Prop :=
  length (data a) = np_size a.

(** [a.shape[-1]]: indexing the empty shape tuple raises [IndexError]. *)
Definition trailing_dim {A} (a : ndarray A) : result nat :=
  of_option IndexError (last (shape a)).

(** [a.squeeze()]: every axis of length one is removed; the buffer is
    unchanged. *)
Definition squeeze {A} (a : ndarray A) : ndarray A :=
  NdArray (filter (fun d => d <> 1) (shape a)) (data a).

(** [a[0]], the first sub-array along the leading axis, for an array whose
    leading axis is not empty. *)
Definition np_first {A} (a : ndarray A) : ndarray A :=
  let rest := tail (shape a) in
  NdArray rest (take (product rest) (data a)).

(** [a[..., idx]] for an integer index array [idx]: the last axis of [a] is
    replaced by the axes of [idx]; every row of [a] along the last axis is
    gathered through [idx].  An index outside the last axis raises
    [IndexError] (the indices here are never negative). *)
Definition np_take_last {A} (a : ndarray A) (idx : ndarray nat)
  : result (ndarray A) :=
  match last (shape a) with
  | None => Raise IndexError
  | Some n =>
      let lead := removelast (shape a) in
      if forallb (fun i => i <? n) (data idx) then
        let rows := reshape (replicate (product lead) n) (data a) in
        gathered ← rmapM (fun row =>
                      rmapM (fun i => of_option IndexError (row !! i))
                            (data idx)) rows;
        Ok (NdArray (lead ++ shape idx) (mjoin gathered))
      else Raise IndexError
  end.

(** [np.vstack(cols).T] for one-dimensional [cols] of a common length: row
    [i] of the result lists the [i]-th entry of every column.  Columns of
    different lengths make [vstack] raise. *)
Definition vstack_T {A} (cols : list (list A)) : result (list (list A)) :=
  match cols with
  | [] => Raise (ValueError DimensionMismatch)
  | c :: cs =>
      if forallb (fun c' => length c' =? length c) cs then
        of_option IndexError
          (mapM (fun i => mapM (fun col : list A => col !! i) cols)
                (seq 0 (length c)))
      else Raise (ValueError DimensionMismatch)
  end.

(** ** The mesh *)

(** The attributes of [uxarray.Grid] that the modelled code reads.  The class
    itself is an external collaborator of these modules. *)
Record Grid : Type := {
  n_node : nat;
  n_edge : nat;
  n_face : nat;
  node_lon : list Q; node_lat : list Q;
  edge_lon : list Q; edge_lat : list Q;
  face_lon : list Q; face_lat : list Q;
  node_x : list Q; node_y : list Q; node_z : list Q;
  edge_x : list Q; edge_y : list Q; edge_z : list Q;
  face_x : list Q; face_y : list Q; face_z : list Q;
  (* array of shape (n_face, n_max_face_nodes + 1, 2) *)
  polygon_shells : list (list (Q * Q));
  (* one-dimensional integer array, or None *)
  antimeridian_face_indices : option (list nat)
}.

(** ** Calls into the spatial index, and computations that log them *)

Inductive call : Type :=
  | GetBallTree (coordinates coordinate_system distance_metric : string)
  | TreeQuery (n_points k : nat).

Record run (A : Type) : Type := Run {
  calls : list call;
  outcome : result A
}.
Arguments Run {A} calls outcome.
Arguments calls {A} _.
Arguments outcome {A} _.

#[global] Instance run_ret : MRet run := fun A a => Run [] (Ok a).
#[global] Instance run_bind : MBind run := fun A B f m =>
  match outcome m with
  | Ok a => Run (calls m ++ calls (f a)) (outcome (f a))
  | Raise e => Run (calls m) (Raise e)
  end.

Definition lift {A} (r : result A) : run A := Run [] r.
Definition raise {A} (e : exn) : run A := Run [] (Raise e).
Definition log (c : call) : run unit := Run [c] (Ok tt).

(** ** The spatial index *)

Record BallTree : Type := {
  tree_points : list (list Q);
  tree_coordinate_system : string;
  tree_distance_metric : string
}.

(** Modelled from the spec: the coordinate array a spatial index is built
    over; [Grid.get_ball_tree] is not part of the modelled sources.  The
    spec's index is "built once over a chosen coordinate array (one row per
    source element of a chosen kind: node, edge-center or face-center) in
    either lon/lat or x/y/z form". *)
Definition tree_coordinates (g : Grid) (coordinates coordinate_system : string)
  : result (list (list Q)) :=
  if (coordinate_system =? "spherical")%string then
    if (coordinates =? "nodes")%string then vstack_T [node_lon g; node_lat g]
    else if (coordinates =? "edge centers")%string then
      vstack_T [edge_lon g; edge_lat g]
    else if (coordinates =? "face centers")%string then
      vstack_T [face_lon g; face_lat g]
    else Raise (ValueError InvalidTreeArgument)
  else if (coordinate_system =? "cartesian")%string then
    if (coordinates =? "nodes")%string then
      vstack_T [node_x g; node_y g; node_z g]
    else if (coordinates =? "edge centers")%string then
      vstack_T [edge_x g; edge_y g; edge_z g]
    else if (coordinates =? "face centers")%string then
      vstack_T [face_x g; face_y g; face_z g]
    else Raise (ValueError InvalidTreeArgument)
  else Raise (ValueError InvalidTreeArgument).

(** Modelled from the spec: [Grid.get_ball_tree], which is not part of the
    modelled sources, returns the spatial index over the coordinates named
    by its arguments ("constructed on demand per (mesh, element-kind,
    coordinate-system) combination"); the call is logged.  The arguments
    the remapper leaves out take the values "spherical" and "haversine". *)
Definition get_ball_tree (g : Grid)
    (coordinates coordinate_system distance_metric : string) : run BallTree :=
  _ ← log (GetBallTree coordinates coordinate_system distance_metric);
  points ← lift (tree_coordinates g coordinates coordinate_system);
  mret {| tree_points := points;
          tree_coordinate_system := coordinate_system;
          tree_distance_metric := distance_metric |}.

(** A reference spatial index, used to run the remapper on concrete meshes:
    exhaustive search under the squared Euclidean distance of the
    coordinate rows, the first of several equally near points winning, and
    the index array shaped [(n_queries, k)]. *)
Definition sq_dist (p q : list Q) : Q :=
  foldr Qplus 0%Q (zip_with (fun a b => ((a - b) * (a - b))%Q) p q).

Fixpoint argmin_from (q : list Q) (points : list (list Q))
    (i best : nat) (best_d : Q) : nat :=
  match points with
  | [] => best
  | p :: rest =>
      if Qle_bool best_d (sq_dist q p)
      then argmin_from q rest (S i) best best_d
      else argmin_from q rest (S i) i (sq_dist q p)
  end.

Definition nearest_index (points : list (list Q)) (q : list Q) : nat :=
  match points with
  | [] => 0
  | p :: rest => argmin_from q rest 1 0 (sq_dist q p)
  end.

Definition brute_force_query (tree : BallTree) (points : list (list Q))
    (k : nat) : ndarray nat :=
  NdArray [length points; k] (nearest_index (tree_points tree) <$> points).

Module Remap.
Section NearestNeighbor.

(** The type of the data values carried by the remapped field. *)
Context {V : Type}.

(** [tree.query(points, k)]: the index array returned by the spatial index
    (the distances it also returns are discarded by the caller).  The
    index structure is an external collaborator; what the theorems need
    of it is stated where it is needed. *)
Variable tree_query : BallTree -> list (list Q) -> nat -> ndarray nat.

Definition query (tree : BallTree) (points : list (list Q)) (k : nat)
  : run (ndarray nat) :=
  _ ← log (TreeQuery (length points) k);
  mret (tree_query tree points k).

(** The [if]/[elif] chain that anchors the data to an element kind. *)
Definition source_data_mapping (source_grid : Grid) (n_elements : nat)
  : result string :=
  if n_elements =? n_node source_grid then Ok "nodes"
  else if n_elements =? n_edge source_grid then Ok "edge centers"
  else if n_elements =? n_face source_grid then Ok "face centers"
  else Raise (ValueError InvalidSourceShape).

Definition _nearest_neighbor (source_grid destination_grid : Grid)
    (source_data : ndarray V) (remap_to coord_type : string)
  : run (ndarray V) :=
  (* [np.asarray] leaves an array as it is *)
  n_elements ← lift (trailing_dim source_data);
  source_data_mapping ← lift (source_data_mapping source_grid n_elements);
  nearest_neighbor_indices ←
    (if (coord_type =? "spherical")%string then
       '(lon, lat) ←
         (if (remap_to =? "nodes")%string then
            mret (node_lon destination_grid, node_lat destination_grid)
          else if (remap_to =? "edge centers")%string then
            mret (edge_lon destination_grid, edge_lat destination_grid)
          else if (remap_to =? "face centers")%string then
            mret (face_lon destination_grid, face_lat destination_grid)
          else raise (ValueError InvalidRemapTo));
       _source_tree ←
         get_ball_tree source_grid source_data_mapping
                       "spherical" "haversine";
       latlon ← lift (vstack_T [lon; lat]);
       query _source_tree latlon 1
     else if (coord_type =? "cartesian")%string then
       '(cart_x, cart_y, cart_z) ←
         (if (remap_to =? "nodes")%string then
            mret (node_x destination_grid, node_y destination_grid,
                  node_z destination_grid)
          else if (remap_to =? "edge centers")%string then
            mret (edge_x destination_grid, edge_y destination_grid,
                  edge_z destination_grid)
          else if (remap_to =? "face centers")%string then
            mret (face_x destination_grid, face_y destination_grid,
                  face_z destination_grid)
          else raise (ValueError InvalidRemapTo));
       _source_tree ←
         get_ball_tree source_grid source_data_mapping
                       "cartesian" "minkowski";
       cartesian ← lift (vstack_T [cart_x; cart_y; cart_z]);
       query _source_tree cartesian 1
     else raise (ValueError InvalidCoordType));
  let nearest_neighbor_indices :=
    if 1 <? ndim nearest_neighbor_indices
    then squeeze nearest_neighbor_indices
    else nearest_neighbor_indices in
  destination_data ←
    lift (np_take_last source_data nearest_neighbor_indices);
  let destination_data :=
    if ndim source_data =? 1 then squeeze destination_data
    else destination_data in
  mret destination_data.

End NearestNeighbor.
End Remap.

(** ** Polygon geometry *)

(** A shapely [Polygon], reduced to its exterior ring: the modelled code
    builds polygons from shells only and reads back [exterior.coords]. *)
Record polygon : Type := Polygon { exterior : list (Q * Q) }.

(** What [antimeridian.fix_polygon] returns: a [Polygon], or a
    [MultiPolygon] with its parts [geoms]. *)
Inductive geometry : Type :=
  | GPolygon (p : polygon)
  | GMultiPolygon (geoms : list polygon).

(** [a[i]] for a Python integer [i]: negative indices count from the end,
    anything outside [-len, len) raises [IndexError]. *)
Definition np_index {A} (a : list A) (i : Z) : result A :=
  let n := Z.of_nat (length a) in
  if (0 <=? i)%Z then of_option IndexError (a !! Z.to_nat i)
  else if (- n <=? i)%Z then of_option IndexError (a !! Z.to_nat (n + i))
  else Raise IndexError.

(** [a.max()] *)
Definition np_max (a : list Q) : result Q :=
  match a with
  | [] => Raise (ValueError ZeroSizeReduction)
  | x :: rest => Ok (foldl Qmax x rest)
  end.

(** Python's [x % m] on floats, for a positive modulus: the result has the
    sign of [m]. *)
Definition Qmod (x m : Q) : Q := (x - m * inject_Z (Qfloor (x / m)))%Q.

(** [np.diff] along the last axis: [out[j] = a[j+1] - a[j]]. *)
Definition np_diff (a : list Q) : list Q :=
  zip_with (fun lo hi => (hi - lo)%Q) a (tail a).

(** [arr[0:m] = vals], the two slices having the same length. *)
Definition set_prefix {A} (m : nat) (vals arr : list A) : list A :=
  vals ++ drop m arr.

(** [arr[m:] = v] *)
Definition fill_from {A} (m : nat) (v : A) (arr : list A) : list A :=
  take m arr ++ replicate (length arr - m) v.

(** [np.argwhere(mask)] for a one-dimensional mask: an array of shape
    [(count, 1)] holding the positions of the true entries in order. *)
Definition np_argwhere (mask : list bool) : ndarray nat :=
  let hits := filter (fun i => mask !! i = Some true) (seq 0 (length mask)) in
  NdArray [length hits; 1] hits.

(** The buffer positions that remain after the positions [obj] are struck
    out of [n]: numpy's [keep = ones(n); keep[obj] = False]. *)
Definition keep_mask (n : nat) (obj : list nat) : list bool :=
  foldl (fun keep i => <[i:=false]> keep) (replicate n true) obj.

Definition select {A} (mask : list bool) (l : list A) : list A :=
  snd <$> filter (fun bx : bool * A => fst bx = true) (zip mask l).

(** [np.delete(arr, obj, axis=0)] for an integer index array [obj] without
    negative entries. *)
Definition np_delete {A} (arr : ndarray A) (obj : list nat)
  : result (ndarray A) :=
  match shape arr with
  | [] => Raise AxisError
  | n :: rest =>
      if forallb (fun i => i <? n) obj then
        let blocks := reshape (replicate n (product rest)) (data arr) in
        let kept := select (keep_mask n obj) blocks in
        Ok (NdArray (length kept :: rest) (mjoin kept))
      else Raise IndexError
  end.

Module Geometry.
Section Shells.

(** [uxarray.constants.INT_FILL_VALUE], the sentinel that pads connectivity
    rows; the constant is defined outside the modelled sources. *)
Variable INT_FILL_VALUE : Z.

(** What [np.empty_like] leaves in the cells of a fresh array. *)
Variable uninitialised : Q.

(** The leading entries of a connectivity row up to the first sentinel. *)
Fixpoint real_nodes (row : list Z) : list Z :=
  match row with
  | [] => []
  | v :: rest => if (v =? INT_FILL_VALUE)%Z then [] else v :: real_nodes rest
  end.

(** Modelled from the spec: [close_face_nodes] lives in
    [uxarray.grid.connectivity], which is not part of the modelled sources.
    Per the spec the closed row of a face with [k] real nodes holds "its
    first [k] real node indices", then "the first vertex again to close the
    ring", and is padded to the uniform length max-nodes-per-face + 1. *)
Definition close_row (nMaxMesh2_face_nodes : nat) (row : list Z) : list Z :=
  let k := length (real_nodes row) in
  take k row ++ [default INT_FILL_VALUE (head row)]
    ++ replicate (nMaxMesh2_face_nodes - k) INT_FILL_VALUE.

(** Modelled from the spec: [close_face_nodes] closes every row of the
    face-node table of the [nMesh2_face] faces, as [close_row] does. *)
Definition close_face_nodes (Mesh2_face_nodes : list (list Z))
    (nMesh2_face nMaxMesh2_face_nodes : nat) : list (list Z) :=
  close_row nMaxMesh2_face_nodes <$> take nMesh2_face Mesh2_face_nodes.

(** The body of the loop of [_build_polygon_shells] for one face. *)
Definition polygon_shell (Mesh2_node_x Mesh2_node_y : list Q)
    (face_nodes : list Z) (max_n_nodes : nat) : result (list (Q * Q)) :=
  let polygon_x := replicate (length face_nodes) uninitialised in
  let polygon_y := replicate (length face_nodes) uninitialised in
  xs ← rmapM (np_index Mesh2_node_x) (take max_n_nodes face_nodes);
  let polygon_x := set_prefix max_n_nodes xs polygon_x in
  ys ← rmapM (np_index Mesh2_node_y) (take max_n_nodes face_nodes);
  let polygon_y := set_prefix max_n_nodes ys polygon_y in
  x0 ← of_option IndexError (polygon_x !! 0);
  let polygon_x := fill_from max_n_nodes x0 polygon_x in
  y0 ← of_option IndexError (polygon_y !! 0);
  let polygon_y := fill_from max_n_nodes y0 polygon_y in
  Ok (zip polygon_x polygon_y).

Definition _build_polygon_shells (Mesh2_node_x Mesh2_node_y : list Q)
    (Mesh2_face_nodes : list (list Z))
    (nMesh2_face nMaxMesh2_face_nodes : nat) (nNodes_per_face : list nat)
  : result (list (list (Q * Q))) :=
  let closed_face_nodes :=
    close_face_nodes Mesh2_face_nodes nMesh2_face nMaxMesh2_face_nodes in
  let nNodes_per_face_closed := (fun n => n + 1) <$> nNodes_per_face in
  x_max ← np_max Mesh2_node_x;
  let Mesh2_node_x :=
    if negb (Qle_bool x_max 180)
    then (fun x => Qmod (x + 180) 360 - 180)%Q <$> Mesh2_node_x
    else Mesh2_node_x in
  rmapM (fun '(face_nodes, max_n_nodes) =>
           polygon_shell Mesh2_node_x Mesh2_node_y face_nodes max_n_nodes)
        (zip closed_face_nodes nNodes_per_face_closed).

End Shells.

Section Antimeridian.

(** [antimeridian.fix_polygon]: an external geometry repair routine, a
    partial function; where it is undefined the package raises. *)
Variable antimeridian_fix : polygon -> option geometry.

Definition fix_polygon (P : polygon) : result geometry :=
  of_option GeometryError (antimeridian_fix P).

(** One round of the [for i, polygon in enumerate(corrected_polygons)] loop;
    the accumulator is the pair of lists the loop appends to.  The test
    [polygon.geom_type == "MultiPolygon"] is the case distinction. *)
Definition corrected_step
    (acc : list (list (Q * Q)) * list nat) (entry : nat * geometry)
  : list (list (Q * Q)) * list nat :=
  let '(i, polygon) := entry in
  match polygon with
  | GMultiPolygon geoms =>
      foldl (fun '(corrected_polygon_shells, original_to_corrected)
                 individual_polygon =>
               (corrected_polygon_shells ++ [exterior individual_polygon],
                original_to_corrected ++ [i]))
            acc geoms
  | GPolygon p =>
      let '(corrected_polygon_shells, original_to_corrected) := acc in
      (corrected_polygon_shells ++ [exterior p],
       original_to_corrected ++ [i])
  end.

Definition _build_corrected_polygon_shells
    (polygon_shells : list (list (Q * Q)))
  : result (list (list (Q * Q)) * list nat) :=
  let polygons := Polygon <$> polygon_shells in
  corrected_polygons ← rmapM fix_polygon polygons;
  Ok (foldl corrected_step ([], []) (imap pair corrected_polygons)).

(** Does the ring have two consecutive vertices whose longitudes differ by
    at least 180 degrees: [np.any(np.abs(np.diff(xs)) >= 180)]. *)
Definition crosses_antimeridian (shell : list (Q * Q)) : bool :=
  existsb (fun d => Qle_bool 180 (Qabs d)) (np_diff (fst <$> shell)).

Definition _build_antimeridian_face_indices (grid : Grid) : ndarray nat :=
  let antimeridian_face_indices :=
    np_argwhere (crosses_antimeridian <$> polygon_shells grid) in
  if default 0 (head (shape antimeridian_face_indices)) =? 1
  then np_first antimeridian_face_indices
  else squeeze antimeridian_face_indices.

(** [corrected_polygons.pop()] *)
Definition pop {A} (l : list A) : result (A * list A) :=
  match reverse l with
  | [] => Raise IndexError
  | x :: rest => Ok (x, reverse rest)
  end.

(** The write-back loop [for i in reversed(indices): polygons[i] =
    corrected_polygons.pop()], over the already reversed indices. *)
Fixpoint write_back (indices_reversed : list nat)
    (polygons corrected_polygons : list geometry) : result (list geometry) :=
  match indices_reversed with
  | [] => Ok polygons
  | i :: rest =>
      '(fixed, corrected_polygons) ← pop corrected_polygons;
      if i <? length polygons
      then write_back rest (<[i:=fixed]> polygons) corrected_polygons
      else Raise IndexError
  end.

Definition grid_to_polygons (grid : Grid) : result (list geometry) :=
  let polygon_shells := polygon_shells grid in
  let polygons := Polygon <$> polygon_shells in
  match antimeridian_face_indices grid with
  | Some indices =>
      antimeridian_polygons ←
        rmapM (fun i => of_option IndexError (polygons !! i)) indices;
      corrected_polygons ← rmapM fix_polygon antimeridian_polygons;
      write_back (reverse indices) (GPolygon <$> polygons) corrected_polygons
  | None => Ok (GPolygon <$> polygons)
  end.

End Antimeridian.
End Geometry.

(** ** Geometry tables and the data array *)

(** A [spatialpandas.GeoDataFrame]: the geometry column and the named data
    columns, all of the same length. *)
Record GeoDataFrame (V : Type) : Type := {
  gdf_geometry : list geometry;
  gdf_columns : list (string * list V)
}.
Arguments gdf_geometry {V} _.
Arguments gdf_columns {V} _.

(** [gdf[name] = column]: a column whose length differs from the number of
    rows is refused. *)
Definition set_column {V} (gdf : GeoDataFrame V) (name : string)
    (column : ndarray V) : result (GeoDataFrame V) :=
  if length (data column) =? length (gdf_geometry gdf) then
    Ok {| gdf_geometry := gdf_geometry gdf;
          gdf_columns :=
            filter (fun c => fst c <> name) (gdf_columns gdf)
              ++ [(name, data column)] |}
  else Raise (ValueError LengthMismatch).

Definition get_column {V} (gdf : GeoDataFrame V) (name : string)
  : option (list V) :=
  (fun ic => snd (snd ic)) <$>
    list_find (fun c => fst c = name) (gdf_columns gdf).

Module DataArray.
Section ToGeoDataFrame.

Context {V : Type}.
Variable antimeridian_fix : polygon -> option geometry.

(** [_grid_to_polygon_geodataframe] of [geometry.py]. *)
Definition _grid_to_polygon_geodataframe (grid : Grid)
  : result (GeoDataFrame V) :=
  polygons ← Geometry.grid_to_polygons antimeridian_fix grid;
  Ok {| gdf_geometry := polygons; gdf_columns := [] |}.

(** Modelled from the spec: [Grid.to_geodataframe] is not part of the
    modelled sources.  Per the spec's table export, "if
    [exclude_antimeridian] is requested, drop all rows whose source face
    index is in the antimeridian set before building the geometry (not
    after)"; otherwise the table wraps the corrected polygons.  The cache of
    the mesh object ([override], [cache]) is not modelled. *)
Definition grid_to_geodataframe (grid : Grid)
    (override cache exclude_antimeridian : bool) : result (GeoDataFrame V) :=
  if exclude_antimeridian then
    let flagged := default [] (antimeridian_face_indices grid) in
    let shells :=
      select (keep_mask (length (polygon_shells grid)) flagged)
             (polygon_shells grid) in
    Ok {| gdf_geometry := (fun s => GPolygon (Polygon s)) <$> shells;
          gdf_columns := [] |}
  else _grid_to_polygon_geodataframe grid.

Record UxDataArray : Type := {
  values : ndarray V;
  name : option string;
  uxgrid : Grid
}.

Definition to_geodataframe (self : UxDataArray)
    (override cache exclude_antimeridian : bool) : result (GeoDataFrame V) :=
  if 1 <? ndim (values self) then Raise (ValueError NotOneDimensional)
  else if np_size (values self) =? n_face (uxgrid self) then
    gdf ← grid_to_geodataframe (uxgrid self)
            override cache exclude_antimeridian;
    let var_name := default "var" (name self) in
    if exclude_antimeridian then
      (* numpy refuses [None] as an index array *)
      indices ← of_option IndexError
                  (antimeridian_face_indices (uxgrid self));
      column ← np_delete (values self) indices;
      set_column gdf var_name column
    else set_column gdf var_name (values self)
  else if np_size (values self) =? n_node (uxgrid self) then
    Raise (ValueError SizeMatchesNodes)
  else Raise (ValueError SizeMismatch).

End ToGeoDataFrame.
End DataArray.

(** ** Vocabulary of the statements *)

Definition matches_a_count (g : Grid) (n : nat) : Prop :=
  n = n_node g \/ n = n_edge g \/ n = n_face g.

Definition recognized_remap_to (s : string) : Prop :=
  s = "nodes" \/ s = "edge centers" \/ s = "face centers".

Definition recognized_coord_type (s : string) : Prop :=
  s = "spherical" \/ s = "cartesian".

(** The two invalid-argument errors of the remapper. *)
Definition invalid_argument {A} (r : result A) : Prop :=
  r = Raise (ValueError InvalidRemapTo)
  \/ r = Raise (ValueError InvalidCoordType).

(** The number of destination elements of the kind named by [remap_to]. *)
Definition element_count (g : Grid) (remap_to : string) : nat :=
  if (remap_to =? "nodes")%string then n_node g
  else if (remap_to =? "edge centers")%string then n_edge g
  else n_face g.

(** The destination coordinate arrays read for [remap_to] in the coordinate
    system [coord_type], and the metric of the tree built for it. *)
Definition destination_columns (g : Grid) (remap_to coord_type : string)
  : list (list Q) :=
  if (coord_type =? "spherical")%string then
    if (remap_to =? "nodes")%string then [node_lon g; node_lat g]
    else if (remap_to =? "edge centers")%string then [edge_lon g; edge_lat g]
    else [face_lon g; face_lat g]
  else
    if (remap_to =? "nodes")%string then [node_x g; node_y g; node_z g]
    else if (remap_to =? "edge centers")%string then
      [edge_x g; edge_y g; edge_z g]
    else [face_x g; face_y g; face_z g].

Definition metric_of (coord_type : string) : string :=
  if (coord_type =? "spherical")%string then "haversine" else "minkowski".

(** What the remapper does with the index array [found] returned by the
    query: the two [squeeze]s and the gather along the trailing axis. *)
Definition gathered {V} (source_data : ndarray V) (found : ndarray nat)
  : result (ndarray V) :=
  let found := if 1 <? ndim found then squeeze found else found in
  destination_data ← np_take_last source_data found;
  Ok (if ndim source_data =? 1 then squeeze destination_data
      else destination_data).

(** The coordinate arrays of a mesh have one entry per element. *)
Record well_formed_grid (g : Grid) : Prop := {
  wf_node_lon : length (node_lon g) = n_node g;
  wf_node_lat : length (node_lat g) = n_node g;
  wf_edge_lon : length (edge_lon g) = n_edge g;
  wf_edge_lat : length (edge_lat g) = n_edge g;
  wf_face_lon : length (face_lon g) = n_face g;
  wf_face_lat : length (face_lat g) = n_face g;
  wf_node_x : length (node_x g) = n_node g;
  wf_node_y : length (node_y g) = n_node g;
  wf_node_z : length (node_z g) = n_node g;
  wf_edge_x : length (edge_x g) = n_edge g;
  wf_edge_y : length (edge_y g) = n_edge g;
  wf_edge_z : length (edge_z g) = n_edge g;
  wf_face_x : length (face_x g) = n_face g;
  wf_face_y : length (face_y g) = n_face g;
  wf_face_z : length (face_z g) = n_face g;
  wf_shells : length (polygon_shells g) = n_face g
}.

(** Modelled from the spec: the query of the spatial index is not part of
    the modelled sources.  Per the spec the index "supports nearest-neighbor
    queries returning, for each query point, the index of the closest indexed
    element", ties being broken in an unspecified way.  For [k = 1] and a
    distance [dist] selected by the metric of the tree: one index per query
    point, as an array of shape [(n_queries,)] or [(n_queries, 1)], or a
    zero-dimensional array when a single point is queried; each index names
    an indexed point that no other indexed point beats. *)
Definition nearest_spec (dist : string -> list Q -> list Q -> Q)
    (tree_query : BallTree -> list (list Q) -> nat -> ndarray nat) : Prop :=
  forall tree points,
    tree_points tree <> [] ->
    let found := tree_query tree points 1 in
    (shape found = [length points] \/ shape found = [length points; 1]
     \/ (length points = 1 /\ shape found = []))
    /\ length (data found) = length points
    /\ forall j q i,
         points !! j = Some q -> data found !! j = Some i ->
         exists p, tree_points tree !! i = Some p
           /\ forall p', p' ∈ tree_points tree ->
                (dist (tree_distance_metric tree) q p
                   <= dist (tree_distance_metric tree) q p')%Q.

(** Element centres that are pairwise apart: every centre is strictly
    nearer to itself than to the centre of any other element. *)
Definition separated (d : list Q -> list Q -> Q) (centres : list (list Q))
  : Prop :=
  forall i j p q,
    centres !! i = Some p -> centres !! j = Some q -> i <> j ->
    (d p p < d p q)%Q.

(** A row of the face-node table of a face with [k] nodes: [k] node
    indices into the coordinate arrays, then sentinels up to the maximum
    face degree. *)
Definition well_formed_face (INT_FILL_VALUE : Z) (n_nodes n_max : nat)
    (row : list Z) (k : nat) : Prop :=
  1 <= k <= n_max
  /\ exists reals,
       row = reals ++ replicate (n_max - k) INT_FILL_VALUE
       /\ length reals = k
       /\ Forall (fun v => (0 <= v < Z.of_nat n_nodes)%Z
                           /\ v <> INT_FILL_VALUE) reals.

(** The inputs of the shell builder, as a mesh provides them. *)
Record well_formed_connectivity (INT_FILL_VALUE : Z)
    (Mesh2_node_x Mesh2_node_y : list Q) (Mesh2_face_nodes : list (list Z))
    (nMesh2_face nMaxMesh2_face_nodes : nat) (nNodes_per_face : list nat)
  : Prop := {
  wf_some_node : 0 < length Mesh2_node_x;
  wf_node_xy : length Mesh2_node_y = length Mesh2_node_x;
  wf_face_rows : length Mesh2_face_nodes = nMesh2_face;
  wf_face_counts : length nNodes_per_face = nMesh2_face;
  wf_faces : forall i row k,
    Mesh2_face_nodes !! i = Some row -> nNodes_per_face !! i = Some k ->
    well_formed_face INT_FILL_VALUE (length Mesh2_node_x)
                     nMaxMesh2_face_nodes row k
}.

(** The polygon parts of a corrected geometry. *)
Definition parts (g : geometry) : list polygon :=
  match g with
  | GPolygon p => [p]
  | GMultiPolygon geoms => geoms
  end.

(** The entries of [l] at the positions that are not in [flagged], in their
    original order. *)
Definition without_positions {A} (flagged : list nat) (l : list A) : list A :=
  snd <$> filter (fun iv => fst iv ∉ flagged) (imap pair l).

(** The number of positions a mask keeps. *)
Definition count_true (mask : list bool) : nat :=
  length (filter (fun b => b = true) mask).

(** The face centres of a mesh as the rows handed to the spatial index. *)
Definition face_centres (g : Grid) (coord_type : string) : list (list Q) :=
  match vstack_T (destination_columns g "face centers" coord_type) with
  | Ok rows => rows
  | Raise _ => []
  end.

(** ** Example meshes *)

(** Two triangles that share an edge, near longitude 0: 4 nodes, 5 edges, 2 faces. *)
Definition patch_grid : Grid := {|
  n_node := 4; n_edge := 5; n_face := 2;
  node_lon := [0; 10; 10; 0]%Q;
  node_lat := [0; 0; 10; 10]%Q;
  edge_lon := [5; 10; 4.96163; 5; 0]%Q;
  edge_lat := [0; 5; 5.019; 10.03742; 5]%Q;
  face_lon := [6.65344; 3.31248]%Q;
  face_lat := [3.34086; 6.69281]%Q;
  node_x := [1; 0.98481; 0.96985; 0.98481]%Q;
  node_y := [0; 0.17365; 0.17101; 0]%Q;
  node_z := [0; 0; 0.17365; 0.17365]%Q;
  edge_x := [0.99619; 0.98106; 0.99243; 0.98095; 0.99619]%Q;
  edge_y := [0.08716; 0.17299; 0.08616; 0.08582; 0]%Q;
  edge_z := [0; 0.08716; 0.08749; 0.17429; 0.08716]%Q;
  face_x := [0.99158; 0.99153]%Q;
  face_y := [0.11567; 0.05739]%Q;
  face_z := [0.05828; 0.11655]%Q;
  polygon_shells :=
    [[(0, 0); (10, 0); (10, 10); (0, 0)];
     [(0, 0); (10, 10); (0, 10); (0, 0)]]%Q;
  antimeridian_face_indices := Some []
|}.

(** A mesh of a single triangle: 3 nodes, 3 edges, 1 face. *)
Definition triangle_grid : Grid := {|
  n_node := 3; n_edge := 3; n_face := 1;
  node_lon := [0; 10; 5]%Q;
  node_lat := [0; 0; 10]%Q;
  edge_lon := [5; 7.51915; 2.48085]%Q;
  edge_lat := [0; 5.00474; 5.00474]%Q;
  face_lon := [5]%Q;
  face_lat := [3.33806]%Q;
  node_x := [1; 0.98481; 0.98106]%Q;
  node_y := [0; 0.17365; 0.08583]%Q;
  node_z := [0; 0; 0.17365]%Q;
  edge_x := [0.99619; 0.98762; 0.99525]%Q;
  edge_y := [0.08716; 0.13036; 0.04312]%Q;
  edge_z := [0; 0.08724; 0.08724]%Q;
  face_x := [0.9945]%Q;
  face_y := [0.08701]%Q;
  face_z := [0.05823]%Q;
  polygon_shells :=
    [[(0, 0); (10, 0); (5, 10); (0, 0)]]%Q;
  antimeridian_face_indices := Some []
|}.

(** A tetrahedral mesh of the sphere, face [i] lying opposite node [i]: 4 nodes, 6 edges, 4 faces. *)
Definition tetrahedron_grid : Grid := {|
  n_node := 4; n_edge := 6; n_face := 4;
  node_lon := [45; -45; 135; -135]%Q;
  node_lat := [35.26439; -35.26439; -35.26439; 35.26439]%Q;
  edge_lon := [0; 180; -90; 0; 90; 0]%Q;
  edge_lat := [-90; 0; 0; 90; 0; 0]%Q;
  face_lon := [-135; 135; -45; 45]%Q;
  face_lat := [-35.26439; 35.26439; 35.26439; -35.26439]%Q;
  node_x := [0.57735; 0.57735; -0.57735; -0.57735]%Q;
  node_y := [0.57735; -0.57735; 0.57735; -0.57735]%Q;
  node_z := [0.57735; -0.57735; -0.57735; 0.57735]%Q;
  edge_x := [0; -1; 0; 0; 0; 1]%Q;
  edge_y := [0; 0; -1; 0; 1; 0]%Q;
  edge_z := [-1; 0; 0; 1; 0; 0]%Q;
  face_x := [-0.57735; -0.57735; 0.57735; 0.57735]%Q;
  face_y := [-0.57735; 0.57735; -0.57735; 0.57735]%Q;
  face_z := [-0.57735; 0.57735; 0.57735; -0.57735]%Q;
  polygon_shells :=
    [[(-45, -35.26439); (135, -35.26439); (-135, 35.26439); (-45, -35.26439)];
     [(45, 35.26439); (-135, 35.26439); (135, -35.26439); (45, 35.26439)];
     [(45, 35.26439); (-45, -35.26439); (-135, 35.26439); (45, 35.26439)];
     [(45, 35.26439); (135, -35.26439); (-45, -35.26439); (45, 35.26439)]]%Q;
  antimeridian_face_indices := Some [0; 1; 2; 3]
|}.

(** Two quadrilaterals and a triangle; the second quadrilateral straddles the antimeridian: 7 nodes, 9 edges, 3 faces. *)
Definition dateline_grid : Grid := {|
  n_node := 7; n_edge := 9; n_face := 3;
  node_lon := [160; 170; 170; 160; -170; -170; 165]%Q;
  node_lat := [0; 0; 10; 10; 0; 10; -10]%Q;
  edge_lon := [165; 170; 165; 160; 180; -170; 180; 162.48085; 167.51915]%Q;
  edge_lat := [0; 5; 10.03742; 5; 0; 5; 10.15108; -5.00474; -5.00474]%Q;
  face_lon := [165; 180; 165]%Q;
  face_lat := [5.019; 5.07673; -3.33806]%Q;
  node_x := [-0.93969; -0.98481; -0.96985; -0.92542; -0.98481; -0.96985; -0.95125]%Q;
  node_y := [0.34202; 0.17365; 0.17101; 0.33682; -0.17365; -0.17101; 0.25489]%Q;
  node_z := [0; 0; 0.17365; 0.17365; 0; 0.17365; -0.17365]%Q;
  edge_x := [-0.96593; -0.98106; -0.95114; -0.93612; -1; -0.98106; -0.98435; -0.94998; -0.97265]%Q;
  edge_y := [0.25882; 0.17299; 0.25486; 0.34072; 0; -0.17299; 0; 0.29988; 0.21529]%Q;
  edge_z := [0; 0.08716; 0.17429; 0.08716; 0; 0.08716; 0.17624; -0.08724; -0.08724]%Q;
  face_x := [-0.96222; -0.99608; -0.96429]%Q;
  face_y := [0.25783; 0; 0.25838]%Q;
  face_z := [0.08749; 0.08849; -0.05823]%Q;
  polygon_shells :=
    [[(160, 0); (170, 0); (170, 10); (160, 10); (160, 0)];
     [(170, 0); (-170, 0); (-170, 10); (170, 10); (170, 0)];
     [(160, 0); (165, -10); (170, 0); (160, 0); (160, 0)]]%Q;
  antimeridian_face_indices := Some [1]
|}.

(** ** Example fields *)

(** One value per face of [patch_grid]. *)
Definition patch_face_field : ndarray Q := NdArray [2] [5; 7]%Q.

(** Three levels of one value per face of [patch_grid]. *)
Definition patch_level_field : ndarray Q :=
  NdArray [3; 2] [5; 7; 50; 70; 500; 700]%Q.

(** One value per node of [patch_grid]. *)
Definition patch_node_field : ndarray Q := NdArray [4] [1; 2; 3; 4]%Q.

(** Seven values: no element kind of [patch_grid] has that many. *)
Definition misshapen_field : ndarray Q :=
  NdArray [7] [1; 2; 3; 4; 5; 6; 7]%Q.

(** One value per face of [tetrahedron_grid], which has as many nodes. *)
Definition tetrahedron_face_field : ndarray Q :=
  NdArray [4] [10; 20; 30; 40]%Q.

(** ** Example connectivity *)

(** The value of [INT_FILL_VALUE] in uxarray: the least 64-bit integer. *)
Definition example_fill_value : Z := (-9223372036854775808)%Z.

(** The node coordinates and the face-node table of [dateline_grid]; the
    triangle's row is padded with the sentinel. *)
Definition dateline_node_lon : list Q := [160; 170; 170; 160; -170; -170; 165]%Q.
Definition dateline_node_lat : list Q := [0; 0; 10; 10; 0; 10; -10]%Q.
Definition dateline_face_nodes : list (list Z) :=
  [[0; 1; 2; 3]; [1; 4; 5; 2]; [0; 6; 1; example_fill_value]]%Z.
Definition dateline_nodes_per_face : list nat := [4; 4; 3].

(** The same longitudes in the range [0, 360). *)
Definition dateline_node_lon_360 : list Q :=
  [160; 170; 170; 160; 190; 190; 165]%Q.

(** A stand-in for the repair routine, to run the geometry code on the
    example meshes: a ring that crosses the antimeridian is split into its
    eastern-hemisphere and its western-hemisphere vertices, any other ring
    is returned as it is. *)
Definition seam_split (P : polygon) : option geometry :=
  if Geometry.crosses_antimeridian (exterior P) then
    Some (GMultiPolygon
            [Polygon (filter (fun v => Qle_bool 0 (fst v) = true)
                             (exterior P));
             Polygon (filter (fun v => Qle_bool 0 (fst v) = false)
                             (exterior P))])
  else Some (GPolygon P).

(** ** Example data arrays *)

(** One value per face of [dateline_grid]. *)
Definition dateline_face_array : DataArray.UxDataArray := {|
  DataArray.values := NdArray [3] [11; 22; 33]%Q;
  DataArray.name := Some "t2m";
  DataArray.uxgrid := dateline_grid
|}.

(** One value per node of [dateline_grid]. *)
Definition dateline_node_array : DataArray.UxDataArray := {|
  DataArray.values := NdArray [7] [1; 2; 3; 4; 5; 6; 7]%Q;
  DataArray.name := None;
  DataArray.uxgrid := dateline_grid
|}.

(** Seven values in one row: as many as there are nodes, but not 1-D. *)
Definition dateline_row_array : DataArray.UxDataArray := {|
  DataArray.values := NdArray [1; 7] [1; 2; 3; 4; 5; 6; 7]%Q;
  DataArray.name := None;
  DataArray.uxgrid := dateline_grid
|}.

(** ** The plotting backend *)

Module Plot.

(** The [ValueError] of [HoloviewsBackend.assign], with the name it was
    given. *)
Inductive backend_error : Set :=
  | UnsupportedBackend (received : string).

(** A [HoloviewsBackend] object: its attribute [backend], [None] until a
    backend is assigned. *)
Record HoloviewsBackend : Type := {
  backend : option string
}.

Definition __init__ : HoloviewsBackend := {| backend := None |}.

(** [self.assign(backend)]: the object after the call, the arguments of the
    calls of [hv.extension] made by it, and the error it raised, if any.
    [hv.extension] belongs to the holoviews package; the call is taken to
    return. *)
Definition assign (self : HoloviewsBackend) (backend : string)
  : HoloviewsBackend * list string * option backend_error :=
  if bool_decide (backend ∉ ["bokeh"; "matplotlib"]) then
    (self, [], Some (UnsupportedBackend backend))
  else if bool_decide (Some backend <> Plot.backend self) then
    (* only call hv.extension if it needs to be changed *)
    ({| Plot.backend := Some backend |}, [backend], None)
  else (self, [], None).

(** A sequence of calls of [assign] on the module's one object, the caller
    going on after an error: the object at the end and all calls of
    [hv.extension], the first call first. *)
Definition session (requests : list string) : HoloviewsBackend * list string :=
  foldl (fun '(self, loaded) request =>
           let '(self, calls, _) := assign self request in
           (self, loaded ++ calls))
        (__init__, []) requests.

(** The names [assign] accepts. *)
Definition supported (request : string) : Prop :=
  request ∈ ["bokeh"; "matplotlib"].

(** A list without its immediate repetitions. *)
Fixpoint collapse (l : list string) : list string :=
  match l with
  | [] => []
  | x :: rest =>
      match rest with
      | y :: _ => if bool_decide (x = y) then collapse rest
                  else x :: collapse rest
      | [] => [x]
      end
  end.

End Plot.

(** ** The grid-aware operators of the data array *)

Module DataArrayOps.

(** The messages of the [ValueError]s of the operators. *)
Inductive message : Set :=
  | NotOneDimensional         (* "Data Variable must be 1-dimensional, ..." *)
  | MustBeFaceCentered        (* "Data variable must be face centered." *)
  | NodeIntegration           (* "Integrating data mapped to each node ..." *)
  | EdgeIntegration           (* "Integrating data mapped to each edge ..." *)
  | FinalDimensionMismatch    (* "The final dimension of the data ..." *)
  | GradientNotFaceCentered   (* "Gradient computations are currently ..." *)
  | InvalidDestination        (* "Invalid destination '...'. Must be ..." *)
  | FaceToFace                (* "Invalid destination 'face' for a face-..." *)
  | FaceToNode                (* "Support for computing the difference of a
                                  face-centered ... on each node ..." *)
  | NodeToNode                (* "Invalid destination 'node' for a node-..." *)
  | NodeToFace                (* "Support for computing the difference of a
                                  node-centered ... on each face ..." *)
  | Todo                      (* "TODO: " *)
  | OperandMismatch           (* numpy: einsum operands do not fit *)
  | DimensionCount            (* xarray: different number of dimensions on
                                 data and dims *)
  | Rejected.                 (* xarray: any other refusal of the labels *)

(** The exceptions of the operators: their own [ValueError]s, the
    [NotImplementedError], and with [Inner] the exceptions of the kinds the
    remapper and the array primitives raise, [IndexError] among them. *)
Inductive error : Set :=
  | OpValueError (msg : message)
  | OpNotImplementedError
  | Inner (e : exn).

Inductive attempt (A : Type) : Type :=
  | Returns (a : A)
  | Raises (e : error).
Arguments Returns {A} a.
Arguments Raises {A} e.

#[global] Instance attempt_ret : MRet attempt := fun A a => Returns a.
#[global] Instance attempt_bind : MBind attempt := fun A B f m =>
  match m with
  | Returns a => f a
  | Raises e => Raises e
  end.

Definition of_result {A} (r : result A) : attempt A :=
  match r with
  | Ok a => Returns a
  | Raise e => Raises (Inner e)
  end.

(** [l[-1] = x] on a Python list: the empty list has no last position. *)
Definition set_last {A} (l : list A) (x : A) : attempt (list A) :=
  match l with
  | [] => Raises (Inner IndexError)
  | _ => Returns (<[length l - 1 := x]> l)
  end.

(** The sum of the products of the entries of two vectors, in exact
    arithmetic: the rounding of the products and of the partial sums is
    outside the model. *)
Definition dot (w row : list Q) : Q :=
  foldr Qplus 0%Q (zip_with Qmult w row).

(** [np.einsum("i,...i", w, a)]: the dot product of the vector [w] with
    every row of [a] along its last axis, which [w] has to fit. *)
Definition einsum_i_ellipsis_i (w : list Q) (a : ndarray Q)
  : attempt (ndarray Q) :=
  match last (shape a) with
  | None => Raises (OpValueError OperandMismatch)
  | Some n =>
      if length w =? n then
        let lead := removelast (shape a) in
        Returns (NdArray lead
                   (dot w <$> reshape (replicate (product lead) n) (data a)))
      else Raises (OpValueError OperandMismatch)
  end.

(** A [matplotlib.collections.PolyCollection]: the polygons and the array
    that colours them. *)
Record PolyCollection : Type := {
  verts : list (list (Q * Q));
  array : option (ndarray Q)
}.

Definition set_array (collection : PolyCollection) (A : ndarray Q)
  : PolyCollection :=
  {| verts := verts collection; array := Some A |}.

Section Operators.

(** The coordinates of an [xarray.DataArray], whose contents no modelled
    operator reads. *)
Context {Coordinates : Type}.

(** The validation of the [xarray.DataArray] constructor beyond the count
    of the dimension names: whether it accepts the coordinates, if any are
    given, and the dimension names for data of the given shape. *)
Variable xarray_accepts :
  option Coordinates -> list string -> list nat -> bool.

(** [Grid.compute_face_areas(quadrature_rule, order)], which returns the
    areas and the jacobians of the faces; a method of the mesh class. *)
Variable compute_face_areas : Grid -> string -> nat -> list Q * list Q.

(** The kernels of [uxarray.core.gradient] and the connectivity of the
    mesh they are handed. *)
Variable edge_face_connectivity : Grid -> list (list Z).
Variable edge_node_connectivity : Grid -> list (list Z).
Variable edge_face_distances : Grid -> list Q.
Variable _calculate_grad_on_edge_from_faces :
  ndarray Q -> list (list Z) -> list Q -> nat -> bool -> ndarray Q.
Variable _calculate_edge_face_difference :
  ndarray Q -> list (list Z) -> nat -> ndarray Q.
Variable _calculate_edge_node_difference :
  ndarray Q -> list (list Z) -> ndarray Q.

(** The cartopy projection handed through to the mesh. *)
Context {Projection : Type}.

(** [Grid.to_polycollection(override, cache, periodic_elements,
    return_indices=True, projection)], a method of the mesh class: the
    collection of the polygons and, for each of them, the face it comes
    from, as a one-dimensional index array. *)
Variable grid_to_polycollection :
  Grid -> bool -> bool -> string -> option Projection ->
  attempt (PolyCollection * list nat).

Record UxDataArray : Type := {
  values : ndarray Q;
  dims : list string;
  name : option string;
  coords : option Coordinates;
  uxgrid : Grid
}.

(** [UxDataArray(data, uxgrid=..., dims=..., name=..., coords=...)]: the
    constructor of [xarray.DataArray] refuses dimension names that are not
    as many as the data has axes. *)
Definition new_UxDataArray (data : ndarray Q) (uxgrid : Grid)
    (dims : list string) (name : option string)
    (coords : option Coordinates) : attempt UxDataArray :=
  if length dims =? ndim data then
    if xarray_accepts coords dims (shape data) then
      Returns {| values := data; dims := dims; name := name;
                 coords := coords; uxgrid := uxgrid |}
    else Raises (OpValueError Rejected)
  else Raises (OpValueError DimensionCount).

Definition _face_centered (self : UxDataArray) : bool :=
  bool_decide ("n_face" ∈ dims self).

Definition _node_centered (self : UxDataArray) : bool :=
  bool_decide ("n_node" ∈ dims self).

Definition _edge_centered (self : UxDataArray) : bool :=
  bool_decide ("n_edge" ∈ dims self).

Definition to_polycollection (self : UxDataArray)
    (periodic_elements : string) (projection : option Projection)
    (return_indices cache override : bool)
  : attempt (PolyCollection * option (list nat)) :=
  if 1 <? ndim (values self) then Raises (OpValueError NotOneDimensional)
  else if _face_centered self then
    '(poly_collection, corrected_to_original_faces) ←
      grid_to_polycollection (uxgrid self) override cache
                             periodic_elements projection;
    data ←
      (if 0 <? length corrected_to_original_faces
       then of_result
              (np_take_last (values self)
                 (NdArray [length corrected_to_original_faces]
                          corrected_to_original_faces))
       else Returns (values self));
    let poly_collection := set_array poly_collection data in
    if return_indices
    then Returns (poly_collection, Some corrected_to_original_faces)
    else Returns (poly_collection, None)
  else Raises (OpValueError MustBeFaceCentered).

Definition integrate (self : UxDataArray) (quadrature_rule : string)
    (order : nat) : attempt UxDataArray :=
  n ← of_result (trailing_dim (values self));
  integral ←
    (if n =? n_face (uxgrid self) then
       let '(face_areas, face_jacobian) :=
         compute_face_areas (uxgrid self) quadrature_rule order in
       einsum_i_ellipsis_i face_areas (values self)
     else if n =? n_node (uxgrid self) then
       Raises (OpValueError NodeIntegration)
     else if n =? n_edge (uxgrid self) then
       Raises (OpValueError EdgeIntegration)
     else Raises (OpValueError FinalDimensionMismatch));
  new_UxDataArray integral (uxgrid self) (removelast (dims self))
                  (name self) None.

(** [gradient]: the warnings issued, one at most, and the outcome. *)
Definition gradient (self : UxDataArray) (normalize use_magnitude : bool)
  : list string * attempt UxDataArray :=
  if negb (_face_centered self) then
    ([], Raises (OpValueError GradientNotFaceCentered))
  else
    (if negb use_magnitude
     then ["Gradients can only be represented in terms of their aboslute value, since UXarray does not currently store any information for representing the sign."]
     else [],
     let _grad :=
       _calculate_grad_on_edge_from_faces
         (values self) (edge_face_connectivity (uxgrid self))
         (edge_face_distances (uxgrid self)) (n_edge (uxgrid self))
         normalize in
     dims ← set_last (dims self) "n_edge";
     new_UxDataArray _grad (uxgrid self) dims
       (Some (match name self with
              | Some name => (name ++ "_grad")%string
              | None => "grad"
              end))
       None).

Definition difference (self : UxDataArray) (destination : string)
  : attempt UxDataArray :=
  if bool_decide (destination ∉ ["node"; "edge"; "face"]) then
    Raises (OpValueError InvalidDestination)
  else
    let dims := dims self in
    let var_name :=
      match name self with
      | Some name => (name ++ "_")%string
      | None => " "
      end in
    '(_difference, dims, name) ←
      (if _face_centered self then
         if (destination =? "edge")%string then
           let _difference :=
             _calculate_edge_face_difference
               (values self) (edge_face_connectivity (uxgrid self))
               (n_edge (uxgrid self)) in
           dims ← set_last dims "n_edge";
           Returns (_difference, dims,
                    (var_name ++ "edge_face_difference")%string)
         else if (destination =? "face")%string then
           Raises (OpValueError FaceToFace)
         else Raises (OpValueError FaceToNode)
       else if _node_centered self then
         if (destination =? "edge")%string then
           let _difference :=
             _calculate_edge_node_difference
               (values self) (edge_node_connectivity (uxgrid self)) in
           dims ← set_last dims "n_edge";
           Returns (_difference, dims,
                    (var_name ++ "edge_node_difference")%string)
         else if (destination =? "node")%string then
           Raises (OpValueError NodeToNode)
         else Raises (OpValueError NodeToFace)
       else if _edge_centered self then Raises OpNotImplementedError
       else Raises (OpValueError Todo));
    new_UxDataArray _difference (uxgrid self) dims (Some name) None.

(** [_nearest_neighbor_uxda] of [remap/nearest_neighbor.py]: the calls of
    the spatial index, and the outcome. *)
Definition _nearest_neighbor_uxda
    (tree_query : BallTree -> list (list Q) -> nat -> ndarray nat)
    (source_uxda : UxDataArray) (destination_grid : Grid)
    (remap_to coord_type : string) : list call * attempt UxDataArray :=
  let destination_dim :=
    if (remap_to =? "nodes")%string then "n_node"
    else if (remap_to =? "edge centers")%string then "n_edge"
    else "n_face" in
  match set_last (dims source_uxda) destination_dim with
  | Raises e => ([], Raises e)
  | Returns destination_dims =>
      let ran :=
        Remap._nearest_neighbor tree_query (uxgrid source_uxda)
          destination_grid (values source_uxda) remap_to coord_type in
      (calls ran,
       destination_data ← of_result (outcome ran);
       new_UxDataArray destination_data destination_grid destination_dims
                       (name source_uxda) (coords source_uxda))
  end.

(** The labels of a data array fit its data: one dimension name per axis,
    and a buffer of the size of the shape. *)
Definition coherent (self : UxDataArray) : Prop :=
  length (dims self) = ndim (values self) /\ well_formed (values self).

End Operators.
End DataArrayOps.

(** ** Further vocabulary *)

(** The centres of the elements of one kind as the rows handed to the
    spatial index. *)
Definition element_centres (g : Grid) (kind coord_type : string)
  : list (list Q) :=
  match vstack_T (destination_columns g kind coord_type) with
  | Ok rows => rows
  | Raise _ => []
  end.

(** ** Example data arrays with labels *)

(** Stand-ins for what the operators take from outside, to run them on the
    example meshes: a constructor that accepts all labels, faces of area
    one half, and for the kernels the absolute difference of the values at
    the two elements an edge joins, level by level, an edge with a missing
    neighbour getting zero. *)
Definition accept_all (coords : option unit) (dims : list string)
    (shape : list nat) : bool := true.

Definition half_areas (g : Grid) (quadrature_rule : string) (order : nat)
  : list Q * list Q :=
  (replicate (n_face g) (1 # 2)%Q, replicate (n_face g) 1%Q).

Definition edge_jump (row : list Q) (ends : list Z) : Q :=
  match ends with
  | [a; b] =>
      match row !! Z.to_nat a, row !! Z.to_nat b with
      | Some x, Some y =>
          if ((0 <=? a) && (0 <=? b))%Z then Qabs (x - y) else 0%Q
      | _, _ => 0%Q
      end
  | _ => 0%Q
  end.

Definition edge_jumps (values : ndarray Q) (connectivity : list (list Z))
  : ndarray Q :=
  let n := default 0 (last (shape values)) in
  let lead := removelast (shape values) in
  NdArray (lead ++ [length connectivity])
    (mjoin ((fun row => edge_jump row <$> connectivity)
              <$> reshape (replicate (product lead) n) (data values))).

(** The edges of [patch_grid] by their end nodes and by the faces on their
    two sides, [-1] standing for no face. *)
Definition patch_edge_nodes (g : Grid) : list (list Z) :=
  [[0; 1]; [1; 2]; [0; 2]; [2; 3]; [3; 0]]%Z.

Definition patch_edge_faces (g : Grid) : list (list Z) :=
  [[0; -1]; [0; -1]; [0; 1]; [1; -1]; [1; -1]]%Z.

Definition unit_distances (g : Grid) : list Q := replicate (n_edge g) 1%Q.

(** The polygons of a mesh as the geometry module builds them with the
    stand-in repair, without the colours. *)
Definition seam_split_collection (g : Grid) (override cache : bool)
    (periodic_elements : string) (projection : option unit)
  : DataArrayOps.attempt (DataArrayOps.PolyCollection * list nat) :=
  match Geometry._build_corrected_polygon_shells
          seam_split (polygon_shells g) with
  | Ok (corrected_polygon_shells, original_to_corrected) =>
      DataArrayOps.Returns
        ({| DataArrayOps.verts := corrected_polygon_shells;
            DataArrayOps.array := None |},
         original_to_corrected)
  | Raise e => DataArrayOps.Raises (DataArrayOps.Inner e)
  end.

(** One value per face of [patch_grid], and three levels of them. *)
Definition patch_face_uxda : @DataArrayOps.UxDataArray unit := {|
  DataArrayOps.values := patch_face_field;
  DataArrayOps.dims := ["n_face"];
  DataArrayOps.name := Some "t2m";
  DataArrayOps.coords := Some tt;
  DataArrayOps.uxgrid := patch_grid
|}.

Definition patch_level_uxda : @DataArrayOps.UxDataArray unit := {|
  DataArrayOps.values := patch_level_field;
  DataArrayOps.dims := ["level"; "n_face"];
  DataArrayOps.name := Some "t2m";
  DataArrayOps.coords := Some tt;
  DataArrayOps.uxgrid := patch_grid
|}.

(** One value per face of [dateline_grid]. *)
Definition dateline_face_uxda : @DataArrayOps.UxDataArray unit := {|
  DataArrayOps.values := NdArray [3] [11; 22; 33]%Q;
  DataArrayOps.dims := ["n_face"];
  DataArrayOps.name := Some "t2m";
  DataArrayOps.coords := None;
  DataArrayOps.uxgrid := dateline_grid
|}.

(** * Properties *)

#[local] Arguments vstack_T : simpl never.
#[local] Arguments np_take_last : simpl never.
#[local] Arguments tree_coordinates : simpl never.
#[local] Arguments squeeze : simpl never.

Ltac run_unfold :=
  unfold mbind, mret, run_bind, run_ret, result_bind, result_ret,
         lift, raise, log in *.

(** ** Which exceptions the array primitives can raise *)

Lemma of_option_raises {A} e0 (o : option A) e :
  of_option e0 o = Raise e -> e = e0.
Proof. destruct o; simpl; congruence. Qed.

Lemma rmapM_raises {A B} (f : A -> result B) (P : exn -> Prop) l e :
  (forall a e', f a = Raise e' -> P e') ->
  rmapM f l = Raise e -> P e.
Proof.
  intros Hf. induction l as [|a l IH]; simpl; [discriminate|].
  unfold mbind, result_bind.
  destruct (f a) eqn:Hfa; [|intros [= <-]; eauto].
  destruct (rmapM f l); [discriminate|]. intros [= <-]. by apply IH.
Qed.

Lemma rmapM_Ok {A B} (f : A -> result B) l k :
  rmapM f l = Ok k <-> Forall2 (fun a b => f a = Ok b) l k.
Proof.
  revert k. induction l as [|a l IH]; intros k; simpl.
  - split; [intros [= <-]; constructor | by inversion 1].
  - unfold mbind, result_bind. split.
    + destruct (f a) eqn:Hfa; [|discriminate].
      destruct (rmapM f l) eqn:Hl; [|discriminate].
      intros [= <-]. constructor; [done|]. by apply IH.
    + inversion 1 as [|? b ? k' Hfa Hrest]; subst. rewrite Hfa.
      apply IH in Hrest. by rewrite Hrest.
Qed.

Lemma vstack_T_raises {A} (cols : list (list A)) e :
  vstack_T cols = Raise e ->
  e = ValueError DimensionMismatch \/ e = IndexError.
Proof.
  unfold vstack_T. destruct cols as [|c cs]; [intros [= <-]; by left|].
  case_match; [|intros [= <-]; by left].
  intros ->%of_option_raises. by right.
Qed.

Lemma vstack_T_Ok {A} (cols : list (list A)) m :
  cols <> [] ->
  Forall (fun c => length c = m) cols ->
  exists rows, vstack_T cols = Ok rows /\ length rows = m.
Proof.
  intros Hne Hlen. unfold vstack_T. destruct cols as [|c cs]; [done|].
  apply Forall_cons in Hlen as [Hc Hcs].
  assert (Hall : forallb (fun c' => length c' =? length c) cs = true).
  { apply forallb_forall. intros c' Hc'%list_elem_of_In.
    apply Nat.eqb_eq. rewrite Hc. by eapply (proj1 (Forall_forall _ _) Hcs). }
  rewrite Hall.
  destruct (mapM_is_Some_2
    (fun i => mapM (fun col : list A => col !! i) (c :: cs))
    (seq 0 (length c))) as [rows Hrows].
  { apply Forall_forall. intros i [_ Hi]%elem_of_seq. simpl in Hi.
    apply mapM_is_Some_2, Forall_forall. intros col Hcol. simpl.
    apply lookup_lt_is_Some_2.
    apply elem_of_cons in Hcol as [-> | Hcol]; [lia|].
    rewrite (proj1 (Forall_forall _ _) Hcs col Hcol). lia. }
  rewrite Hrows. simpl. eexists. split; [done|].
  apply length_mapM in Hrows. rewrite <- Hrows, length_seq. done.
Qed.

Lemma tree_coordinates_raises g c s e :
  tree_coordinates g c s = Raise e ->
  e = ValueError DimensionMismatch \/ e = IndexError
  \/ e = ValueError InvalidTreeArgument.
Proof.
  unfold tree_coordinates.
  repeat case_match; try (intros [= <-]; tauto);
    intros [-> | ->]%vstack_T_raises; tauto.
Qed.

Lemma np_take_last_raises {A} (a : ndarray A) idx e :
  np_take_last a idx = Raise e -> e = IndexError.
Proof.
  unfold np_take_last. repeat case_match; try congruence.
  unfold mbind, result_bind. case_match eqn:Hg; [discriminate|].
  intros [= <-]. revert Hg.
  apply (rmapM_raises _ (fun e => e = IndexError)). intros row e'.
  apply (rmapM_raises _ (fun e => e = IndexError)). intros i e''.
  apply of_option_raises.
Qed.

Ltac exn_cases :=
  repeat match goal with
    | H : vstack_T _ = Raise _ |- _ =>
        apply vstack_T_raises in H; destruct H as [-> | ->]
    | H : tree_coordinates _ _ _ = Raise _ |- _ =>
        apply tree_coordinates_raises in H; destruct H as [-> | [-> | ->]]
    | H : np_take_last _ _ = Raise _ |- _ =>
        apply np_take_last_raises in H; subst
    end.


(** ** Shapes and buffers of the array primitives *)

Lemma product_app dims1 dims2 :
  product (dims1 ++ dims2) = product dims1 * product dims2.
Proof.
  unfold product. induction dims1 as [|d dims1 IH]; simpl; [lia|].
  rewrite IH. lia.
Qed.

Lemma shape_split {A} (a : ndarray A) n :
  last (shape a) = Some n -> shape a = removelast (shape a) ++ [n].
Proof.
  intros [lead Hl]%last_Some. rewrite Hl. by rewrite removelast_last.
Qed.

Lemma reshape_rows {A} (l : list A) rows n :
  length l = rows * n ->
  Forall (fun row => length row = n) (reshape (replicate rows n) l).
Proof.
  revert l. induction rows as [|rows IH]; intros l Hl; simpl; [constructor|].
  constructor.
  - rewrite length_take. lia.
  - apply IH. rewrite length_drop. lia.
Qed.

Lemma mjoin_reshape_rows {A} (l : list A) rows n :
  length l = rows * n -> mjoin (reshape (replicate rows n) l) = l.
Proof.
  intros Hl. apply join_reshape. by rewrite sum_list_replicate.
Qed.

Lemma filter_unit_axes_singleton m :
  filter (fun d => d <> 1) [m] = if decide (m = 1) then [] else [m].
Proof.
  rewrite filter_cons, filter_nil.
  destruct (decide (m <> 1)), (decide (m = 1)); done.
Qed.

Lemma squeeze_shape_singleton {A} (a : ndarray A) m :
  shape a = [m] -> shape (squeeze a) = if decide (m = 1) then [] else [m].
Proof.
  unfold squeeze. intros ->. simpl. apply filter_unit_axes_singleton.
Qed.

Lemma np_take_last_shape {A} (a : ndarray A) idx b :
  np_take_last a idx = Ok b ->
  shape b = removelast (shape a) ++ shape idx.
Proof.
  unfold np_take_last. repeat case_match; try discriminate.
  unfold mbind, result_bind. case_match; [|discriminate]. by intros [= <-].
Qed.

(** Gathering a row through in-range indices succeeds. *)
Lemma gather_row_Ok {A} (row : list A) (indices : list nat) :
  Forall (fun i => i < length row) indices ->
  exists picked,
    rmapM (fun i => of_option IndexError (row !! i)) indices = Ok picked
    /\ length picked = length indices.
Proof.
  induction 1 as [|i indices Hi _ (picked & Hp & Hlen)]; simpl; [by eexists|].
  destruct (lookup_lt_is_Some_2 row i Hi) as [x Hx].
  rewrite Hx. simpl. unfold mbind, result_bind. rewrite Hp.
  eexists. split; [done|]. simpl. by rewrite Hlen.
Qed.

Lemma gather_row_identity {A} (row : list A) :
  rmapM (fun i => of_option IndexError (row !! i)) (seq 0 (length row))
    = Ok row.
Proof.
  apply rmapM_Ok. apply Forall2_same_length_lookup_2.
  - by rewrite length_seq.
  - intros i j x [-> Hi]%lookup_seq Hx. simpl. by rewrite Hx.
Qed.

Lemma rmapM_total {A B} (f : A -> result B) l :
  Forall (fun a => exists b, f a = Ok b) l -> exists k, rmapM f l = Ok k.
Proof.
  induction 1 as [|a l [b Hb] _ [k Hk]]; simpl; [by eexists|].
  unfold mbind, result_bind. rewrite Hb, Hk. by eexists.
Qed.

Lemma np_take_last_Ok {A} (a : ndarray A) idx n :
  well_formed a ->
  last (shape a) = Some n ->
  Forall (fun i => i < n) (data idx) ->
  exists b, np_take_last a idx = Ok b.
Proof.
  intros Hwf Hlast Hidx. unfold np_take_last. rewrite Hlast.
  assert (Hall : forallb (fun i => i <? n) (data idx) = true).
  { apply forallb_forall. intros i Hi%list_elem_of_In.
    apply Nat.ltb_lt. by eapply (proj1 (Forall_forall _ _) Hidx). }
  rewrite Hall.
  assert (Hrows : Forall (fun row => length row = n)
            (reshape (replicate (product (removelast (shape a))) n) (data a))).
  { apply reshape_rows. unfold well_formed, np_size in Hwf.
    rewrite Hwf, (shape_split a n Hlast) at 1.
    rewrite product_app. simpl. lia. }
  destruct (rmapM_total
    (fun row => rmapM (fun i => of_option IndexError (row !! i)) (data idx))
    (reshape (replicate (product (removelast (shape a))) n) (data a)))
    as [k Hk].
  { eapply Forall_impl; [exact Hrows|]. intros row Hrow. simpl.
    destruct (gather_row_Ok row (data idx)) as (picked & Hp & _);
      [by rewrite Hrow | by eexists]. }
  unfold mbind, result_bind. rewrite Hk. by eexists.
Qed.

(** Gathering through [0, 1, ..., n-1] returns the array itself. *)
Lemma np_take_last_identity {A} (a : ndarray A) idx n :
  well_formed a ->
  last (shape a) = Some n ->
  shape idx = [n] ->
  data idx = seq 0 n ->
  np_take_last a idx = Ok a.
Proof.
  intros Hwf Hlast Hshape Hdata. unfold np_take_last.
  rewrite Hlast, Hdata, Hshape.
  assert (Hall : forallb (fun i => i <? n) (seq 0 n) = true).
  { apply forallb_forall. intros i Hi%in_seq. apply Nat.ltb_lt. lia. }
  rewrite Hall.
  assert (Hlen : length (data a) = product (removelast (shape a)) * n).
  { unfold well_formed, np_size in Hwf.
    rewrite Hwf, (shape_split a n Hlast) at 1.
    rewrite product_app. simpl. lia. }
  assert (Hg : rmapM (fun row =>
                  rmapM (fun i => of_option IndexError (row !! i)) (seq 0 n))
                (reshape (replicate (product (removelast (shape a))) n)
                         (data a))
               = Ok (reshape (replicate (product (removelast (shape a))) n)
                             (data a))).
  { apply rmapM_Ok. apply Forall2_same_length_lookup_2; [done|].
    intros i row row' Hrow Hrow'. rewrite Hrow in Hrow'.
    injection Hrow' as <-.
    assert (length row = n) as <-.
    { by eapply (proj1 (Forall_lookup _ _) (reshape_rows _ _ _ Hlen)). }
    apply gather_row_identity. }
  unfold mbind, result_bind. rewrite Hg.
  rewrite (mjoin_reshape_rows _ _ _ Hlen), <- (shape_split a n Hlast).
  by destruct a.
Qed.


(** ** Deleting positions from an array *)

Lemma keep_mask_snoc n obj i :
  keep_mask n (obj ++ [i]) = <[i:=false]> (keep_mask n obj).
Proof. unfold keep_mask. by rewrite foldl_app. Qed.

Lemma keep_mask_length n obj : length (keep_mask n obj) = n.
Proof.
  induction obj as [|i obj IH] using rev_ind.
  - apply length_replicate.
  - by rewrite keep_mask_snoc, length_insert.
Qed.

Lemma keep_mask_lookup n obj j :
  j < n -> keep_mask n obj !! j = Some (bool_decide (j ∉ obj)).
Proof.
  intros Hj. induction obj as [|i obj IH] using rev_ind.
  - unfold keep_mask. simpl. by rewrite lookup_replicate_2.
  - rewrite keep_mask_snoc. destruct (decide (i = j)) as [->|Hij].
    + rewrite list_lookup_insert_eq by (by rewrite keep_mask_length).
      rewrite bool_decide_eq_false_2; [done|]. intros Hnot.
      apply Hnot, elem_of_app. right. by apply list_elem_of_singleton.
    + rewrite list_lookup_insert_ne, IH by done. f_equal.
      apply bool_decide_ext. rewrite elem_of_app, list_elem_of_singleton.
      intuition congruence.
Qed.

Lemma count_true_insert_false mask i :
  mask !! i = Some true ->
  count_true (<[i:=false]> mask) + 1 = count_true mask.
Proof.
  unfold count_true. revert i.
  induction mask as [|b mask IH]; intros [|i] Hi; try done.
  - simpl in Hi. injection Hi as ->. simpl.
    rewrite !filter_cons. simpl.
    destruct (decide (false = true)); [done|].
    destruct (decide (true = true)); [simpl; lia | done].
  - simpl in Hi. simpl. rewrite !filter_cons.
    destruct (decide (b = true)); simpl; [|by apply IH].
    f_equal. by apply IH.
Qed.

Lemma count_true_replicate n : count_true (replicate n true) = n.
Proof.
  unfold count_true. induction n as [|n IH]; [done|].
  change (replicate (S n) true) with (true :: replicate n true).
  rewrite filter_cons. destruct (decide (true = true)); [|done].
  simpl. by rewrite IH.
Qed.

(** Striking out distinct positions removes that many entries. *)
Lemma count_true_keep_mask n obj :
  NoDup obj -> Forall (fun i => i < n) obj ->
  count_true (keep_mask n obj) + length obj = n.
Proof.
  induction obj as [|i obj IH] using rev_ind; intros Hnd Hrange.
  - unfold keep_mask. simpl. rewrite count_true_replicate. lia.
  - apply NoDup_app in Hnd as (Hnd & Hfresh & _).
    apply Forall_app in Hrange as [Hrange Hi].
    rewrite Forall_singleton in Hi.
    rewrite keep_mask_snoc, length_app. simpl.
    pose proof (IH Hnd Hrange) as IH'.
    pose proof (count_true_insert_false (keep_mask n obj) i) as Hcount.
    rewrite keep_mask_lookup in Hcount by done.
    rewrite bool_decide_eq_true_2 in Hcount.
    + specialize (Hcount eq_refl). lia.
    + intros Hin. apply (Hfresh i Hin). by apply list_elem_of_singleton.
Qed.

Lemma select_cons {A} b mask (x : A) l :
  select (b :: mask) (x :: l)
  = if b then x :: select mask l else select mask l.
Proof.
  unfold select. simpl. rewrite filter_cons. simpl.
  destruct b; by destruct (decide _).
Qed.

Lemma select_length {A} mask (l : list A) :
  length mask = length l -> length (select mask l) = count_true mask.
Proof.
  revert mask. induction l as [|x l IH]; intros [|b mask] Hlen; try done.
  rewrite select_cons. unfold count_true. rewrite filter_cons.
  simpl in Hlen. injection Hlen as Hlen.
  destruct b, (decide _); try done; simpl; rewrite IH; done.
Qed.

(** The kept entries are the entries at the kept positions, in order. *)
Lemma select_positions {A} (reference mask : list bool) (l : list A) offset :
  length mask = length l ->
  (forall i, i < length l -> mask !! i = reference !! (offset + i)) ->
  select mask l
  = snd <$> filter (fun iv => reference !! fst iv = Some true)
                   (imap (fun i x => (offset + i, x)) l).
Proof.
  revert mask offset.
  induction l as [|x l IH]; intros [|b mask] offset Hlen Href; try done.
  rewrite select_cons, imap_cons, filter_cons. simpl in Hlen.
  injection Hlen as Hlen.
  assert (Hrest : select mask l
    = snd <$> filter (fun iv => reference !! fst iv = Some true)
                     (imap ((fun i x => (offset + i, x)) ∘ S) l)).
  { rewrite (IH mask (S offset) Hlen).
    - do 2 f_equal. apply imap_ext. intros i y _. simpl. f_equal. lia.
    - intros i Hi. replace (S offset + i) with (offset + S i) by lia.
      by rewrite <- (Href (S i)) by (simpl; lia). }
  pose proof (Href 0 ltac:(simpl; lia)) as H0. simpl in H0.
  destruct (decide _) as [Hkeep | Hdrop]; simpl in *.
  - rewrite <- H0 in Hkeep. injection Hkeep as ->. by rewrite Hrest.
  - rewrite <- H0 in Hdrop. destruct b; [done|]. exact Hrest.
Qed.

Lemma filter_agree {A} (P1 P2 : A -> Prop)
    `{!forall x, Decision (P1 x), !forall x, Decision (P2 x)} (l : list A) :
  Forall (fun x => P1 x <-> P2 x) l -> filter P1 l = filter P2 l.
Proof.
  induction 1 as [|x l Hx _ IH]; [done|]. rewrite !filter_cons, IH.
  destruct (decide (P1 x)), (decide (P2 x)); tauto.
Qed.

Lemma select_keep_mask {A} (l : list A) obj :
  select (keep_mask (length l) obj) l = without_positions obj l.
Proof.
  unfold without_positions.
  rewrite (select_positions (keep_mask (length l) obj) _ l 0);
    [|apply keep_mask_length | done].
  f_equal. apply filter_agree. apply Forall_forall.
  intros [i x] Hin. simpl.
  apply elem_of_lookup_imap_1 in Hin as (j & y & [= -> ->] & Hj).
  apply lookup_lt_Some in Hj. simpl. rewrite keep_mask_lookup by done.
  split; [intros [= H%bool_decide_eq_true]; done|].
  intros H. f_equal. by apply bool_decide_eq_true.
Qed.

Lemma reshape_singletons {A} (l : list A) :
  reshape (replicate (length l) 1) l = (fun x => [x]) <$> l.
Proof. induction l as [|x l IH]; [done|]. simpl. by rewrite drop_0, IH. Qed.

Lemma mjoin_singletons {A} (l : list A) : mjoin ((fun x => [x]) <$> l) = l.
Proof. induction l as [|x l IH]; [done|]. simpl. by f_equal. Qed.

Lemma select_fmap {A B} (f : A -> B) mask (l : list A) :
  select mask (f <$> l) = f <$> select mask l.
Proof.
  revert mask. induction l as [|x l IH]; intros [|b mask]; try done.
  rewrite fmap_cons, !select_cons. destruct b; by rewrite IH.
Qed.

(** [np.delete] on a one-dimensional array. *)
Lemma np_delete_1d {A} (arr : ndarray A) n obj :
  shape arr = [n] -> well_formed arr ->
  Forall (fun i => i < n) obj ->
  np_delete arr obj
  = Ok (NdArray [length (without_positions obj (data arr))]
                (without_positions obj (data arr))).
Proof.
  intros Hshape Hwf Hrange. unfold np_delete. rewrite Hshape.
  assert (Hall : forallb (fun i => i <? n) obj = true).
  { apply forallb_forall. intros i Hi%list_elem_of_In. apply Nat.ltb_lt.
    by eapply (proj1 (Forall_forall _ _) Hrange). }
  rewrite Hall. unfold well_formed, np_size in Hwf. rewrite Hshape in Hwf.
  simpl in Hwf. replace (product []) with 1 by done.
  assert (n = length (data arr)) as -> by lia.
  rewrite reshape_singletons, select_fmap, select_keep_mask.
  by rewrite length_fmap, mjoin_singletons.
Qed.

Lemma without_positions_length {A} (l : list A) obj :
  NoDup obj -> Forall (fun i => i < length l) obj ->
  length (without_positions obj l) + length obj = length l.
Proof.
  intros Hnd Hrange. rewrite <- select_keep_mask.
  rewrite select_length by apply keep_mask_length.
  by apply count_true_keep_mask.
Qed.

(** ** The reference spatial index meets the specification of the query *)

Lemma argmin_from_spec q seen rest best best_p :
  seen !! best = Some best_p ->
  (forall p, p ∈ seen -> (sq_dist q best_p <= sq_dist q p)%Q) ->
  exists p,
    (seen ++ rest) !!
      argmin_from q rest (length seen) best (sq_dist q best_p) = Some p
    /\ forall p', p' ∈ seen ++ rest -> (sq_dist q p <= sq_dist q p')%Q.
Proof.
  revert seen best best_p.
  induction rest as [|p rest IH]; intros seen best best_p Hbest Hmin; simpl.
  - rewrite app_nil_r. eauto.
  - replace (seen ++ p :: rest) with ((seen ++ [p]) ++ rest)
      by (by rewrite <- app_assoc).
    replace (S (length seen)) with (length (seen ++ [p]))
      by (rewrite length_app; simpl; lia).
    destruct (Qle_bool (sq_dist q best_p) (sq_dist q p)) eqn:Hle.
    + apply Qle_bool_iff in Hle. apply IH.
      * by apply lookup_app_l_Some.
      * intros p' [Hp' | ->%list_elem_of_singleton]%elem_of_app; auto.
    + assert (Hlt : (sq_dist q p < sq_dist q best_p)%Q).
      { apply Qnot_le_lt. intros Hle'%Qle_bool_iff. congruence. }
      replace (length seen) with (length seen + 0) at 2 by lia.
      apply IH.
      * replace (length seen + 0) with (length seen) by lia.
        by rewrite lookup_app_r, Nat.sub_diag.
      * intros p' [Hp' | ->%list_elem_of_singleton]%elem_of_app.
        -- eapply Qle_trans; [by apply Qlt_le_weak|]. by apply Hmin.
        -- apply Qle_refl.
Qed.

Lemma nearest_index_spec points q :
  points <> [] ->
  exists p, points !! nearest_index points q = Some p
    /\ forall p', p' ∈ points -> (sq_dist q p <= sq_dist q p')%Q.
Proof.
  destruct points as [|p0 rest]; [done|]. intros _. unfold nearest_index.
  apply (argmin_from_spec q [p0] rest 0 p0); [done|].
  intros p ->%list_elem_of_singleton. apply Qle_refl.
Qed.

Lemma brute_force_nearest :
  nearest_spec (fun _ => sq_dist) brute_force_query.
Proof.
  intros tree points Hne found. subst found. unfold brute_force_query.
  simpl. split; [right; by left|]. split; [by rewrite length_fmap|].
  intros j q i Hq Hi. rewrite list_lookup_fmap, Hq in Hi.
  injection Hi as <-. by apply nearest_index_spec.
Qed.

(** ** The nearest-neighbour remapper *)

Module RemapFacts.
Import Remap.

Section Remapper.

Context {V : Type}.
Variable tree_query : BallTree -> list (list Q) -> nat -> ndarray nat.

Lemma source_data_mapping_raises g n :
  source_data_mapping g n = Raise (ValueError InvalidSourceShape)
  <-> n <> n_node g /\ n <> n_edge g /\ n <> n_face g.
Proof.
  unfold source_data_mapping.
  destruct (Nat.eqb_spec n (n_node g)); [split; [discriminate | tauto] |].
  destruct (Nat.eqb_spec n (n_edge g)); [split; [discriminate | tauto] |].
  destruct (Nat.eqb_spec n (n_face g)); [split; [discriminate | tauto] |].
  tauto.
Qed.

Lemma source_data_mapping_cases g n :
  source_data_mapping g n = Raise (ValueError InvalidSourceShape)
  \/ exists kind, source_data_mapping g n = Ok kind
       /\ recognized_remap_to kind.
Proof.
  unfold source_data_mapping, recognized_remap_to.
  repeat case_match; eauto 6.
Qed.

Lemma source_data_mapping_matches g n :
  matches_a_count g n ->
  exists kind, source_data_mapping g n = Ok kind /\ recognized_remap_to kind.
Proof.
  intros Hm. destruct (source_data_mapping_cases g n) as [Hr|]; [|done].
  apply source_data_mapping_raises in Hr. unfold matches_a_count in Hm.
  tauto.
Qed.

Lemma eqb_unrecognized_remap_to r :
  ~ recognized_remap_to r ->
  (r =? "nodes")%string = false /\ (r =? "edge centers")%string = false
  /\ (r =? "face centers")%string = false.
Proof.
  unfold recognized_remap_to. intros Hr.
  repeat split; apply String.eqb_neq; tauto.
Qed.

Lemma eqb_unrecognized_coord_type c :
  ~ recognized_coord_type c ->
  (c =? "spherical")%string = false /\ (c =? "cartesian")%string = false.
Proof.
  unfold recognized_coord_type. intros Hc.
  split; apply String.eqb_neq; tauto.
Qed.

Lemma recognized_remap_to_dec r :
  {recognized_remap_to r} + {~ recognized_remap_to r}.
Proof. unfold recognized_remap_to. solve_decision. Qed.

Lemma recognized_coord_type_dec c :
  {recognized_coord_type c} + {~ recognized_coord_type c}.
Proof. unfold recognized_coord_type. solve_decision. Qed.

(** A scalar has no trailing dimension. *)
Lemma nearest_neighbor_scalar src dst (source_data : ndarray V) r c :
  last (shape source_data) = None ->
  _nearest_neighbor tree_query src dst source_data r c
    = Run [] (Raise IndexError).
Proof.
  intros Hlast. unfold _nearest_neighbor, trailing_dim. by rewrite Hlast.
Qed.

Lemma nearest_neighbor_bad_shape src dst (source_data : ndarray V) r c n e :
  last (shape source_data) = Some n ->
  source_data_mapping src n = Raise e ->
  _nearest_neighbor tree_query src dst source_data r c = Run [] (Raise e).
Proof.
  intros Hlast Hk. unfold _nearest_neighbor, trailing_dim.
  rewrite Hlast. simpl. run_unfold. simpl. by rewrite Hk.
Qed.

Lemma nearest_neighbor_bad_coord_type src dst (source_data : ndarray V)
    r c n kind :
  last (shape source_data) = Some n ->
  source_data_mapping src n = Ok kind ->
  ~ recognized_coord_type c ->
  _nearest_neighbor tree_query src dst source_data r c
    = Run [] (Raise (ValueError InvalidCoordType)).
Proof.
  intros Hlast Hk [Hs Hc]%eqb_unrecognized_coord_type.
  unfold _nearest_neighbor, trailing_dim.
  rewrite Hlast, Hs, Hc. simpl. run_unfold. simpl. by rewrite Hk.
Qed.

Lemma nearest_neighbor_bad_remap_to src dst (source_data : ndarray V)
    r c n kind :
  last (shape source_data) = Some n ->
  source_data_mapping src n = Ok kind ->
  recognized_coord_type c ->
  ~ recognized_remap_to r ->
  _nearest_neighbor tree_query src dst source_data r c
    = Run [] (Raise (ValueError InvalidRemapTo)).
Proof.
  intros Hlast Hk Hc (Hn & He & Hf)%eqb_unrecognized_remap_to.
  unfold _nearest_neighbor, trailing_dim.
  rewrite Hlast, Hn, He, Hf. simpl. run_unfold. simpl. rewrite Hk.
  by destruct Hc as [-> | ->].
Qed.

(** The stages of the remapper that follow the checks of the arguments:
    the tree is built over the anchored kind, the destination coordinates
    are stacked, the tree is queried and the data gathered. *)
Lemma nearest_neighbor_valid src dst (source_data : ndarray V) r c n kind :
  last (shape source_data) = Some n ->
  source_data_mapping src n = Ok kind ->
  recognized_remap_to r ->
  recognized_coord_type c ->
  _nearest_neighbor tree_query src dst source_data r c =
    match tree_coordinates src kind c with
    | Raise e => Run [GetBallTree kind c (metric_of c)] (Raise e)
    | Ok indexed =>
        match vstack_T (destination_columns dst r c) with
        | Raise e => Run [GetBallTree kind c (metric_of c)] (Raise e)
        | Ok points =>
            Run [GetBallTree kind c (metric_of c);
                 TreeQuery (length points) 1]
                (gathered source_data
                   (tree_query {| tree_points := indexed;
                                  tree_coordinate_system := c;
                                  tree_distance_metric := metric_of c |}
                               points 1))
        end
    end.
Proof.
  intros Hlast Hk Hr Hc. unfold _nearest_neighbor, trailing_dim, gathered.
  rewrite Hlast. simpl. unfold get_ball_tree, query. run_unfold. simpl.
  rewrite Hk. simpl.
  destruct Hr as [-> | [-> | ->]], Hc as [-> | ->]; simpl;
    (destruct (tree_coordinates src kind _); simpl; [|reflexivity]);
    (destruct (vstack_T _); simpl; [|reflexivity]);
    by destruct (np_take_last _ _).
Qed.

Lemma source_data_mapping_count g n kind :
  source_data_mapping g n = Ok kind -> element_count g kind = n.
Proof.
  unfold source_data_mapping, element_count.
  destruct (Nat.eqb_spec n (n_node g)); [by intros [= <-]|].
  destruct (Nat.eqb_spec n (n_edge g)); [by intros [= <-]|].
  destruct (Nat.eqb_spec n (n_face g)); [by intros [= <-]|].
  discriminate.
Qed.

Lemma destination_points_Ok g r c :
  well_formed_grid g ->
  exists points,
    vstack_T (destination_columns g r c) = Ok points
    /\ length points = element_count g r.
Proof.
  intros []. unfold destination_columns, element_count.
  repeat case_match; apply vstack_T_Ok; try done;
    repeat (apply Forall_cons_2; [done|]); done.
Qed.

Lemma tree_coordinates_destination g r c :
  recognized_remap_to r -> recognized_coord_type c ->
  tree_coordinates g r c = vstack_T (destination_columns g r c).
Proof. by intros [-> | [-> | ->]] [-> | ->]. Qed.

(** The query, specified by [nearest_spec], returns in-range indices. *)
Lemma nearest_spec_in_range dist tree points :
  nearest_spec dist tree_query ->
  tree_points tree <> [] ->
  Forall (fun i => i < length (tree_points tree))
         (data (tree_query tree points 1)).
Proof.
  intros Hspec Hne. destruct (Hspec tree points Hne) as (_ & Hlen & Hnear).
  apply Forall_lookup. intros j i Hi.
  destruct (lookup_lt_is_Some_2 points j) as [q Hq].
  { rewrite <- Hlen. by eapply lookup_lt_Some. }
  destruct (Hnear j q i Hq Hi) as (p & Hp & _). by eapply lookup_lt_Some.
Qed.

(** The shape of what the remapper returns, given the shape of the index
    array: the destination count [m] replaces the trailing dimension,
    except that a count of one is squeezed away. *)
Lemma gathered_shape (source_data : ndarray V) found n m :
  well_formed source_data ->
  last (shape source_data) = Some n ->
  shape found = [m] \/ shape found = [m; 1] \/ (m = 1 /\ shape found = []) ->
  Forall (fun i => i < n) (data found) ->
  exists destination_data,
    gathered source_data found = Ok destination_data
    /\ (m <> 1 ->
        shape destination_data = removelast (shape source_data) ++ [m])
    /\ (m = 1 -> ndim source_data = 1 -> shape destination_data = []).
Proof.
  intros Hwf Hlast Hshape Hidx. unfold gathered.
  set (found' := if 1 <? ndim found then squeeze found else found).
  assert (Hdata : data found' = data found).
  { subst found'. by case_match. }
  assert (Hshape' : shape found' = [m]
                    \/ (m = 1 /\ shape found' = [])).
  { subst found'. unfold ndim.
    destruct Hshape as [Hs | [Hs | [Hm Hs]]]; rewrite Hs; simpl;
      [by left | | by right].
    unfold squeeze. rewrite Hs. simpl.
    rewrite !filter_cons, filter_nil. simpl.
    destruct (decide (m <> 1)) as [?|Hm]; [by left|].
    right. split; [|done]. destruct (decide (m = 1)); [done|tauto]. }
  destruct (np_take_last_Ok source_data found' n Hwf Hlast) as [d Hd].
  { by rewrite Hdata. }
  unfold mbind, result_bind. rewrite Hd. eexists. split; [done|].
  pose proof (np_take_last_shape _ _ _ Hd) as Hsd.
  assert (Hlead : ndim source_data = 1 -> removelast (shape source_data) = []).
  { unfold ndim. intros H1. destruct (shape source_data) as [|? [|]]; done. }
  split.
  - intros Hm. destruct Hshape' as [Hs | [? _]]; [|done].
    rewrite Hs in Hsd. destruct (Nat.eqb_spec (ndim source_data) 1) as [H1|];
      [|done].
    rewrite (Hlead H1) in *. simpl in *.
    rewrite Hsd, filter_unit_axes_singleton. by destruct (decide (m = 1)).
  - intros -> H1. rewrite H1. simpl. rewrite (Hlead H1) in Hsd. simpl in Hsd.
    destruct Hshape' as [Hs | [_ Hs]]; rewrite Hs in Hsd.
    + by rewrite Hsd, filter_unit_axes_singleton.
    + by rewrite Hsd.
Qed.

Lemma squeeze_without_unit_axes {A} (a : ndarray A) :
  Forall (fun d => d <> 1) (shape a) -> squeeze a = a.
Proof.
  intros Hall. unfold squeeze. destruct a as [dims buffer]. simpl in *.
  f_equal. induction Hall as [|d dims Hd _ IH]; [done|].
  rewrite filter_cons. destruct (decide (d <> 1)); [by rewrite IH | done].
Qed.

(** Gathering through the identity indices returns the data unchanged. *)
Lemma gathered_identity (source_data : ndarray V) found n :
  well_formed source_data ->
  last (shape source_data) = Some n ->
  n <> 1 ->
  shape found = [n] \/ shape found = [n; 1] ->
  data found = seq 0 n ->
  gathered source_data found = Ok source_data.
Proof.
  intros Hwf Hlast Hn Hshape Hdata. unfold gathered.
  set (found' := if 1 <? ndim found then squeeze found else found).
  assert (Hdata' : data found' = seq 0 n).
  { subst found'. by case_match. }
  assert (Hshape' : shape found' = [n]).
  { subst found'. unfold ndim.
    destruct Hshape as [Hs | Hs]; rewrite Hs; simpl; [done|].
    unfold squeeze. rewrite Hs. simpl.
    rewrite !filter_cons, filter_nil. simpl.
    by destruct (decide (n <> 1)). }
  rewrite (np_take_last_identity source_data found' n) by done.
  unfold mbind, result_bind.
  destruct (Nat.eqb_spec (ndim source_data) 1) as [H1|]; [|done].
  rewrite squeeze_without_unit_axes; [done|].
  unfold ndim in H1. pose proof (shape_split source_data n Hlast) as Hs.
  destruct (shape source_data) as [|d [|]]; try done.
  simpl in Hs. injection Hs as ->. by apply Forall_singleton.
Qed.

(** Queried with the indexed points themselves, pairwise apart, the spatial
    index returns every point's own position. *)
Lemma nearest_to_itself dist tree :
  nearest_spec dist tree_query ->
  tree_points tree <> [] ->
  separated (dist (tree_distance_metric tree)) (tree_points tree) ->
  data (tree_query tree (tree_points tree) 1)
    = seq 0 (length (tree_points tree)).
Proof.
  intros Hspec Hne Hsep.
  destruct (Hspec tree (tree_points tree) Hne) as (_ & Hlen & Hnear).
  apply list_eq_same_length with (length (tree_points tree));
    [by rewrite length_seq | done |].
  intros j i i' Hj Hi Hi'. apply lookup_seq in Hi' as [-> _]. simpl.
  destruct (lookup_lt_is_Some_2 (tree_points tree) j Hj) as [q Hq].
  destruct (Hnear j q i Hq Hi) as (p & Hp & Hmin).
  destruct (decide (i = j)) as [|Hij]; [done|]. exfalso.
  assert (Hlt := Hsep j i q p Hq Hp (not_eq_sym Hij)).
  apply (Qlt_not_le _ _ Hlt). apply Hmin.
  by eapply list_elem_of_lookup_2.
Qed.

(** A valid call runs to the end; its result has the destination count in
    place of the trailing dimension, unless that count is one. *)
Lemma nearest_neighbor_runs dist src dst (source_data : ndarray V) r c n :
  nearest_spec dist tree_query ->
  well_formed_grid src -> well_formed_grid dst ->
  well_formed source_data ->
  last (shape source_data) = Some n -> 0 < n ->
  matches_a_count src n ->
  recognized_remap_to r -> recognized_coord_type c ->
  exists destination_data,
    outcome (_nearest_neighbor tree_query src dst source_data r c)
      = Ok destination_data
    /\ (element_count dst r <> 1 ->
        shape destination_data
          = removelast (shape source_data) ++ [element_count dst r])
    /\ (element_count dst r = 1 -> ndim source_data = 1 ->
        shape destination_data = []).
Proof.
  intros Hspec Hsrc Hdst Hwf Hlast Hn Hm Hr Hc.
  destruct (source_data_mapping_matches src n Hm) as (kind & Hk & Hkind).
  rewrite (nearest_neighbor_valid _ _ _ _ _ _ _ Hlast Hk Hr Hc).
  rewrite (tree_coordinates_destination src kind c Hkind Hc).
  destruct (destination_points_Ok src kind c Hsrc) as (indexed & -> & Hlen).
  destruct (destination_points_Ok dst r c Hdst) as (points & -> & Hpoints).
  simpl. rewrite (source_data_mapping_count _ _ _ Hk) in Hlen.
  set (tree := {| tree_points := indexed |}).
  assert (Hne : tree_points tree <> []).
  { simpl. intros ->. simpl in Hlen. lia. }
  rewrite <- Hpoints.
  apply (gathered_shape source_data _ n (length points)); [done | done | |].
  - by destruct (Hspec tree points Hne) as (? & _).
  - rewrite <- Hlen. by apply (nearest_spec_in_range dist tree points).
Qed.

(** C2 (where the code departs from the claim).  For one-dimensional source
    data and a destination mesh with a single element of the kind named by
    [remap_to], a valid call returns a zero-dimensional array: the final
    [squeeze] removes the trailing axis of length one, so the result is not
    the one-dimensional array of shape [(1,)] the claim describes. *)
Theorem nearest_neighbor_single_destination_shape
    dist src dst (source_data : ndarray V) remap_to coord_type n :
  nearest_spec dist tree_query ->
  well_formed_grid src -> well_formed_grid dst ->
  well_formed source_data ->
  shape source_data = [n] -> 0 < n ->
  matches_a_count src n ->
  recognized_remap_to remap_to -> recognized_coord_type coord_type ->
  element_count dst remap_to = 1 ->
  exists destination_data,
    outcome (_nearest_neighbor tree_query src dst source_data
                               remap_to coord_type) = Ok destination_data
    /\ shape destination_data = []
    /\ shape destination_data
         <> removelast (shape source_data) ++ [element_count dst remap_to].
Proof.
  intros Hspec Hsrc Hdst Hwf Hshape Hn Hm Hr Hc Hone.
  destruct (nearest_neighbor_runs dist src dst source_data
              remap_to coord_type n) as (d & Hd & _ & Hsq); try done.
  { by rewrite Hshape. }
  exists d. split; [done|].
  assert (Hs : shape d = []). { apply Hsq; [done|]. unfold ndim. by rewrite Hshape. }
  split; [done|]. rewrite Hs, Hshape, Hone. done.
Qed.

(** The shape contract of the remapper, away from destination counts of
    one: the leading dimensions are kept and the trailing dimension becomes
    the destination count, so one-dimensional data stays one-dimensional. *)
Lemma nearest_neighbor_shape
    dist src dst (source_data : ndarray V) remap_to coord_type n :
  nearest_spec dist tree_query ->
  well_formed_grid src -> well_formed_grid dst ->
  well_formed source_data ->
  last (shape source_data) = Some n -> 0 < n ->
  matches_a_count src n ->
  recognized_remap_to remap_to -> recognized_coord_type coord_type ->
  element_count dst remap_to <> 1 ->
  exists destination_data,
    outcome (_nearest_neighbor tree_query src dst source_data
                               remap_to coord_type) = Ok destination_data
    /\ shape destination_data
         = removelast (shape source_data) ++ [element_count dst remap_to]
    /\ ndim destination_data = ndim source_data.
Proof.
  intros Hspec Hsrc Hdst Hwf Hlast Hn Hm Hr Hc Hmany.
  destruct (nearest_neighbor_runs dist src dst source_data
              remap_to coord_type n) as (d & Hd & Hs & _); try done.
  exists d. split; [done|]. split; [by apply Hs|].
  unfold ndim. rewrite (Hs Hmany).
  rewrite (shape_split source_data n Hlast) at 2.
  by rewrite !length_app.
Qed.

(** C9, as amended.  On a mesh with at least two faces, whose face count
    differs from its node and edge counts and whose face centres are
    pairwise apart, remapping face-centred data from the mesh to itself
    with [remap_to = "face centers"] returns the data unchanged, in the
    spherical and in the Cartesian coordinate system. *)
Theorem remap_to_self_identity dist g (source_data : ndarray V) :
  nearest_spec dist tree_query ->
  well_formed_grid g ->
  well_formed source_data ->
  last (shape source_data) = Some (n_face g) ->
  n_face g <> n_node g -> n_face g <> n_edge g -> 1 < n_face g ->
  separated (dist "haversine") (face_centres g "spherical") ->
  separated (dist "minkowski") (face_centres g "cartesian") ->
  outcome (_nearest_neighbor tree_query g g source_data
                             "face centers" "spherical") = Ok source_data
  /\ outcome (_nearest_neighbor tree_query g g source_data
                                "face centers" "cartesian") = Ok source_data.
Proof.
  intros Hspec Hg Hwf Hlast Hnode Hedge Hmany Hsph Hcart.
  assert (Hk : source_data_mapping g (n_face g) = Ok "face centers").
  { unfold source_data_mapping.
    apply Nat.eqb_neq in Hnode, Hedge. by rewrite Hnode, Hedge, Nat.eqb_refl. }
  assert (Hr : recognized_remap_to "face centers") by (right; by right).
  assert (Hone : forall c,
    recognized_coord_type c ->
    separated (dist (metric_of c)) (face_centres g c) ->
    outcome (_nearest_neighbor tree_query g g source_data "face centers" c)
      = Ok source_data).
  { intros c Hc Hsep.
    rewrite (nearest_neighbor_valid _ _ _ _ _ _ _ Hlast Hk Hr Hc).
    rewrite (tree_coordinates_destination g _ c Hr Hc).
    unfold face_centres in Hsep.
    destruct (destination_points_Ok g "face centers" c Hg)
      as (centres & Hcentres & Hlen).
    rewrite Hcentres in *. simpl. change (element_count g "face centers")
      with (n_face g) in Hlen.
    set (tree := {| tree_points := centres |}).
    assert (Hne : tree_points tree <> []).
    { simpl. intros ->. simpl in Hlen. lia. }
    apply gathered_identity with (n_face g); [done | done | lia | |].
    - destruct (Hspec tree centres Hne) as (Hs & _). rewrite Hlen in Hs.
      destruct Hs as [Hs | [Hs | [Hs _]]]; [by left | by right | lia].
    - rewrite <- Hlen. by apply (nearest_to_itself dist tree). }
  split; apply Hone; try done; [by left | by right].
Qed.

(** C1.  The remapper raises the invalid-shape error exactly when the
    trailing dimension of [source_data] equals none of the three counts of
    the source mesh.  When it equals exactly one of them, that count names
    the element kind the data is anchored to: no shape error is raised and
    any spatial index that gets built is built over that kind. *)
Theorem nearest_neighbor_invalid_shape_iff
    src dst (source_data : ndarray V) remap_to coord_type :
  let ran :=
    _nearest_neighbor tree_query src dst source_data remap_to coord_type in
  (outcome ran = Raise (ValueError InvalidSourceShape)
   <-> exists n, last (shape source_data) = Some n
         /\ n <> n_node src /\ n <> n_edge src /\ n <> n_face src)
  /\ forall n kind,
       last (shape source_data) = Some n ->
       (kind = "nodes" /\ n = n_node src /\ n <> n_edge src /\ n <> n_face src)
       \/ (kind = "edge centers"
            /\ n <> n_node src /\ n = n_edge src /\ n <> n_face src)
       \/ (kind = "face centers"
            /\ n <> n_node src /\ n <> n_edge src /\ n = n_face src) ->
       source_data_mapping src n = Ok kind
       /\ outcome ran <> Raise (ValueError InvalidSourceShape)
       /\ forall coordinates system metric,
            GetBallTree coordinates system metric ∈ calls ran ->
            coordinates = kind.
Proof.
  intros ran.
  assert (Hvalid : forall n kind,
    last (shape source_data) = Some n ->
    source_data_mapping src n = Ok kind ->
    outcome ran <> Raise (ValueError InvalidSourceShape)
    /\ forall coordinates system metric,
         GetBallTree coordinates system metric ∈ calls ran ->
         coordinates = kind).
  { intros n kind Hlast Hk. subst ran.
    destruct (recognized_coord_type_dec coord_type) as [Hc|Hc].
    2:{ rewrite (nearest_neighbor_bad_coord_type _ _ _ _ _ _ _ Hlast Hk Hc).
        simpl. split; [discriminate | by intros ??? ?%elem_of_nil]. }
    destruct (recognized_remap_to_dec remap_to) as [Hr|Hr].
    2:{ rewrite (nearest_neighbor_bad_remap_to _ _ _ _ _ _ _ Hlast Hk Hc Hr).
        simpl. split; [discriminate | by intros ??? ?%elem_of_nil]. }
    rewrite (nearest_neighbor_valid _ _ _ _ _ _ _ Hlast Hk Hr Hc).
    destruct (tree_coordinates src kind coord_type) eqn:Ht;
      [destruct (vstack_T _) eqn:Hv|]; simpl; split.
    - unfold gathered, mbind, result_bind.
      destruct (np_take_last _ _) eqn:Hg; [discriminate|].
      exn_cases. discriminate.
    - intros ??? [[= -> _ _] | [? | ?%elem_of_nil]%elem_of_cons]%elem_of_cons;
        done.
    - exn_cases; discriminate.
    - by intros ??? [[= -> _ _] | ?%elem_of_nil]%elem_of_cons.
    - exn_cases; discriminate.
    - by intros ??? [[= -> _ _] | ?%elem_of_nil]%elem_of_cons. }
  split.
  - destruct (last (shape source_data)) as [n|] eqn:Hlast.
    2:{ subst ran. rewrite nearest_neighbor_scalar by done. simpl.
        split; [discriminate | intros (n & ? & _); discriminate]. }
    destruct (source_data_mapping_cases src n) as [Hr | (kind & Hk & _)].
    + subst ran. rewrite (nearest_neighbor_bad_shape _ _ _ _ _ _ _ Hlast Hr).
      simpl. split; [|done]. intros _. exists n. split; [done|].
      by apply source_data_mapping_raises.
    + split; [intros H; by destruct (Hvalid n kind eq_refl Hk) as [Hne _]|].
      intros (n' & [= <-] & Hne). apply source_data_mapping_raises in Hne.
      congruence.
  - intros n kind Hlast Hkind.
    assert (Hk : source_data_mapping src n = Ok kind).
    { unfold source_data_mapping.
      destruct Hkind as [(-> & Hn & He & Hf) | [(-> & Hn & He & Hf)
                        | (-> & Hn & He & Hf)]].
      - apply Nat.eqb_eq in Hn. by rewrite Hn.
      - apply Nat.eqb_neq in Hn. apply Nat.eqb_eq in He. by rewrite Hn, He.
      - apply Nat.eqb_neq in Hn, He. apply Nat.eqb_eq in Hf.
        by rewrite Hn, He, Hf. }
    split; [done|]. by apply (Hvalid n kind).
Qed.

(** C8, as amended.  When the trailing dimension of [source_data] matches a
    count of the source mesh, an unrecognized [remap_to] or [coord_type]
    raises an invalid-argument error.  Whatever the shape of the data, a
    call with an unrecognized [remap_to] or [coord_type] ends in an error
    without any call to build or query the spatial index. *)
Theorem nearest_neighbor_invalid_argument
    src dst (source_data : ndarray V) remap_to coord_type :
  ~ recognized_remap_to remap_to \/ ~ recognized_coord_type coord_type ->
  let ran :=
    _nearest_neighbor tree_query src dst source_data remap_to coord_type in
  calls ran = []
  /\ (exists e, outcome ran = Raise e)
  /\ forall n, last (shape source_data) = Some n -> matches_a_count src n ->
       invalid_argument (outcome ran).
Proof.
  intros Hbad ran. subst ran.
  destruct (last (shape source_data)) as [n|] eqn:Hlast.
  2:{ rewrite nearest_neighbor_scalar by done. simpl.
      split; [done|]. split; [eauto|]. intros n' [=]. }
  destruct (source_data_mapping_cases src n) as [Hr | (kind & Hk & _)].
  { rewrite (nearest_neighbor_bad_shape _ _ _ _ _ _ _ Hlast Hr). simpl.
    split; [done|]. split; [eauto|]. intros n' [= <-] Hm.
    apply source_data_mapping_raises in Hr. unfold matches_a_count in Hm.
    tauto. }
  unfold invalid_argument.
  destruct (recognized_coord_type_dec coord_type) as [Hc|Hc].
  - destruct Hbad as [Hr|]; [|done].
    rewrite (nearest_neighbor_bad_remap_to _ _ _ _ _ _ _ Hlast Hk Hc Hr).
    simpl. eauto.
  - rewrite (nearest_neighbor_bad_coord_type _ _ _ _ _ _ _ Hlast Hk Hc).
    simpl. eauto.
Qed.

End Remapper.

(** *** The remapper on the example meshes *)

Ltac separated_by_cases :=
  let i := fresh "i" in let j := fresh "j" in
  let Hi := fresh "Hi" in let Hj := fresh "Hj" in
  intros i j ? ? Hi Hj ?;
  repeat (destruct i as [|i]; [|try discriminate Hi]);
  try discriminate Hi;
  repeat (destruct j as [|j]; [|try discriminate Hj]);
  try discriminate Hj;
  try congruence;
  vm_compute in Hi, Hj; injection Hi as <-; injection Hj as <-;
  reflexivity.

Lemma patch_grid_well_formed : well_formed_grid patch_grid.
Proof. by constructor. Qed.

Lemma triangle_grid_well_formed : well_formed_grid triangle_grid.
Proof. by constructor. Qed.

Lemma tetrahedron_grid_well_formed : well_formed_grid tetrahedron_grid.
Proof. by constructor. Qed.

Lemma patch_face_centres_separated c :
  recognized_coord_type c -> separated sq_dist (face_centres patch_grid c).
Proof. intros [-> | ->]; separated_by_cases. Qed.

Lemma tetrahedron_face_centres_separated c :
  recognized_coord_type c ->
  separated sq_dist (face_centres tetrahedron_grid c).
Proof. intros [-> | ->]; separated_by_cases. Qed.

Example remap_faces_to_nodes :
  _nearest_neighbor brute_force_query patch_grid patch_grid
                    patch_face_field "nodes" "spherical"
  = Run [GetBallTree "face centers" "spherical" "haversine"; TreeQuery 4 1]
        (Ok (NdArray [4] [5; 5; 5; 7]%Q)).
Proof. vm_compute. reflexivity. Qed.

Example remap_levels_to_edges :
  outcome (_nearest_neighbor brute_force_query patch_grid patch_grid
                             patch_level_field "edge centers" "cartesian")
  = Ok (NdArray [3; 5] [5; 5; 7; 7; 7;
                        50; 50; 70; 70; 70;
                        500; 500; 700; 700; 700]%Q).
Proof. vm_compute. reflexivity. Qed.

Example remap_scalar :
  _nearest_neighbor brute_force_query patch_grid patch_grid
                    (NdArray [] [5%Q]) "nodes" "spherical"
  = Run [] (Raise IndexError).
Proof. reflexivity. Qed.

Example remap_misshapen :
  _nearest_neighbor brute_force_query patch_grid patch_grid
                    misshapen_field "nodes" "spherical"
  = Run [] (Raise (ValueError InvalidSourceShape)).
Proof. reflexivity. Qed.

Example remap_to_single_face :
  _nearest_neighbor brute_force_query patch_grid triangle_grid
                    patch_face_field "face centers" "spherical"
  = Run [GetBallTree "face centers" "spherical" "haversine"; TreeQuery 1 1]
        (Ok (NdArray [] [5%Q])).
Proof. vm_compute. reflexivity. Qed.

Example remap_levels_to_single_face :
  outcome (_nearest_neighbor brute_force_query patch_grid triangle_grid
                             patch_level_field "face centers" "spherical")
  = Ok (NdArray [3] [5; 50; 500]%Q).
Proof. vm_compute. reflexivity. Qed.

Lemma nearest_neighbor_single_destination_shape_witness :
  exists destination_data,
    outcome (_nearest_neighbor brute_force_query patch_grid triangle_grid
                               patch_face_field "face centers" "spherical")
      = Ok destination_data
    /\ shape destination_data = []
    /\ shape destination_data
         <> removelast (shape patch_face_field)
              ++ [element_count triangle_grid "face centers"].
Proof.
  apply (nearest_neighbor_single_destination_shape brute_force_query
           (fun _ => sq_dist) patch_grid triangle_grid patch_face_field
           "face centers" "spherical" 2).
  - exact brute_force_nearest.
  - exact patch_grid_well_formed.
  - exact triangle_grid_well_formed.
  - reflexivity.
  - reflexivity.
  - lia.
  - right. right. reflexivity.
  - right. right. reflexivity.
  - left. reflexivity.
  - reflexivity.
Defined.

Lemma nearest_neighbor_invalid_argument_witness :
  (~ recognized_remap_to "vertices" \/ ~ recognized_coord_type "spherical")
  /\ let ran :=
       _nearest_neighbor brute_force_query patch_grid patch_grid
                         patch_node_field "vertices" "spherical" in
     calls ran = []
     /\ (exists e, outcome ran = Raise e)
     /\ forall n, last (shape patch_node_field) = Some n ->
          matches_a_count patch_grid n -> invalid_argument (outcome ran).
Proof.
  assert (H : ~ recognized_remap_to "vertices"
              \/ ~ recognized_coord_type "spherical").
  { left. intros [H | [H | H]]; discriminate H. }
  split; [exact H|].
  exact (nearest_neighbor_invalid_argument brute_force_query patch_grid
           patch_grid patch_node_field "vertices" "spherical" H).
Defined.

(** C8 as stated fails where the data is misshapen too: the shape of the
    data is checked before the arguments, so the unrecognized [remap_to]
    is answered with the invalid-shape error. *)
Lemma nearest_neighbor_shape_error_first :
  ~ recognized_remap_to "vertices"
  /\ _nearest_neighbor brute_force_query patch_grid patch_grid
                       misshapen_field "vertices" "spherical"
     = Run [] (Raise (ValueError InvalidSourceShape))
  /\ ~ invalid_argument
         (outcome (_nearest_neighbor brute_force_query patch_grid patch_grid
                     misshapen_field "vertices" "spherical")).
Proof.
  split; [intros [H | [H | H]]; discriminate H|].
  split; [reflexivity|]. intros [H | H]; discriminate H.
Qed.

Lemma remap_to_self_identity_witness :
  outcome (_nearest_neighbor brute_force_query patch_grid patch_grid
             patch_face_field "face centers" "spherical")
    = Ok patch_face_field
  /\ outcome (_nearest_neighbor brute_force_query patch_grid patch_grid
                patch_face_field "face centers" "cartesian")
       = Ok patch_face_field.
Proof.
  apply (remap_to_self_identity brute_force_query (fun _ => sq_dist)
           patch_grid patch_face_field).
  - exact brute_force_nearest.
  - exact patch_grid_well_formed.
  - reflexivity.
  - reflexivity.
  - simpl. lia.
  - simpl. lia.
  - simpl. lia.
  - apply patch_face_centres_separated. left. reflexivity.
  - apply patch_face_centres_separated. right. reflexivity.
Defined.

(** C9 as stated fails on a mesh with as many nodes as faces.  The data of
    the tetrahedron is taken to live on the nodes, the index is built over
    the nodes, and every face receives the value of a corner node; the
    face centres are pairwise apart all the same. *)
Lemma tetrahedron_remap_to_self_differs :
  well_formed_grid tetrahedron_grid
  /\ well_formed tetrahedron_face_field
  /\ last (shape tetrahedron_face_field) = Some (n_face tetrahedron_grid)
  /\ separated sq_dist (face_centres tetrahedron_grid "cartesian")
  /\ _nearest_neighbor brute_force_query tetrahedron_grid tetrahedron_grid
                       tetrahedron_face_field "face centers" "cartesian"
     = Run [GetBallTree "nodes" "cartesian" "minkowski"; TreeQuery 4 1]
           (Ok (NdArray [4] [20; 10; 10; 10]%Q))
  /\ outcome (_nearest_neighbor brute_force_query tetrahedron_grid
                tetrahedron_grid tetrahedron_face_field
                "face centers" "cartesian")
     <> Ok tetrahedron_face_field.
Proof.
  split; [exact tetrahedron_grid_well_formed|].
  split; [reflexivity|]. split; [reflexivity|].
  split; [apply tetrahedron_face_centres_separated; by right|].
  split; [vm_compute; reflexivity|]. vm_compute. intros H. discriminate H.
Qed.

End RemapFacts.

(** ** Antimeridian detection *)

Module GeometryFacts.
Import Geometry.



(** The flagged faces, as the builder returns them: a one-dimensional array
    listing, in increasing order, the faces whose shell crosses. *)
Lemma antimeridian_face_indices_data grid :
  let found := _build_antimeridian_face_indices grid in
  shape found = [length (data found)]
  /\ data found
     = filter (fun i => (crosses_antimeridian <$> polygon_shells grid) !! i
                        = Some true)
              (seq 0 (length (polygon_shells grid))).
Proof.
  unfold _build_antimeridian_face_indices, np_argwhere. simpl.
  rewrite length_fmap.
  set (hits := filter _ (seq 0 (length (polygon_shells grid)))).
  destruct (Nat.eqb_spec (length hits) 1) as [H1|Hn].
  - unfold np_first. simpl. destruct hits as [|h [|]]; done.
  - unfold squeeze. simpl. rewrite !filter_cons, filter_nil.
    destruct (decide (length hits <> 1)); [|done].
    by destruct (decide (1 <> 1)).
Qed.




(** ** The polygon shell builder *)

Section ShellFacts.

Variable INT_FILL_VALUE : Z.
Variable uninitialised : Q.

Lemma real_nodes_prefix reals pad :
  Forall (fun v => v <> INT_FILL_VALUE) reals ->
  real_nodes INT_FILL_VALUE (reals ++ replicate pad INT_FILL_VALUE) = reals.
Proof.
  induction 1 as [|v reals Hv _ IH]; simpl.
  - destruct pad; simpl; [done|]. by rewrite Z.eqb_refl.
  - apply Z.eqb_neq in Hv. by rewrite Hv, IH.
Qed.

(** The closed row of a well-formed face: its nodes, its first node again,
    and the sentinels. *)
Lemma close_row_well_formed n_nodes n_max row k :
  well_formed_face INT_FILL_VALUE n_nodes n_max row k ->
  exists first rest,
    close_row INT_FILL_VALUE n_max row
      = (first :: rest) ++ [first] ++ replicate (n_max - k) INT_FILL_VALUE
    /\ length (first :: rest) = k
    /\ Forall (fun v => (0 <= v < Z.of_nat n_nodes)%Z) (first :: rest).
Proof.
  intros (Hk & reals & -> & <- & Hvalid). unfold close_row.
  rewrite real_nodes_prefix by (eapply Forall_impl; [exact Hvalid|]; tauto).
  cbv zeta. rewrite take_app_length.
  destruct reals as [|first rest]; [simpl in Hk; lia|].
  exists first, rest. split; [done|]. split; [done|].
  eapply Forall_impl; [exact Hvalid|]. tauto.
Qed.

Lemma np_index_in_range {A} (a : list A) v :
  (0 <= v < Z.of_nat (length a))%Z -> exists x, np_index a v = Ok x.
Proof.
  intros Hv. unfold np_index.
  destruct (Z.leb_spec 0 v); [|lia].
  destruct (lookup_lt_is_Some_2 a (Z.to_nat v)) as [x Hx]; [lia|].
  rewrite Hx. by eexists.
Qed.

Lemma np_max_nonempty a : 0 < length a -> exists m, np_max a = Ok m.
Proof. destruct a; simpl; [lia | by eexists]. Qed.

Lemma coordinates_of_nodes {A} (a : list A) nodes :
  Forall (fun v => (0 <= v < Z.of_nat (length a))%Z) nodes ->
  exists xs, rmapM (np_index a) nodes = Ok xs /\ length xs = length nodes.
Proof.
  intros Hvalid. destruct (rmapM_total (np_index a) nodes) as [xs Hxs].
  { eapply Forall_impl; [exact Hvalid|]. apply np_index_in_range. }
  exists xs. split; [done|]. apply rmapM_Ok in Hxs.
  symmetry. by eapply Forall2_length.
Qed.

Lemma rmapM_snoc_first {A B} (f : A -> result B) first rest ys :
  rmapM f (first :: rest) = Ok ys ->
  exists y0 ys', ys = y0 :: ys'
    /\ rmapM f ((first :: rest) ++ [first]) = Ok (ys ++ [y0]).
Proof.
  intros Hys. apply rmapM_Ok in Hys.
  inversion Hys as [|? y0 ? ys' Hy0 Hrest]; subst.
  exists y0, ys'. split; [done|]. apply rmapM_Ok.
  apply Forall2_app; [done|]. by repeat constructor.
Qed.

(** One coordinate array of a shell: the coordinates of the face's nodes,
    that of the first node again, and copies of it in the padding. *)
Lemma polygon_coordinate (xs : list Q) x0 xs' pad :
  xs = x0 :: xs' ->
  let filled :=
    set_prefix (length xs + 1) (xs ++ [x0])
               (replicate (length xs + 1 + pad) uninitialised) in
  filled !! 0 = Some x0
  /\ fill_from (length xs + 1) x0 filled = xs ++ [x0] ++ replicate pad x0.
Proof.
  intros ->. unfold set_prefix, fill_from. simpl.
  split; [done|]. f_equal.
  rewrite drop_replicate, length_app, length_app, length_replicate. simpl.
  replace (length xs' + 1 + pad - (length xs' + 1)) with pad by lia.
  rewrite take_app_length' by (rewrite length_app; simpl; lia).
  rewrite <- app_assoc. simpl. do 3 f_equal. lia.
Qed.

Lemma np_index_lookup {A} (a : list A) v x :
  (0 <= v)%Z -> np_index a v = Ok x -> a !! Z.to_nat v = Some x.
Proof.
  intros Hv. unfold np_index. destruct (Z.leb_spec 0 v); [|lia].
  by destruct (a !! Z.to_nat v); intros [= ->].
Qed.

Lemma coordinates_lookup {A} (a : list A) nodes :
  Forall (fun v => (0 <= v < Z.of_nat (length a))%Z) nodes ->
  exists xs,
    rmapM (np_index a) nodes = Ok xs
    /\ Forall2 (fun v x => a !! Z.to_nat v = Some x) nodes xs.
Proof.
  intros Hvalid.
  destruct (coordinates_of_nodes a nodes Hvalid)
    as (xs & Hxs & _).
  exists xs. split; [done|]. apply rmapM_Ok in Hxs.
  revert Hvalid. induction Hxs as [|v x nodes xs Hx _ IH];
    intros Hvalid; [constructor|].
  apply Forall_cons in Hvalid as [Hv Hvalid].
  constructor; [|by apply IH]. apply np_index_lookup; [lia | done].
Qed.

(** A padded, closed coordinate ring read by position: the first [k]
    positions hold the ring, every later one its first entry. *)
Lemma ring_lookup {A} (xs : list A) x0 pad j :
  head xs = Some x0 -> j <= length xs + pad ->
  (xs ++ [x0] ++ replicate pad x0) !! j
  = xs !! (if j <? length xs then j else 0).
Proof.
  intros Hhead Hj. destruct (Nat.ltb_spec j (length xs)).
  - by rewrite lookup_app_l.
  - rewrite lookup_app_r by done.
    change ([x0] ++ replicate pad x0) with (replicate (S pad) x0).
    rewrite (lookup_replicate_2 (S pad) x0) by lia.
    by destruct xs; simplify_eq/=.
Qed.

(** The shell of one face, vertex by vertex: position [j] holds the
    coordinates of node [j] of the face, and from the closing position on
    those of its first node. *)
Lemma polygon_shell_vertices node_x node_y first rest pad :
  length node_y = length node_x ->
  Forall (fun v => (0 <= v < Z.of_nat (length node_x))%Z) (first :: rest) ->
  exists shell,
    polygon_shell uninitialised node_x node_y
      ((first :: rest) ++ [first] ++ replicate pad INT_FILL_VALUE)
      (length (first :: rest) + 1) = Ok shell
    /\ length shell = length (first :: rest) + 1 + pad
    /\ forall j, j <= length (first :: rest) + pad ->
         exists v x y,
           (first :: rest) !! (if j <? length (first :: rest) then j else 0)
             = Some v
           /\ node_x !! Z.to_nat v = Some x
           /\ node_y !! Z.to_nat v = Some y
           /\ shell !! j = Some (x, y).
Proof.
  intros Hxy Hvalid.
  destruct (coordinates_lookup node_x (first :: rest) Hvalid)
    as (xs & Hxs & Hx2).
  destruct (coordinates_lookup node_y (first :: rest)) as (ys & Hys & Hy2).
  { by rewrite Hxy. }
  pose proof (Forall2_length _ _ _ Hx2) as Hlx.
  pose proof (Forall2_length _ _ _ Hy2) as Hly.
  destruct (rmapM_snoc_first _ _ _ _ Hxs)
    as (x0 & xs' & Hx & Hxs1).
  destruct (rmapM_snoc_first _ _ _ _ Hys)
    as (y0 & ys' & Hy & Hys1).
  unfold polygon_shell.
  assert (Htake : take (length (first :: rest) + 1)
                    ((first :: rest) ++ [first] ++ replicate pad INT_FILL_VALUE)
                  = (first :: rest) ++ [first]).
  { rewrite app_assoc. apply take_app_length'.
    rewrite length_app. simpl. lia. }
  rewrite Htake, Hxs1, Hys1. unfold mbind, result_bind.
  assert (Hlen : length ((first :: rest) ++ [first]
                           ++ replicate pad INT_FILL_VALUE)
                 = length (first :: rest) + 1 + pad).
  { rewrite !length_app, length_replicate. simpl. lia. }
  rewrite Hlen, Hlx.
  destruct (polygon_coordinate xs x0 xs' pad Hx)
    as [Hx0 Hfx].
  rewrite Hx0. simpl of_option. cbv iota beta. rewrite Hfx.
  rewrite <- Hlx, Hly.
  destruct (polygon_coordinate ys y0 ys' pad Hy)
    as [Hy0 Hfy].
  rewrite Hy0. simpl of_option. cbv iota beta. rewrite Hfy.
  eexists. split; [done|]. split.
  { rewrite length_zip_with, !length_app, !length_replicate. simpl. lia. }
  intros j Hj.
  assert (Hhx : head xs = Some x0) by by subst xs.
  assert (Hhy : head ys = Some y0) by by subst ys.
  set (p := if j <? length ys then j else 0).
  assert (Hp : p < length (first :: rest)).
  { subst p. rewrite Hly. destruct (Nat.ltb_spec j (length ys)); [done|].
    rewrite <- Hly. simpl. lia. }
  destruct (lookup_lt_is_Some_2 _ _ Hp) as [v Hv].
  destruct (Forall2_lookup_l _ _ _ _ _ Hx2 Hv) as (x & Hxp & Hxv).
  destruct (Forall2_lookup_l _ _ _ _ _ Hy2 Hv) as (y & Hyp & Hyv).
  exists v, x, y. do 3 (split; [done|]).
  rewrite lookup_zip_with.
  rewrite (ring_lookup xs x0 pad j Hhx) by lia.
  rewrite (ring_lookup ys y0 pad j Hhy) by lia.
  replace (length xs) with (length ys) by lia.
  fold p. by rewrite Hxp, Hyp.
Qed.


(** The longitude [_build_polygon_shells] works with: the nodes' own when
    no node lies east of 180 degrees, otherwise the one wrapped into
    [[-180, 180)]. *)
Lemma normalised_longitude_lookup (Mesh2_node_x : list Q) x_max n x :
  Mesh2_node_x !! n = Some x ->
  (if negb (Qle_bool x_max 180)
   then (fun x => Qmod (x + 180) 360 - 180)%Q <$> Mesh2_node_x
   else Mesh2_node_x) !! n
  = Some (if Qle_bool x_max 180 then x else (Qmod (x + 180) 360 - 180)%Q).
Proof.
  intros Hx. destruct (Qle_bool x_max 180); simpl; [done|].
  by rewrite list_lookup_fmap, Hx.
Qed.

(** The shells of a well-formed mesh, vertex by vertex. *)
Lemma polygon_shells_by_vertex
    Mesh2_node_x Mesh2_node_y Mesh2_face_nodes
    nMesh2_face nMaxMesh2_face_nodes nNodes_per_face :
  well_formed_connectivity INT_FILL_VALUE Mesh2_node_x Mesh2_node_y
    Mesh2_face_nodes nMesh2_face nMaxMesh2_face_nodes nNodes_per_face ->
  exists polygon_shells x_max,
    _build_polygon_shells INT_FILL_VALUE uninitialised
      Mesh2_node_x Mesh2_node_y Mesh2_face_nodes
      nMesh2_face nMaxMesh2_face_nodes nNodes_per_face = Ok polygon_shells
    /\ np_max Mesh2_node_x = Ok x_max
    /\ length polygon_shells = nMesh2_face
    /\ forall i shell,
         polygon_shells !! i = Some shell ->
         exists row k,
           Mesh2_face_nodes !! i = Some row
           /\ nNodes_per_face !! i = Some k
           /\ length shell = nMaxMesh2_face_nodes + 1
           /\ forall j, j <= nMaxMesh2_face_nodes ->
                exists v x y,
                  row !! (if j <? k then j else 0) = Some v
                  /\ Mesh2_node_x !! Z.to_nat v = Some x
                  /\ Mesh2_node_y !! Z.to_nat v = Some y
                  /\ shell !! j
                     = Some (if Qle_bool x_max 180 then x
                             else (Qmod (x + 180) 360 - 180)%Q, y).
Proof.
  intros [Hsome Hxy Hrows Hcounts Hfaces]. unfold _build_polygon_shells.
  destruct (np_max_nonempty Mesh2_node_x Hsome) as [x_max Hmax].
  rewrite Hmax. unfold mbind, result_bind.
  set (node_x := if negb _ then _ else Mesh2_node_x).
  assert (Hnx : length node_x = length Mesh2_node_x).
  { subst node_x. case_match; [by rewrite length_fmap | done]. }
  set (closed := close_face_nodes INT_FILL_VALUE _ _ _).
  set (counts := (fun n => n + 1) <$> nNodes_per_face).
  assert (Hshell : forall i row m,
    zip closed counts !! i = Some (row, m) ->
    exists raw k shell,
      Mesh2_face_nodes !! i = Some raw
      /\ nNodes_per_face !! i = Some k
      /\ polygon_shell uninitialised node_x Mesh2_node_y row m = Ok shell
      /\ length shell = nMaxMesh2_face_nodes + 1
      /\ forall j, j <= nMaxMesh2_face_nodes ->
           exists v x y,
             raw !! (if j <? k then j else 0) = Some v
             /\ node_x !! Z.to_nat v = Some x
             /\ Mesh2_node_y !! Z.to_nat v = Some y
             /\ shell !! j = Some (x, y)).
  { intros i row m Hi.
    apply lookup_zip_with_Some in Hi as (row' & m' & [= <- <-] & Hrow & Hm).
    subst closed counts. unfold close_face_nodes in Hrow.
    rewrite list_lookup_fmap in Hrow. rewrite list_lookup_fmap in Hm.
    rewrite take_ge in Hrow by lia.
    destruct (Mesh2_face_nodes !! i) as [raw|] eqn:Hraw; [|done].
    destruct (nNodes_per_face !! i) as [k|] eqn:Hk; [|done].
    simpl in Hrow, Hm. injection Hrow as <-. injection Hm as <-.
    pose proof (Hfaces i raw k Hraw Hk) as Hface.
    destruct (close_row_well_formed _ _ _ _ Hface)
      as (first & rest & Hclosed & Hlen & Hvalid).
    rewrite Hclosed.
    destruct (polygon_shell_vertices node_x Mesh2_node_y first rest
                (nMaxMesh2_face_nodes - k)) as (shell & Hp & Hl & Hv).
    { by rewrite Hnx. }
    { by rewrite Hnx. }
    rewrite Hlen in Hp, Hl, Hv.
    exists raw, k, shell. do 2 (split; [done|]). split; [exact Hp|].
    destruct Hface as (Hkn & reals & Hraw_eq & Hreals & _).
    split; [lia|]. intros j Hj.
    destruct (Hv j) as (v & x & y & Hfirst & Hx & Hy & Hs); [lia|].
    exists v, x, y. split; [|done].
    (* the nodes of the closed row are those of the raw row *)
    assert (Hprefix : first :: rest = reals).
    { unfold close_row in Hclosed. rewrite Hraw_eq in Hclosed.
      assert (Hreal : real_nodes INT_FILL_VALUE
                (reals ++ replicate (nMaxMesh2_face_nodes - k) INT_FILL_VALUE)
              = reals).
      { apply real_nodes_prefix.
        destruct (Hfaces i raw k Hraw Hk) as (_ & reals' & Heq & Hl' & Hall).
        rewrite Hraw_eq in Heq. apply app_inj_1 in Heq as [<- _]; [|lia].
        eapply Forall_impl; [exact Hall|]. tauto. }
      rewrite Hreal in Hclosed. cbv zeta in Hclosed.
      rewrite take_app_length in Hclosed.
      apply app_inj_1 in Hclosed as [Heq _]; [done|].
      simpl in Hlen |- *. lia. }
    rewrite Hraw_eq, lookup_app_l.
    - by rewrite <- Hprefix.
    - rewrite Hreals. destruct (Nat.ltb_spec j k); lia. }
  destruct (rmapM_total
    (fun '(face_nodes, max_n_nodes) =>
       polygon_shell uninitialised node_x Mesh2_node_y face_nodes max_n_nodes)
    (zip closed counts)) as [shells Hshells].
  { apply Forall_lookup. intros i [row m] Hi.
    destruct (Hshell i row m Hi) as (raw & k & shell & _ & _ & -> & _).
    by eexists. }
  exists shells, x_max. split; [exact Hshells|]. split; [done|].
  apply rmapM_Ok in Hshells.
  split.
  { rewrite <- (Forall2_length _ _ _ Hshells).
    rewrite length_zip_with. subst closed counts.
    unfold close_face_nodes. rewrite !length_fmap, length_take. lia. }
  intros i shell Hi.
  destruct (Forall2_lookup_r _ _ _ _ _ Hshells Hi) as ([row m] & Hrm & Hrun).
  destruct (Hshell i row m Hrm)
    as (raw & k & shell' & Hraw & Hk & Hp & Hl & Hv).
  assert (shell' = shell) as -> by congruence.
  exists raw, k. do 3 (split; [done|]). intros j Hj.
  destruct (Hv j Hj) as (v & x' & y & Hrow & Hx & Hy & Hs).
  subst node_x.
  destruct (lookup_lt_is_Some_2 Mesh2_node_x (Z.to_nat v)) as [x Hx0].
  { rewrite <- Hnx. by eapply lookup_lt_Some. }
  rewrite (normalised_longitude_lookup _ _ _ _ Hx0) in Hx.
  injection Hx as <-. exists v, x, y. done.
Qed.

(** C4.  On a well-formed mesh the shell builder returns one shell per
    face.  Every shell has max-nodes-per-face + 1 vertices whatever the
    node count [k] of the face.  Its first vertex is the face's first node,
    at the node's latitude and at the longitude the builder works with (the
    node's own, or the wrapped one when some node lies east of 180
    degrees); its last vertex is that same vertex; and every position from
    the closing vertex on, so every padding position, holds that vertex.
    The positions below [k] hold the nodes of the face in order.  Since the
    vertices are the coordinates of nodes, no cell of the freshly allocated
    arrays is left in a shell. *)
Theorem polygon_shells_closed_and_padded
    Mesh2_node_x Mesh2_node_y Mesh2_face_nodes
    nMesh2_face nMaxMesh2_face_nodes nNodes_per_face :
  well_formed_connectivity INT_FILL_VALUE Mesh2_node_x Mesh2_node_y
    Mesh2_face_nodes nMesh2_face nMaxMesh2_face_nodes nNodes_per_face ->
  exists polygon_shells x_max,
    _build_polygon_shells INT_FILL_VALUE uninitialised
      Mesh2_node_x Mesh2_node_y Mesh2_face_nodes
      nMesh2_face nMaxMesh2_face_nodes nNodes_per_face = Ok polygon_shells
    /\ np_max Mesh2_node_x = Ok x_max
    /\ length polygon_shells = nMesh2_face
    /\ forall i shell k,
         polygon_shells !! i = Some shell ->
         nNodes_per_face !! i = Some k ->
         length shell = nMaxMesh2_face_nodes + 1
         /\ (exists vertex, head shell = Some vertex
                            /\ last shell = Some vertex)
         /\ (forall j, k <= j <= nMaxMesh2_face_nodes ->
               shell !! j = shell !! 0)
         /\ exists row,
              Mesh2_face_nodes !! i = Some row
              /\ (exists v x y,
                    row !! 0 = Some v
                    /\ Mesh2_node_x !! Z.to_nat v = Some x
                    /\ Mesh2_node_y !! Z.to_nat v = Some y
                    /\ let first :=
                         (if Qle_bool x_max 180 then x
                          else (Qmod (x + 180) 360 - 180)%Q, y) in
                       head shell = Some first
                       /\ last shell = Some first
                       /\ forall j, k <= j <= nMaxMesh2_face_nodes ->
                            shell !! j = Some first)
              /\ forall j, j < k ->
                   exists v x y,
                     row !! j = Some v
                     /\ Mesh2_node_x !! Z.to_nat v = Some x
                     /\ Mesh2_node_y !! Z.to_nat v = Some y
                     /\ shell !! j
                        = Some (if Qle_bool x_max 180 then x
                                else (Qmod (x + 180) 360 - 180)%Q, y).
Proof.
  intros Hwf.
  destruct (polygon_shells_by_vertex _ _ _ _ _ _ Hwf)
    as (shells & x_max & Hbuilt & Hmax & Hlen & Hshells).
  exists shells, x_max. do 3 (split; [done|]).
  intros i shell k Hi Hk.
  destruct (Hshells i shell Hi) as (row & k' & Hrow & Hk' & Hl & Hv).
  assert (k' = k) as -> by congruence.
  destruct Hwf as [_ _ _ _ Hfaces].
  destruct (Hfaces i row k Hrow Hk) as [Hkn _].
  (* the first vertex, read at position 0 *)
  destruct (Hv 0) as (v & x & y & Hv0 & Hx & Hy & Hs0); [lia|].
  replace (0 <? k) with true in Hv0 by (symmetry; apply Nat.ltb_lt; lia).
  (* every position from the closing one on reads the first node again *)
  assert (Hpad : forall j, k <= j <= nMaxMesh2_face_nodes ->
            shell !! j = shell !! 0).
  { intros j Hj.
    destruct (Hv j) as (v' & x' & y' & Hvj & Hx' & Hy' & Hsj); [lia|].
    replace (j <? k) with false in Hvj by (symmetry; apply Nat.ltb_ge; lia).
    assert (v' = v) as -> by congruence.
    assert (x' = x) as -> by congruence.
    assert (y' = y) as -> by congruence.
    by rewrite Hsj, Hs0. }
  assert (Hhead : head shell = shell !! 0) by by destruct shell.
  assert (Hlast : last shell = shell !! 0).
  { rewrite last_lookup, Hl.
    replace (Init.Nat.pred (nMaxMesh2_face_nodes + 1))
      with nMaxMesh2_face_nodes by lia.
    apply Hpad. lia. }
  split; [done|].
  split; [exists (if Qle_bool x_max 180 then x
                  else (Qmod (x + 180) 360 - 180)%Q, y);
          by rewrite Hhead, Hlast, Hs0|].
  split; [exact Hpad|].
  exists row. split; [done|]. split.
  - exists v, x, y. do 3 (split; [done|]). cbv zeta.
    split; [by rewrite Hhead|]. split; [by rewrite Hlast|].
    intros j Hj. by rewrite (Hpad j Hj).
  - intros j Hj. destruct (Hv j) as (v' & x' & y' & Hvj & Hrest); [lia|].
    replace (j <? k) with true in Hvj by (symmetry; apply Nat.ltb_lt; lia).
    eauto.
Qed.

End ShellFacts.


(** ** Corrected shells and the index map *)

Section AntimeridianFacts.

Variable antimeridian_fix : polygon -> option geometry.

Lemma append_parts i geoms (shells : list (list (Q * Q))) (map : list nat) :
  foldl (fun '(corrected_polygon_shells, original_to_corrected)
             individual_polygon =>
           (corrected_polygon_shells ++ [exterior individual_polygon],
            original_to_corrected ++ [i]))
        (shells, map) geoms
  = (shells ++ (exterior <$> geoms), map ++ replicate (length geoms) i).
Proof.
  revert shells map. induction geoms as [|p geoms IH]; intros shells map.
  - simpl. by rewrite !app_nil_r.
  - simpl. rewrite IH. by rewrite <- !app_assoc.
Qed.

Lemma corrected_step_parts shells map i g :
  corrected_step (shells, map) (i, g)
  = (shells ++ (exterior <$> parts g),
     map ++ replicate (length (parts g)) i).
Proof.
  unfold corrected_step. destruct g as [p | geoms]; simpl; [done|].
  apply append_parts.
Qed.

(** The loop of [_build_corrected_polygon_shells], in closed form. *)
Lemma corrected_loop entries shells map :
  foldl corrected_step (shells, map) entries
  = (shells ++ (entries ≫= (fun e => exterior <$> parts (snd e))),
     map ++ (entries ≫= (fun e => replicate (length (parts (snd e))) (fst e)))).
Proof.
  revert shells map.
  induction entries as [|[i g] entries IH]; intros shells map.
  - simpl. by rewrite !app_nil_r.
  - change (foldl corrected_step (shells, map) ((i, g) :: entries))
      with (foldl corrected_step (corrected_step (shells, map) (i, g))
                  entries).
    rewrite corrected_step_parts, IH.
    rewrite !bind_cons. simpl. by rewrite <- !app_assoc.
Qed.

Lemma index_runs_length (entries : list (nat * geometry)) :
  length (entries ≫= (fun e => replicate (length (parts (snd e))) (fst e)))
  = length (entries ≫= (fun e => exterior <$> parts (snd e))).
Proof.
  induction entries as [|e entries IH]; [done|].
  rewrite !bind_cons, !length_app, IH.
  by rewrite length_replicate, length_fmap.
Qed.

Lemma index_runs_total (entries : list (nat * geometry)) :
  length (entries ≫= (fun e => replicate (length (parts (snd e))) (fst e)))
  = sum_list ((fun e => length (parts (snd e))) <$> entries).
Proof.
  induction entries as [|e entries IH]; [done|].
  rewrite bind_cons, length_app, IH. simpl. by rewrite length_replicate.
Qed.

Lemma index_runs_elem (entries : list (nat * geometry)) i :
  i ∈ (entries ≫= (fun e => replicate (length (parts (snd e))) (fst e))) ->
  exists g, (i, g) ∈ entries.
Proof.
  intros ([j g] & Hin & He)%list_elem_of_bind. simpl in Hin.
  apply elem_of_replicate in Hin as [-> _]. eauto.
Qed.

Lemma enumerate_elem {A} (l : list A) i x :
  (i, x) ∈ imap pair l <-> l !! i = Some x.
Proof.
  rewrite list_elem_of_lookup. setoid_rewrite list_lookup_imap. split.
  - intros (j & Hj). destruct (l !! j) eqn:E; [|done]. simpl in Hj.
    by injection Hj as <- <-.
  - intros Hi. exists i. by rewrite Hi.
Qed.

(** C5.  When the repair succeeds on every face and returns at least one
    part for each, the index map has one entry per corrected shell, whose
    number is the total number of parts; every face index occurs in it; and
    the entries of face [i] are one entry if its correction is a single
    polygon, one per part if it is a multi-polygon, consecutive and all
    equal to [i], with no further entry for [i] before or after them. *)
Theorem original_to_corrected_index_map (polygon_shells : list (list (Q * Q))) :
  (forall shell, shell ∈ polygon_shells ->
     exists g, antimeridian_fix (Polygon shell) = Some g /\ parts g <> []) ->
  exists corrected_polygon_shells original_to_corrected corrected_polygons,
    _build_corrected_polygon_shells antimeridian_fix polygon_shells
      = Ok (corrected_polygon_shells, original_to_corrected)
    /\ Forall2 (fun shell g => antimeridian_fix (Polygon shell) = Some g)
               polygon_shells corrected_polygons
    /\ length original_to_corrected = length corrected_polygon_shells
    /\ length corrected_polygon_shells
       = sum_list ((fun g => length (parts g)) <$> corrected_polygons)
    /\ (forall i, i < length polygon_shells -> i ∈ original_to_corrected)
    /\ forall i g,
         corrected_polygons !! i = Some g ->
         exists before after,
           original_to_corrected
             = before ++ replicate (length (parts g)) i ++ after
           /\ (i ∉ before) /\ (i ∉ after)
           /\ (forall p, g = GPolygon p -> length (parts g) = 1)
           /\ (forall geoms, g = GMultiPolygon geoms ->
                 length (parts g) = length geoms).
Proof.
  intros Hfix. unfold _build_corrected_polygon_shells.
  destruct (rmapM_total (fix_polygon antimeridian_fix) (Polygon <$> polygon_shells))
    as [corrected Hcorrected].
  { apply Forall_fmap, Forall_forall. intros shell Hshell. simpl.
    unfold fix_polygon. destruct (Hfix shell Hshell) as (g & -> & _). by eexists. }
  rewrite Hcorrected. unfold mbind at 1, result_bind.
  rewrite corrected_loop. simpl.
  set (entries := imap pair corrected).
  apply rmapM_Ok, Forall2_fmap_l in Hcorrected.
  assert (Hfixed : Forall2
            (fun shell g => antimeridian_fix (Polygon shell) = Some g)
            polygon_shells corrected).
  { eapply Forall2_impl; [exact Hcorrected|]. intros shell g. simpl.
    unfold fix_polygon. by destruct (antimeridian_fix (Polygon shell)); intros [= ->]. }
  clear Hcorrected. rename Hfixed into Hcorrected.
  do 3 eexists. split; [reflexivity|]. split; [exact Hcorrected|].
  split; [apply index_runs_length|].
  split.
  { rewrite <- index_runs_length, index_runs_total. f_equal.
    subst entries. apply list_eq. intros i.
    rewrite list_lookup_fmap, list_lookup_imap, list_lookup_fmap.
    by destruct (corrected !! i). }
  assert (Hsplit : forall i g,
    corrected !! i = Some g ->
    exists before after,
      (entries ≫= (fun e => replicate (length (parts (snd e))) (fst e)))
        = before ++ replicate (length (parts g)) i ++ after
      /\ (i ∉ before) /\ (i ∉ after)).
  { intros i g Hi.
    assert (He : entries !! i = Some (i, g)).
    { subst entries. by rewrite list_lookup_imap, Hi. }
    exists ((take i entries)
              ≫= (fun e => replicate (length (parts (snd e))) (fst e))),
           ((drop (S i) entries)
              ≫= (fun e => replicate (length (parts (snd e))) (fst e))).
    split.
    { rewrite <- (take_drop_middle entries i (i, g) He) at 1.
      by rewrite bind_app, bind_cons. }
    split.
    - intros [g' Hin]%index_runs_elem.
      apply list_elem_of_lookup in Hin as [j Hj].
      apply lookup_take_Some in Hj as [Hj Hlt].
      subst entries. rewrite list_lookup_imap in Hj.
      destruct (corrected !! j); [|done]. simpl in Hj.
      injection Hj as -> _. lia.
    - intros [g' Hin]%index_runs_elem.
      apply list_elem_of_lookup in Hin as [j Hj].
      rewrite lookup_drop in Hj.
      subst entries. rewrite list_lookup_imap in Hj.
      destruct (corrected !! (S i + j)); [|done]. simpl in Hj.
      injection Hj as Heq _. lia. }
  split.
  - intros i Hi.
    destruct (lookup_lt_is_Some_2 polygon_shells i Hi) as [shell Hshell].
    destruct (Forall2_lookup_l _ _ _ _ _ Hcorrected Hshell)
      as (g & Hg & Hfixed).
    destruct (Hsplit i g Hg) as (before & after & -> & _).
    destruct (Hfix shell) as (g' & Hg' & Hparts);
      [by eapply list_elem_of_lookup_2|].
    assert (g' = g) as -> by congruence.
    apply elem_of_app. right. apply elem_of_app. left.
    apply elem_of_replicate. split; [done|].
    by destruct (parts g).
  - intros i g Hi.
    destruct (Hsplit i g Hi) as (before & after & Heq & Hb & Ha).
    exists before, after. split; [exact Heq|]. split; [done|].
    split; [done|]. split; [by intros p ->|by intros geoms ->].
Qed.

(** ** Corrected polygons per face *)

Lemma pop_snoc {A} (l : list A) x : pop (l ++ [x]) = Ok (x, l).
Proof. unfold pop. by rewrite reverse_snoc, reverse_involutive. Qed.

(** The write-back loop: every listed position receives a corrected
    polygon listed at a matching place, every other position is kept. *)
Lemma write_back_spec indices (corrected polygons : list geometry) :
  length corrected = length indices ->
  Forall (fun i => i < length polygons) indices ->
  exists written,
    write_back (reverse indices) polygons corrected = Ok written
    /\ length written = length polygons
    /\ forall j,
         (j ∉ indices -> written !! j = polygons !! j)
         /\ (j ∈ indices ->
             exists k fixed, indices !! k = Some j
               /\ corrected !! k = Some fixed
               /\ written !! j = Some fixed).
Proof.
  revert corrected polygons.
  induction indices as [|i indices IH] using rev_ind;
    intros corrected polygons Hlen Hrange.
  - exists polygons. split; [done|]. split; [done|]. intros j.
    split; [done | by intros ?%elem_of_nil].
  - destruct corrected as [|c corrected _] using rev_ind.
    { rewrite length_app in Hlen. simpl in Hlen. lia. }
    rewrite !length_app in Hlen. simpl in Hlen.
    apply Forall_app in Hrange as [Hrange Hi].
    rewrite Forall_singleton in Hi.
    rewrite reverse_snoc. simpl. rewrite pop_snoc.
    unfold mbind, result_bind.
    destruct (Nat.ltb_spec i (length polygons)); [|lia].
    destruct (IH corrected (<[i:=c]> polygons)) as (written & Hw & Hl & Hj).
    { lia. }
    { by rewrite length_insert. }
    exists written. split; [exact Hw|].
    split; [by rewrite Hl, length_insert|].
    intros j. destruct (Hj j) as [Hout Hin].
    destruct (decide (j ∈ indices)) as [Hmem | Hmem].
    + split; [intros Hnot; exfalso; apply Hnot, elem_of_app; by left|].
      intros _. destruct (Hin Hmem) as (k & fixed & Hk & Hc & Hwj).
      exists k, fixed. split; [by apply lookup_app_l_Some|].
      split; [by apply lookup_app_l_Some | done].
    + rewrite (Hout Hmem). split.
      * intros Hnot. apply list_lookup_insert_ne. intros ->.
        apply Hnot, elem_of_app. right. by apply list_elem_of_singleton.
      * intros [? | ->%list_elem_of_singleton]%elem_of_app; [done|].
        exists (length indices), c.
        split; [by rewrite lookup_app_r, Nat.sub_diag|].
        split; [rewrite lookup_app_r by lia; replace (length indices - length corrected) with 0 by lia; done|].
        by apply list_lookup_insert_eq.
Qed.

(** C10.  [grid_to_polygons] returns one geometry per face, in face order:
    the polygon of the face's own shell for a face that is not listed in
    the antimeridian indices of the mesh, and the corrected geometry of
    that same face for a face that is. *)
Theorem grid_to_polygons_per_face grid :
  let flagged := default [] (antimeridian_face_indices grid) in
  Forall (fun i => i < length (polygon_shells grid)) flagged ->
  (forall i shell, i ∈ flagged -> polygon_shells grid !! i = Some shell ->
     exists g, antimeridian_fix (Polygon shell) = Some g) ->
  exists polygons,
    grid_to_polygons antimeridian_fix grid = Ok polygons
    /\ length polygons = length (polygon_shells grid)
    /\ forall i shell,
         polygon_shells grid !! i = Some shell ->
         (i ∉ flagged -> polygons !! i = Some (GPolygon (Polygon shell)))
         /\ (i ∈ flagged ->
             exists g, antimeridian_fix (Polygon shell) = Some g
                       /\ polygons !! i = Some g).
Proof.
  intros flagged Hrange Hfix. unfold grid_to_polygons.
  destruct (antimeridian_face_indices grid) as [indices|] eqn:Hidx;
    subst flagged; simpl in *.
  2:{ eexists. split; [done|]. split; [by rewrite !length_fmap|].
      intros i shell Hs. split; [|by intros ?%elem_of_nil].
      intros _. by rewrite !list_lookup_fmap, Hs. }
  set (polygons := Polygon <$> polygon_shells grid).
  destruct (rmapM_total (fun i => of_option IndexError (polygons !! i))
              indices) as [taken Htaken].
  { eapply Forall_impl; [exact Hrange|]. intros i Hi. simpl in Hi.
    destruct (lookup_lt_is_Some_2 polygons i) as [p Hp].
    { subst polygons. by rewrite length_fmap. }
    rewrite Hp. by eexists. }
  rewrite Htaken. unfold mbind at 1, result_bind at 1.
  apply rmapM_Ok in Htaken.
  destruct (rmapM_total (fix_polygon antimeridian_fix) taken) as [corrected Hcorrected].
  { apply Forall_lookup. intros k p Hk.
    destruct (Forall2_lookup_r _ _ _ _ _ Htaken Hk) as (i & Hi & Hp).
    subst polygons. rewrite list_lookup_fmap in Hp.
    destruct (polygon_shells grid !! i) as [shell|] eqn:Hs; [|done].
    simpl in Hp. injection Hp as <-. unfold fix_polygon.
    destruct (Hfix i shell) as [g ->];
      [by eapply list_elem_of_lookup_2 | done | by eexists]. }
  rewrite Hcorrected. unfold mbind at 1, result_bind at 1.
  apply rmapM_Ok in Hcorrected.
  destruct (write_back_spec indices corrected (GPolygon <$> polygons))
    as (written & Hw & Hl & Hj).
  { rewrite <- (Forall2_length _ _ _ Hcorrected).
    symmetry. exact (Forall2_length _ _ _ Htaken). }
  { subst polygons. by rewrite !length_fmap. }
  exists written. split; [exact Hw|].
  split; [subst polygons; by rewrite Hl, !length_fmap|].
  intros i shell Hs. destruct (Hj i) as [Hout Hin]. split.
  - intros Hnot. rewrite (Hout Hnot). subst polygons.
    by rewrite !list_lookup_fmap, Hs.
  - intros Hmem. destruct (Hin Hmem) as (k & fixed & Hk & Hc & Hwi).
    exists fixed. split; [|done].
    destruct (Forall2_lookup_r _ _ _ _ _ Hcorrected Hc) as (p & Hp & Hfx).
    destruct (Forall2_lookup_r _ _ _ _ _ Htaken Hp) as (i' & Hi' & Hpi).
    assert (i' = i) as -> by congruence.
    subst polygons. rewrite list_lookup_fmap, Hs in Hpi. simpl in Hpi.
    injection Hpi as <-. unfold fix_polygon in Hfx.
    destruct (antimeridian_fix (Polygon shell)); simpl in Hfx;
      [by injection Hfx as -> | done].
Qed.

End AntimeridianFacts.

End GeometryFacts.

(** ** The data array: export to a geometry table *)

Module DataArrayFacts.
Import DataArray.

Lemma antimeridian_face_indices_distinct grid :
  let flagged := data (Geometry._build_antimeridian_face_indices grid) in
  NoDup flagged
  /\ Forall (fun i => i < length (polygon_shells grid)) flagged.
Proof.
  intros flagged. subst flagged.
  destruct (GeometryFacts.antimeridian_face_indices_data grid) as [_ ->].
  split.
  - apply NoDup_filter, NoDup_seq.
  - apply Forall_forall. intros i [_ Hi%elem_of_seq]%list_elem_of_filter. lia.
Qed.

Section ToGeoDataFrameFacts.

Context {V : Type}.
Variable antimeridian_fix : polygon -> option geometry.

Lemma write_back_raises indices polygons corrected e :
  Geometry.write_back indices polygons corrected = Raise e -> e = IndexError.
Proof.
  revert polygons corrected.
  induction indices as [|i indices IH]; intros polygons corrected; simpl;
    [discriminate|].
  unfold Geometry.pop. destruct (reverse corrected) as [|c rest]; simpl;
    [by intros [= <-]|].
  case_match; [apply IH | by intros [= <-]].
Qed.

Lemma grid_to_polygons_raises grid e :
  Geometry.grid_to_polygons antimeridian_fix grid = Raise e ->
  e = IndexError \/ e = GeometryError.
Proof.
  unfold Geometry.grid_to_polygons.
  destruct (antimeridian_face_indices grid) as [indices|]; [|discriminate].
  unfold mbind, result_bind.
  destruct (rmapM _ indices) as [taken|e1] eqn:Htaken.
  2:{ intros [= <-]. left. revert Htaken.
      apply (rmapM_raises _ (fun e => e = IndexError)).
      intros i e'. apply of_option_raises. }
  destruct (rmapM _ taken) as [corrected|e2] eqn:Hcorrected.
  2:{ intros [= <-]. right. revert Hcorrected.
      apply (rmapM_raises _ (fun e => e = GeometryError)).
      intros p e'. apply of_option_raises. }
  intros ->%write_back_raises. by left.
Qed.

Lemma np_delete_raises {A} (arr : ndarray A) obj e :
  np_delete arr obj = Raise e -> e = AxisError \/ e = IndexError.
Proof.
  unfold np_delete. repeat case_match; try discriminate;
    intros [= <-]; tauto.
Qed.

Lemma set_column_raises (gdf : GeoDataFrame V) name column e :
  set_column gdf name column = Raise e -> e = ValueError LengthMismatch.
Proof. unfold set_column. case_match; [discriminate | by intros [= <-]]. Qed.

(** C6.  For a one-dimensional variable with one value per face,
    [to_geodataframe] with [exclude_antimeridian=True] returns a table
    whose data column holds the values at the faces that are not listed
    in the antimeridian indices, in face order: the values with the listed
    positions deleted.  The column has [n_face] minus the number of listed
    faces entries, as many as the table has rows. *)
Theorem to_geodataframe_exclude_antimeridian
    (self : @UxDataArray V) (override cache : bool) (flagged : list nat) :
  antimeridian_face_indices (uxgrid self) = Some flagged ->
  NoDup flagged ->
  Forall (fun i => i < n_face (uxgrid self)) flagged ->
  length (polygon_shells (uxgrid self)) = n_face (uxgrid self) ->
  shape (values self) = [n_face (uxgrid self)] ->
  well_formed (values self) ->
  exists gdf column,
    to_geodataframe antimeridian_fix self override cache true = Ok gdf
    /\ get_column gdf (default "var" (name self)) = Some column
    /\ column = without_positions flagged (data (values self))
    /\ length column = n_face (uxgrid self) - length flagged
    /\ length (gdf_geometry gdf) = length column.
Proof.
  intros Hidx Hnd Hrange Hshells Hshape Hwf.
  assert (Hdata : length (data (values self)) = n_face (uxgrid self)).
  { unfold well_formed, np_size in Hwf. rewrite Hwf, Hshape. simpl. lia. }
  pose proof (without_positions_length (data (values self)) flagged Hnd)
    as Hcol.
  rewrite Hdata in Hcol. specialize (Hcol Hrange).
  pose proof (without_positions_length (polygon_shells (uxgrid self))
                flagged Hnd) as Hrows.
  rewrite Hshells in Hrows. specialize (Hrows Hrange).
  unfold to_geodataframe, ndim, np_size. rewrite Hshape. simpl.
  rewrite Nat.mul_1_r, Nat.eqb_refl.
  unfold grid_to_geodataframe. rewrite Hidx. simpl.
  rewrite (np_delete_1d (values self) _ flagged Hshape Hwf Hrange).
  unfold mbind, result_bind, set_column. simpl.
  rewrite select_keep_mask, length_fmap.
  replace (length (without_positions flagged (data (values self))))
    with (length (without_positions flagged (polygon_shells (uxgrid self))))
    by lia.
  rewrite Nat.eqb_refl. do 2 eexists. split; [reflexivity|].
  unfold get_column. simpl. rewrite decide_True by done. simpl.
  split; [done|]. split; [done|]. split; [lia|].
  rewrite length_fmap. lia.
Qed.

(** C7, as amended.  A variable with more than one dimension is refused as
    not one-dimensional, whatever its size.  For a variable of at most one
    dimension whose size differs from [n_face], the error states that the
    size matches the number of nodes when it equals [n_node], and is the
    generic size mismatch otherwise.  A variable whose size is [n_face]
    raises neither of the two size errors. *)
Theorem to_geodataframe_size_errors
    (self : @UxDataArray V) (override cache exclude_antimeridian : bool) :
  let size := np_size (values self) in
  let grid := uxgrid self in
  let outcome :=
    to_geodataframe antimeridian_fix self override cache
                    exclude_antimeridian in
  (1 < ndim (values self) ->
   outcome = Raise (ValueError NotOneDimensional))
  /\ (ndim (values self) <= 1 -> size <> n_face grid -> size = n_node grid ->
      outcome = Raise (ValueError SizeMatchesNodes))
  /\ (ndim (values self) <= 1 -> size <> n_face grid -> size <> n_node grid ->
      outcome = Raise (ValueError SizeMismatch))
  /\ (size = n_face grid ->
      outcome <> Raise (ValueError SizeMatchesNodes)
      /\ outcome <> Raise (ValueError SizeMismatch)).
Proof.
  intros size grid outcome. subst size grid outcome.
  unfold to_geodataframe.
  destruct (Nat.ltb_spec 1 (ndim (values self))) as [Hnd | Hnd].
  { split; [done|]. split; [lia|]. split; [lia|]. intros _.
    split; discriminate. }
  split; [lia|].
  destruct (Nat.eqb_spec (np_size (values self)) (n_face (uxgrid self)))
    as [Hface | Hface].
  2:{ destruct (Nat.eqb_spec (np_size (values self))
                             (n_node (uxgrid self))); try done. }
  split; [done|]. split; [done|]. intros _.
  assert (Hsafe : forall e,
    e = IndexError \/ e = GeometryError \/ e = AxisError
    \/ e = ValueError LengthMismatch ->
    e <> ValueError SizeMatchesNodes /\ e <> ValueError SizeMismatch).
  { intros e [-> | [-> | [-> | ->]]]; split; discriminate. }
  assert (Hraises : forall e,
    (gdf ← grid_to_geodataframe antimeridian_fix (uxgrid self)
             override cache exclude_antimeridian;
     let var_name := default "var" (name self) in
     if exclude_antimeridian then
       indices ← of_option IndexError
                   (antimeridian_face_indices (uxgrid self));
       column ← np_delete (values self) indices;
       set_column gdf var_name column
     else set_column gdf var_name (values self)) = Raise e ->
    e = IndexError \/ e = GeometryError \/ e = AxisError
    \/ e = ValueError LengthMismatch).
  { intros e. unfold mbind, result_bind, grid_to_geodataframe,
      _grid_to_polygon_geodataframe.
    destruct exclude_antimeridian.
    - destruct (antimeridian_face_indices (uxgrid self)); simpl;
        [|intros [= <-]; tauto].
      destruct (np_delete _ _) eqn:Hdel.
      + intros ->%set_column_raises. tauto.
      + intros [= <-]. apply np_delete_raises in Hdel. tauto.
    - unfold mbind, result_bind.
      destruct (Geometry.grid_to_polygons _ _) eqn:Hpoly.
      + intros ->%set_column_raises. tauto.
      + intros [= <-]. apply grid_to_polygons_raises in Hpoly. tauto. }
  split; intros Heq; apply Hraises, Hsafe in Heq; tauto.
Qed.

End ToGeoDataFrameFacts.

End DataArrayFacts.

(** ** The geometry code on the example meshes *)

Module GeometryExamples.
Import Geometry GeometryFacts.

Example dateline_shells_built :
  _build_polygon_shells example_fill_value 0%Q
    dateline_node_lon dateline_node_lat dateline_face_nodes
    3 4 dateline_nodes_per_face
  = Ok (polygon_shells dateline_grid).
Proof. vm_compute. reflexivity. Qed.

Example dateline_shells_built_from_360 :
  _build_polygon_shells example_fill_value 0%Q
    dateline_node_lon_360 dateline_node_lat dateline_face_nodes
    3 4 dateline_nodes_per_face
  = Ok (polygon_shells dateline_grid).
Proof. vm_compute. reflexivity. Qed.

Example dateline_flagged :
  _build_antimeridian_face_indices dateline_grid = NdArray [1] [1].
Proof. vm_compute. reflexivity. Qed.

Example patch_flagged :
  _build_antimeridian_face_indices patch_grid = NdArray [0] [].
Proof. vm_compute. reflexivity. Qed.

Example tetrahedron_flagged :
  _build_antimeridian_face_indices tetrahedron_grid
  = NdArray [4] [0; 1; 2; 3].
Proof. vm_compute. reflexivity. Qed.

Example dateline_corrected_shells :
  _build_corrected_polygon_shells seam_split (polygon_shells dateline_grid)
  = Ok ([[(160, 0); (170, 0); (170, 10); (160, 10); (160, 0)];
         [(170, 0); (170, 10); (170, 0)];
         [(-170, 0); (-170, 10)];
         [(160, 0); (165, -10); (170, 0); (160, 0); (160, 0)]]%Q,
        [0; 1; 1; 2]).
Proof. vm_compute. reflexivity. Qed.

Example dateline_polygons :
  grid_to_polygons seam_split dateline_grid
  = Ok [GPolygon
          (Polygon [(160, 0); (170, 0); (170, 10); (160, 10); (160, 0)]%Q);
        GMultiPolygon
          [Polygon [(170, 0); (170, 10); (170, 0)]%Q;
           Polygon [(-170, 0); (-170, 10)]%Q];
        GPolygon
          (Polygon [(160, 0); (165, -10); (170, 0); (160, 0); (160, 0)]%Q)].
Proof. vm_compute. reflexivity. Qed.

Lemma seam_split_parts P :
  exists g, seam_split P = Some g /\ parts g <> [].
Proof. unfold seam_split. case_match; eexists; split; done. Qed.

Lemma dateline_connectivity_well_formed :
  well_formed_connectivity example_fill_value
    dateline_node_lon dateline_node_lat dateline_face_nodes
    3 4 dateline_nodes_per_face.
Proof.
  constructor; try (simpl; lia); try reflexivity.
  intros i row k Hrow Hk.
  destruct i as [|[|[|i]]]; try discriminate Hrow;
    injection Hrow as <-; injection Hk as <-;
    (split; [lia|]).
  - exists [0; 1; 2; 3]%Z. split; [reflexivity|]. split; [reflexivity|].
    repeat constructor; simpl; try lia; discriminate.
  - exists [1; 4; 5; 2]%Z. split; [reflexivity|]. split; [reflexivity|].
    repeat constructor; simpl; try lia; discriminate.
  - exists [0; 6; 1]%Z. split; [reflexivity|]. split; [reflexivity|].
    repeat constructor; simpl; try lia; discriminate.
Qed.

Lemma polygon_shells_closed_and_padded_witness :
  exists polygon_shells x_max,
    _build_polygon_shells example_fill_value 0%Q
      dateline_node_lon dateline_node_lat dateline_face_nodes
      3 4 dateline_nodes_per_face = Ok polygon_shells
    /\ np_max dateline_node_lon = Ok x_max
    /\ length polygon_shells = 3
    /\ forall i shell k,
         polygon_shells !! i = Some shell ->
         dateline_nodes_per_face !! i = Some k ->
         length shell = 4 + 1
         /\ (exists vertex, head shell = Some vertex
                            /\ last shell = Some vertex)
         /\ (forall j, k <= j <= 4 -> shell !! j = shell !! 0)
         /\ exists row,
              dateline_face_nodes !! i = Some row
              /\ (exists v x y,
                    row !! 0 = Some v
                    /\ dateline_node_lon !! Z.to_nat v = Some x
                    /\ dateline_node_lat !! Z.to_nat v = Some y
                    /\ let first :=
                         (if Qle_bool x_max 180 then x
                          else (Qmod (x + 180) 360 - 180)%Q, y) in
                       head shell = Some first
                       /\ last shell = Some first
                       /\ forall j, k <= j <= 4 -> shell !! j = Some first)
              /\ forall j, j < k ->
                   exists v x y,
                     row !! j = Some v
                     /\ dateline_node_lon !! Z.to_nat v = Some x
                     /\ dateline_node_lat !! Z.to_nat v = Some y
                     /\ shell !! j
                        = Some (if Qle_bool x_max 180 then x
                                else (Qmod (x + 180) 360 - 180)%Q, y).
Proof.
  apply (polygon_shells_closed_and_padded example_fill_value 0%Q
           dateline_node_lon dateline_node_lat dateline_face_nodes
           3 4 dateline_nodes_per_face).
  exact dateline_connectivity_well_formed.
Defined.

Lemma original_to_corrected_index_map_witness :
  exists corrected_polygon_shells original_to_corrected corrected_polygons,
    _build_corrected_polygon_shells seam_split (polygon_shells dateline_grid)
      = Ok (corrected_polygon_shells, original_to_corrected)
    /\ Forall2 (fun shell g => seam_split (Polygon shell) = Some g)
               (polygon_shells dateline_grid) corrected_polygons
    /\ length original_to_corrected = length corrected_polygon_shells
    /\ length corrected_polygon_shells
       = sum_list ((fun g => length (parts g)) <$> corrected_polygons)
    /\ (forall i, i < length (polygon_shells dateline_grid) ->
          i ∈ original_to_corrected)
    /\ forall i g,
         corrected_polygons !! i = Some g ->
         exists before after,
           original_to_corrected
             = before ++ replicate (length (parts g)) i ++ after
           /\ (i ∉ before) /\ (i ∉ after)
           /\ (forall p, g = GPolygon p -> length (parts g) = 1)
           /\ (forall geoms, g = GMultiPolygon geoms ->
                 length (parts g) = length geoms).
Proof.
  apply (original_to_corrected_index_map seam_split
           (polygon_shells dateline_grid)).
  intros shell _. apply seam_split_parts.
Defined.

Lemma grid_to_polygons_per_face_witness :
  exists polygons,
    grid_to_polygons seam_split dateline_grid = Ok polygons
    /\ length polygons = length (polygon_shells dateline_grid)
    /\ forall i shell,
         polygon_shells dateline_grid !! i = Some shell ->
         (i ∉ [1] -> polygons !! i = Some (GPolygon (Polygon shell)))
         /\ (i ∈ [1] ->
             exists g, seam_split (Polygon shell) = Some g
                       /\ polygons !! i = Some g).
Proof.
  apply (grid_to_polygons_per_face seam_split dateline_grid).
  - repeat constructor.
  - intros i shell _ _.
    destruct (seam_split_parts (Polygon shell)) as (g & Hg & _). eauto.
Defined.

End GeometryExamples.

(** ** The data array on the example meshes *)

Module DataArrayExamples.
Import DataArray DataArrayFacts.

Example dateline_table_without_seam_faces :
  to_geodataframe seam_split dateline_face_array false true true
  = Ok {| gdf_geometry :=
            [GPolygon (Polygon [(160, 0); (170, 0); (170, 10);
                                (160, 10); (160, 0)]%Q);
             GPolygon (Polygon [(160, 0); (165, -10); (170, 0);
                                (160, 0); (160, 0)]%Q)];
          gdf_columns := [("t2m", [11; 33]%Q)] |}.
Proof. vm_compute. reflexivity. Qed.

Example dateline_table_with_seam_faces :
  (fun gdf => get_column gdf "t2m")
    <$> (match to_geodataframe seam_split dateline_face_array
                 false true false with
         | Ok gdf => Some gdf
         | Raise _ => None
         end)
  = Some (Some [11; 22; 33]%Q).
Proof. vm_compute. reflexivity. Qed.

Example dateline_node_array_refused :
  to_geodataframe seam_split dateline_node_array false true false
  = Raise (ValueError SizeMatchesNodes).
Proof. vm_compute. reflexivity. Qed.

Lemma to_geodataframe_exclude_antimeridian_witness :
  exists gdf column,
    to_geodataframe seam_split dateline_face_array false true true = Ok gdf
    /\ get_column gdf (default "var" (name dateline_face_array))
       = Some column
    /\ column = without_positions [1] (data (values dateline_face_array))
    /\ length column = n_face (uxgrid dateline_face_array) - length [1]
    /\ length (gdf_geometry gdf) = length column.
Proof.
  apply (to_geodataframe_exclude_antimeridian seam_split
           dateline_face_array false true [1]).
  - reflexivity.
  - apply NoDup_singleton.
  - repeat constructor.
  - reflexivity.
  - reflexivity.
  - reflexivity.
Defined.

(** C7 as stated fails on a variable that has more than one dimension: its
    seven values are as many as the mesh has nodes and not as many as it
    has faces, yet the error is the one about dimensionality, not the one
    about the node count. *)
Lemma to_geodataframe_dimension_error_first :
  np_size (values dateline_row_array) = n_node (uxgrid dateline_row_array)
  /\ np_size (values dateline_row_array)
     <> n_face (uxgrid dateline_row_array)
  /\ to_geodataframe seam_split dateline_row_array false true false
     = Raise (ValueError NotOneDimensional)
  /\ to_geodataframe seam_split dateline_row_array false true false
     <> Raise (ValueError SizeMatchesNodes).
Proof.
  split; [reflexivity|]. split; [discriminate|].
  split; [reflexivity | discriminate].
Qed.

End DataArrayExamples.


(** * Further properties of the remapper *)

(** Row [r] of a buffer cut into rows of [n] entries. *)
Lemma reshape_rows_lookup {A} (l : list A) rows n r i :
  length l = rows * n -> r < rows -> i < n ->
  exists row, reshape (replicate rows n) l !! r = Some row
              /\ row !! i = l !! (r * n + i).
Proof.
  intros Hl Hr Hi.
  rewrite (sublist_lookup_reshape l r n rows) by (done || lia).
  unfold sublist_lookup. rewrite option_guard_True by nia.
  eexists. split; [done|]. by rewrite lookup_take_lt, lookup_drop by done.
Qed.

(** The entries of [a[..., idx]]: entry [j] of row [r] of the result is
    entry [idx[j]] of row [r] of [a]. *)
Lemma np_take_last_lookup {A} (a : ndarray A) idx b n :
  well_formed a ->
  last (shape a) = Some n ->
  np_take_last a idx = Ok b ->
  length (data b) = product (removelast (shape a)) * length (data idx)
  /\ forall r j i,
       r < product (removelast (shape a)) ->
       data idx !! j = Some i ->
       i < n
       /\ data b !! (r * length (data idx) + j) = data a !! (r * n + i).
Proof.
  intros Hwf Hlast. unfold np_take_last. rewrite Hlast.
  destruct (forallb _ _) eqn:Hall; [|discriminate].
  unfold mbind, result_bind.
  destruct (rmapM _ _) as [gathered|] eqn:Hg; [|discriminate].
  intros [= <-]. simpl.
  assert (Hlen : length (data a) = product (removelast (shape a)) * n).
  { rewrite Hwf. unfold np_size.
    rewrite (shape_split a n Hlast) at 1. rewrite product_app. simpl. lia. }
  apply rmapM_Ok in Hg.
  assert (Hrows : Forall (fun g => length g = length (data idx)) gathered).
  { apply Forall_lookup. intros r g Hr.
    destruct (Forall2_lookup_r _ _ _ _ _ Hg Hr) as (row & _ & Hrow).
    apply rmapM_Ok in Hrow. symmetry. by eapply Forall2_length. }
  split.
  - rewrite length_join, (sum_list_fmap_same (length (data idx))) by done.
    rewrite <- (Forall2_length _ _ _ Hg), length_reshape, length_replicate.
    done.
  - intros r j i Hr Hj.
    assert (Hi : i < n).
    { apply Nat.ltb_lt.
      apply (proj1 (forallb_forall _ _) Hall), list_elem_of_In.
      by eapply list_elem_of_lookup_2. }
    split; [done|].
    destruct (reshape_rows_lookup (data a) _ n r i Hlen Hr Hi)
      as (row & Hrow & Hri).
    destruct (Forall2_lookup_l _ _ _ _ _ Hg Hrow) as (g & Hgr & Hgather).
    apply rmapM_Ok in Hgather.
    destruct (Forall2_lookup_l _ _ _ _ _ Hgather Hj) as (x & Hx & Hxi).
    destruct (row !! i) as [x'|] eqn:Hx'; [|done].
    simpl in Hxi. injection Hxi as ->.
    rewrite <- Hri.
    apply (join_lookup_Some_same_length' (length (data idx))); [done | |].
    + by eapply lookup_lt_Some.
    + eauto.
Qed.

Module RemapResults.
Import Remap.

Section Remapper.

Context {V : Type}.
Variable tree_query : BallTree -> list (list Q) -> nat -> ndarray nat.

(** Neither [squeeze] touches the buffers: what the remapper returns holds
    the gathered values. *)
Lemma gathered_lookup (source_data : ndarray V) found n destination_data :
  well_formed source_data ->
  last (shape source_data) = Some n ->
  gathered source_data found = Ok destination_data ->
  length (data destination_data)
    = product (removelast (shape source_data)) * length (data found)
  /\ forall r j i,
       r < product (removelast (shape source_data)) ->
       data found !! j = Some i ->
       i < n
       /\ data destination_data !! (r * length (data found) + j)
          = data source_data !! (r * n + i).
Proof.
  intros Hwf Hlast. unfold gathered.
  set (found' := if 1 <? ndim found then squeeze found else found).
  assert (Hdata : data found' = data found).
  { subst found'. by case_match. }
  unfold mbind, result_bind.
  destruct (np_take_last source_data found') as [d|] eqn:Hd; [|discriminate].
  intros [= <-].
  pose proof (np_take_last_lookup _ _ _ _ Hwf Hlast Hd) as Hlook.
  rewrite Hdata in Hlook.
  by destruct (ndim source_data =? 1).
Qed.

(** X1.  Every value of the remapped field is the value the source field has
    at the source element that the spatial index returned for that
    destination element, level by level: a valid call returns an array whose
    entry [j] of row [r] is entry [i] of row [r] of the source data, [i]
    being the index found for the [j]-th destination point.  The index is the
    one built over the source elements of the kind the data is anchored to,
    queried with the destination coordinates. *)
Theorem nearest_neighbor_values
    dist src dst (source_data : ndarray V) remap_to coord_type n :
  nearest_spec dist tree_query ->
  well_formed_grid src -> well_formed_grid dst ->
  well_formed source_data ->
  last (shape source_data) = Some n -> 0 < n ->
  matches_a_count src n ->
  recognized_remap_to remap_to -> recognized_coord_type coord_type ->
  exists kind indexed points destination_data,
    source_data_mapping src n = Ok kind
    /\ tree_coordinates src kind coord_type = Ok indexed
    /\ vstack_T (destination_columns dst remap_to coord_type) = Ok points
    /\ length points = element_count dst remap_to
    /\ outcome (_nearest_neighbor tree_query src dst source_data
                                  remap_to coord_type) = Ok destination_data
    /\ let found :=
         data (tree_query {| tree_points := indexed;
                             tree_coordinate_system := coord_type;
                             tree_distance_metric := metric_of coord_type |}
                          points 1) in
       let levels := product (removelast (shape source_data)) in
       length found = length points
       /\ length (data destination_data) = levels * length points
       /\ forall r j i,
            r < levels -> found !! j = Some i ->
            i < n
            /\ data destination_data !! (r * length points + j)
               = data source_data !! (r * n + i).
Proof.
  intros Hspec Hsrc Hdst Hwf Hlast Hn Hm Hr Hc.
  destruct (RemapFacts.source_data_mapping_matches src n Hm)
    as (kind & Hk & Hkind).
  destruct (RemapFacts.destination_points_Ok src kind coord_type Hsrc)
    as (indexed & Hindexed & Hlen).
  destruct (RemapFacts.destination_points_Ok dst remap_to coord_type Hdst)
    as (points & Hpoints & Hcount).
  rewrite <- (RemapFacts.tree_coordinates_destination src kind coord_type
                Hkind Hc) in Hindexed.
  destruct (RemapFacts.nearest_neighbor_runs tree_query dist src dst
              source_data remap_to coord_type n)
    as (destination_data & Hrun & _); try done.
  exists kind, indexed, points, destination_data.
  do 4 (split; [done|]). split; [exact Hrun|].
  rewrite (RemapFacts.nearest_neighbor_valid tree_query _ _ _ _ _ _ _
             Hlast Hk Hr Hc), Hindexed, Hpoints in Hrun.
  simpl in Hrun.
  set (tree := {| tree_points := indexed |}) in *.
  assert (Hne : tree_points tree <> []).
  { simpl. intros ->.
    rewrite (RemapFacts.source_data_mapping_count _ _ _ Hk) in Hlen.
    simpl in Hlen. lia. }
  destruct (Hspec tree points Hne) as (_ & Hfound & _).
  cbv zeta. split; [exact Hfound|]. rewrite <- Hfound.
  exact (gathered_lookup _ _ _ _ Hwf Hlast Hrun).
Qed.

(** X2.  The calls a valid remap makes: the spatial index of the source mesh
    is requested once, over the element kind the data is anchored to, in the
    requested coordinate system and with the metric that goes with it
    (haversine for spherical, minkowski for cartesian coordinates); it is
    then queried once, for the single nearest neighbour of every destination
    element.  This holds whatever the query returns. *)
Theorem nearest_neighbor_calls
    src dst (source_data : ndarray V) remap_to coord_type n :
  well_formed_grid src -> well_formed_grid dst ->
  last (shape source_data) = Some n ->
  matches_a_count src n ->
  recognized_remap_to remap_to -> recognized_coord_type coord_type ->
  exists kind,
    source_data_mapping src n = Ok kind
    /\ element_count src kind = n
    /\ calls (_nearest_neighbor tree_query src dst source_data
                                remap_to coord_type)
       = [GetBallTree kind coord_type (metric_of coord_type);
          TreeQuery (element_count dst remap_to) 1].
Proof.
  intros Hsrc Hdst Hlast Hm Hr Hc.
  destruct (RemapFacts.source_data_mapping_matches src n Hm)
    as (kind & Hk & Hkind).
  exists kind. split; [done|].
  split; [by apply RemapFacts.source_data_mapping_count|].
  rewrite (RemapFacts.nearest_neighbor_valid tree_query _ _ _ _ _ _ _
             Hlast Hk Hr Hc).
  rewrite (RemapFacts.tree_coordinates_destination src kind coord_type
             Hkind Hc).
  destruct (RemapFacts.destination_points_Ok src kind coord_type Hsrc)
    as (indexed & -> & _).
  destruct (RemapFacts.destination_points_Ok dst remap_to coord_type Hdst)
    as (points & -> & ->).
  done.
Qed.

(** X3.  Remapping a field onto its own mesh, to the kind of element it is
    anchored to, returns it unchanged.  The kind is the one the trailing size
    of the data gives, the nodes being tried first: so data with one value
    per node comes back unchanged from a remap to the nodes on every mesh
    with at least two nodes that are pairwise apart, also on a mesh that has
    as many edges or faces as nodes. *)
Theorem remap_to_anchored_kind_identity
    dist g (source_data : ndarray V) kind coord_type n :
  nearest_spec dist tree_query ->
  well_formed_grid g ->
  well_formed source_data ->
  last (shape source_data) = Some n -> 1 < n ->
  source_data_mapping g n = Ok kind ->
  recognized_coord_type coord_type ->
  separated (dist (metric_of coord_type))
            (element_centres g kind coord_type) ->
  (n = n_node g -> kind = "nodes")
  /\ outcome (_nearest_neighbor tree_query g g source_data kind coord_type)
     = Ok source_data.
Proof.
  intros Hspec Hg Hwf Hlast Hmany Hk Hc Hsep.
  split.
  { intros ->. unfold source_data_mapping in Hk.
    rewrite Nat.eqb_refl in Hk. by injection Hk. }
  assert (Hr : recognized_remap_to kind).
  { destruct (RemapFacts.source_data_mapping_cases g n)
      as [Hbad | (kind' & Hk' & Hr)]; congruence. }
  rewrite (RemapFacts.nearest_neighbor_valid tree_query _ _ _ _ _ _ _
             Hlast Hk Hr Hc).
  rewrite (RemapFacts.tree_coordinates_destination g _ coord_type Hr Hc).
  unfold element_centres in Hsep.
  destruct (RemapFacts.destination_points_Ok g kind coord_type Hg)
    as (centres & Hcentres & Hlen).
  rewrite Hcentres in *. simpl.
  rewrite (RemapFacts.source_data_mapping_count _ _ _ Hk) in Hlen.
  set (tree := {| tree_points := centres |}).
  assert (Hne : tree_points tree <> []).
  { simpl. intros ->. simpl in Hlen. lia. }
  apply RemapFacts.gathered_identity with n; [done | done | lia | |].
  - destruct (Hspec tree centres Hne) as (Hs & _). rewrite Hlen in Hs.
    destruct Hs as [Hs | [Hs | [Hs _]]]; [by left | by right | lia].
  - rewrite <- Hlen. by apply (RemapFacts.nearest_to_itself tree_query dist tree).
Qed.

End Remapper.

Lemma nearest_neighbor_values_witness :
  exists kind indexed points destination_data,
    source_data_mapping patch_grid 2 = Ok kind
    /\ tree_coordinates patch_grid kind "cartesian" = Ok indexed
    /\ vstack_T (destination_columns patch_grid "edge centers" "cartesian")
       = Ok points
    /\ length points = element_count patch_grid "edge centers"
    /\ outcome (_nearest_neighbor brute_force_query patch_grid patch_grid
                  patch_level_field "edge centers" "cartesian")
       = Ok destination_data
    /\ let found :=
         data (brute_force_query
                 {| tree_points := indexed;
                    tree_coordinate_system := "cartesian";
                    tree_distance_metric := metric_of "cartesian" |}
                 points 1) in
       let levels := product (removelast (shape patch_level_field)) in
       length found = length points
       /\ length (data destination_data) = levels * length points
       /\ forall r j i,
            r < levels -> found !! j = Some i ->
            i < 2
            /\ data destination_data !! (r * length points + j)
               = data patch_level_field !! (r * 2 + i).
Proof.
  apply (nearest_neighbor_values brute_force_query (fun _ => sq_dist)
           patch_grid patch_grid patch_level_field
           "edge centers" "cartesian" 2).
  - exact brute_force_nearest.
  - exact RemapFacts.patch_grid_well_formed.
  - exact RemapFacts.patch_grid_well_formed.
  - reflexivity.
  - reflexivity.
  - lia.
  - right. right. reflexivity.
  - right. left. reflexivity.
  - right. reflexivity.
Defined.

Lemma nearest_neighbor_calls_witness :
  exists kind,
    source_data_mapping patch_grid 2 = Ok kind
    /\ element_count patch_grid kind = 2
    /\ calls (_nearest_neighbor brute_force_query patch_grid triangle_grid
                patch_level_field "nodes" "spherical")
       = [GetBallTree kind "spherical" (metric_of "spherical");
          TreeQuery (element_count triangle_grid "nodes") 1].
Proof.
  apply (nearest_neighbor_calls brute_force_query patch_grid triangle_grid
           patch_level_field "nodes" "spherical" 2).
  - exact RemapFacts.patch_grid_well_formed.
  - exact RemapFacts.triangle_grid_well_formed.
  - reflexivity.
  - right. right. reflexivity.
  - left. reflexivity.
  - left. reflexivity.
Defined.

Lemma tetrahedron_nodes_separated :
  separated sq_dist (element_centres tetrahedron_grid "nodes" "cartesian").
Proof. RemapFacts.separated_by_cases. Qed.

(** On the tetrahedron, which has as many faces as nodes, four values are
    node data. *)
Lemma remap_to_anchored_kind_identity_witness :
  (4 = n_node tetrahedron_grid -> "nodes" = "nodes")
  /\ outcome (_nearest_neighbor brute_force_query tetrahedron_grid
                tetrahedron_grid tetrahedron_face_field
                "nodes" "cartesian")
     = Ok tetrahedron_face_field.
Proof.
  apply (remap_to_anchored_kind_identity brute_force_query
           (fun _ => sq_dist) tetrahedron_grid tetrahedron_face_field
           "nodes" "cartesian" 4).
  - exact brute_force_nearest.
  - exact RemapFacts.tetrahedron_grid_well_formed.
  - reflexivity.
  - reflexivity.
  - lia.
  - reflexivity.
  - right. reflexivity.
  - exact tetrahedron_nodes_separated.
Defined.

End RemapResults.


(** * Further properties of the polygon shells *)

Lemma Qmax_cases x y : Qmax x y = x \/ Qmax x y = y.
Proof.
  unfold Qmax, GenericMinMax.gmax. destruct (x ?= y)%Q; auto.
Qed.

Lemma foldl_Qmax_spec rest x :
  let m := foldl Qmax x rest in
  (x <= m)%Q /\ Forall (fun y => (y <= m)%Q) rest /\ (m = x \/ m ∈ rest).
Proof.
  revert x. induction rest as [|y rest IH]; intros x; simpl.
  - split; [apply Qle_refl|]. split; [constructor | by left].
  - destruct (IH (Qmax x y)) as (Hle & Hall & Hin).
    split; [eapply Qle_trans; [apply Q.le_max_l | exact Hle]|].
    split.
    + constructor; [|done]. eapply Qle_trans; [apply Q.le_max_r | exact Hle].
    + destruct Hin as [-> | Hin]; [|right; by right].
      destruct (Qmax_cases x y) as [-> | ->]; [by left | right; by left].
Qed.

(** [a.max()] is an entry of [a] that no entry exceeds. *)
Lemma np_max_spec a m :
  np_max a = Ok m -> m ∈ a /\ Forall (fun x => (x <= m)%Q) a.
Proof.
  destruct a as [|x rest]; simpl; [discriminate|]. intros [= <-].
  destruct (foldl_Qmax_spec rest x) as (Hle & Hall & Hin). cbv zeta in *.
  split.
  - destruct Hin as [-> | Hin]; [by left | by right].
  - by constructor.
Qed.

Module ShellResults.
Import Geometry.

Section ShellVertices.

Variable INT_FILL_VALUE : Z.
Variable uninitialised : Q.

(** X4.  Every vertex of every shell is a node of its face.  On a well-formed
    mesh, position [j] of the shell of face [i] holds the coordinates of node
    [j] of the face for [j] below the face's node count [k], and those of the
    face's first node from the closing position [k] on.  The latitude is the
    node's own; the longitude is the node's own when no node lies east of 180
    degrees, and is wrapped otherwise.  No cell of the freshly allocated
    arrays shows through. *)
Theorem polygon_shells_vertex_coordinates
    Mesh2_node_x Mesh2_node_y Mesh2_face_nodes
    nMesh2_face nMaxMesh2_face_nodes nNodes_per_face :
  well_formed_connectivity INT_FILL_VALUE Mesh2_node_x Mesh2_node_y
    Mesh2_face_nodes nMesh2_face nMaxMesh2_face_nodes nNodes_per_face ->
  exists polygon_shells x_max,
    _build_polygon_shells INT_FILL_VALUE uninitialised
      Mesh2_node_x Mesh2_node_y Mesh2_face_nodes
      nMesh2_face nMaxMesh2_face_nodes nNodes_per_face = Ok polygon_shells
    /\ np_max Mesh2_node_x = Ok x_max
    /\ forall i shell row k j,
         polygon_shells !! i = Some shell ->
         Mesh2_face_nodes !! i = Some row ->
         nNodes_per_face !! i = Some k ->
         j <= nMaxMesh2_face_nodes ->
         exists v x y,
           row !! (if j <? k then j else 0) = Some v
           /\ Mesh2_node_x !! Z.to_nat v = Some x
           /\ Mesh2_node_y !! Z.to_nat v = Some y
           /\ shell !! j
              = Some (if Qle_bool x_max 180 then x
                      else (Qmod (x + 180) 360 - 180)%Q, y).
Proof.
  intros Hwf.
  destruct (GeometryFacts.polygon_shells_by_vertex INT_FILL_VALUE uninitialised
              _ _ _ _ _ _ Hwf)
    as (shells & x_max & Hbuilt & Hmax & _ & Hshells).
  exists shells, x_max. do 2 (split; [done|]).
  intros i shell row k j Hi Hrow Hk Hj.
  destruct (Hshells i shell Hi) as (row' & k' & Hrow' & Hk' & _ & Hv).
  assert (row' = row) as -> by congruence.
  assert (k' = k) as -> by congruence.
  by apply Hv.
Qed.

(** X5.  The wrap of the longitudes is all or nothing.  When some node lies
    east of 180 degrees, every vertex of every shell is a node whose
    longitude has gone through the wrap [(x + 180) % 360 - 180], the nodes
    that were in range already included, at that node's latitude.  When no
    node does, every vertex is a node with its own longitude and latitude,
    so a longitude below -180 is passed on as it is. *)
Theorem polygon_shells_longitudes
    Mesh2_node_x Mesh2_node_y Mesh2_face_nodes
    nMesh2_face nMaxMesh2_face_nodes nNodes_per_face :
  well_formed_connectivity INT_FILL_VALUE Mesh2_node_x Mesh2_node_y
    Mesh2_face_nodes nMesh2_face nMaxMesh2_face_nodes nNodes_per_face ->
  exists polygon_shells,
    _build_polygon_shells INT_FILL_VALUE uninitialised
      Mesh2_node_x Mesh2_node_y Mesh2_face_nodes
      nMesh2_face nMaxMesh2_face_nodes nNodes_per_face = Ok polygon_shells
    /\ ((exists east, east ∈ Mesh2_node_x /\ (180 < east)%Q) ->
        forall shell lon lat,
          shell ∈ polygon_shells -> (lon, lat) ∈ shell ->
          exists n x,
            Mesh2_node_x !! n = Some x /\ Mesh2_node_y !! n = Some lat
            /\ lon = (Qmod (x + 180) 360 - 180)%Q)
    /\ (Forall (fun x => (x <= 180)%Q) Mesh2_node_x ->
        forall shell lon lat,
          shell ∈ polygon_shells -> (lon, lat) ∈ shell ->
          exists n,
            Mesh2_node_x !! n = Some lon /\ Mesh2_node_y !! n = Some lat).
Proof.
  intros Hwf.
  destruct (GeometryFacts.polygon_shells_by_vertex INT_FILL_VALUE uninitialised
              _ _ _ _ _ _ Hwf)
    as (shells & x_max & Hbuilt & Hmax & _ & Hshells).
  exists shells. split; [done|].
  apply np_max_spec in Hmax as [Hin Hle].
  assert (Hvertex : forall shell lon lat,
    shell ∈ shells -> (lon, lat) ∈ shell ->
    exists n x,
      Mesh2_node_x !! n = Some x /\ Mesh2_node_y !! n = Some lat
      /\ lon = if Qle_bool x_max 180 then x
               else (Qmod (x + 180) 360 - 180)%Q).
  { intros shell lon lat [i Hi]%list_elem_of_lookup [j Hj]%list_elem_of_lookup.
    destruct (Hshells i shell Hi) as (row & k & _ & _ & Hlen & Hv).
    destruct (Hv j) as (v & x & y & _ & Hx & Hy & Hs).
    { apply lookup_lt_Some in Hj. lia. }
    rewrite Hj in Hs. injection Hs as -> ->. eauto. }
  split.
  - intros (east & Heast & Hgt) shell lon lat Hs Hl.
    destruct (Hvertex shell lon lat Hs Hl) as (n & x & Hx & Hy & ->).
    assert (Hwrap : Qle_bool x_max 180 = false).
    { destruct (Qle_bool x_max 180) eqn:Hb; [|done].
      apply Qle_bool_iff in Hb.
      pose proof (proj1 (Forall_forall _ _) Hle east Heast) as He.
      cbv beta in He. exfalso. lra. }
    rewrite Hwrap. eauto.
  - intros Hall shell lon lat Hs Hl.
    destruct (Hvertex shell lon lat Hs Hl) as (n & x & Hx & Hy & ->).
    assert (Hkeep : Qle_bool x_max 180 = true).
    { apply Qle_bool_iff. by apply (proj1 (Forall_forall _ _) Hall). }
    rewrite Hkeep. eauto.
Qed.

End ShellVertices.

Lemma dateline_360_connectivity_well_formed :
  well_formed_connectivity example_fill_value
    dateline_node_lon_360 dateline_node_lat dateline_face_nodes
    3 4 dateline_nodes_per_face.
Proof.
  constructor; try (simpl; lia); try reflexivity.
  intros i row k Hrow Hk.
  destruct i as [|[|[|i]]]; try discriminate Hrow;
    injection Hrow as <-; injection Hk as <-;
    (split; [lia|]).
  - exists [0; 1; 2; 3]%Z. split; [reflexivity|]. split; [reflexivity|].
    repeat constructor; simpl; try lia; discriminate.
  - exists [1; 4; 5; 2]%Z. split; [reflexivity|]. split; [reflexivity|].
    repeat constructor; simpl; try lia; discriminate.
  - exists [0; 6; 1]%Z. split; [reflexivity|]. split; [reflexivity|].
    repeat constructor; simpl; try lia; discriminate.
Qed.

Lemma polygon_shells_vertex_coordinates_witness :
  exists polygon_shells x_max,
    _build_polygon_shells example_fill_value 0%Q
      dateline_node_lon_360 dateline_node_lat dateline_face_nodes
      3 4 dateline_nodes_per_face = Ok polygon_shells
    /\ np_max dateline_node_lon_360 = Ok x_max
    /\ forall i shell row k j,
         polygon_shells !! i = Some shell ->
         dateline_face_nodes !! i = Some row ->
         dateline_nodes_per_face !! i = Some k ->
         j <= 4 ->
         exists v x y,
           row !! (if j <? k then j else 0) = Some v
           /\ dateline_node_lon_360 !! Z.to_nat v = Some x
           /\ dateline_node_lat !! Z.to_nat v = Some y
           /\ shell !! j
              = Some (if Qle_bool x_max 180 then x
                      else (Qmod (x + 180) 360 - 180)%Q, y).
Proof.
  apply (polygon_shells_vertex_coordinates example_fill_value 0%Q
           dateline_node_lon_360 dateline_node_lat dateline_face_nodes
           3 4 dateline_nodes_per_face).
  exact dateline_360_connectivity_well_formed.
Defined.

Lemma polygon_shells_longitudes_witness :
  exists polygon_shells,
    _build_polygon_shells example_fill_value 0%Q
      dateline_node_lon_360 dateline_node_lat dateline_face_nodes
      3 4 dateline_nodes_per_face = Ok polygon_shells
    /\ ((exists east, east ∈ dateline_node_lon_360 /\ (180 < east)%Q) ->
        forall shell lon lat,
          shell ∈ polygon_shells -> (lon, lat) ∈ shell ->
          exists n x,
            dateline_node_lon_360 !! n = Some x
            /\ dateline_node_lat !! n = Some lat
            /\ lon = (Qmod (x + 180) 360 - 180)%Q)
    /\ (Forall (fun x => (x <= 180)%Q) dateline_node_lon_360 ->
        forall shell lon lat,
          shell ∈ polygon_shells -> (lon, lat) ∈ shell ->
          exists n,
            dateline_node_lon_360 !! n = Some lon
            /\ dateline_node_lat !! n = Some lat).
Proof.
  apply (polygon_shells_longitudes example_fill_value 0%Q
           dateline_node_lon_360 dateline_node_lat dateline_face_nodes
           3 4 dateline_nodes_per_face).
  exact dateline_360_connectivity_well_formed.
Defined.

(** Node 4 of the example mesh, at longitude 190, is vertex 1 of the shell
    of face 1 at longitude -170. *)
Example dateline_360_wrapped_vertex :
  (exists east, east ∈ dateline_node_lon_360 /\ (180 < east)%Q)
  /\ exists polygon_shells shell,
       _build_polygon_shells example_fill_value 0%Q
         dateline_node_lon_360 dateline_node_lat dateline_face_nodes
         3 4 dateline_nodes_per_face = Ok polygon_shells
       /\ polygon_shells !! 1 = Some shell
       /\ dateline_node_lon_360 !! 4 = Some 190%Q
       /\ shell !! 1 = Some ((-170)%Q, 0%Q).
Proof.
  split.
  - exists 190%Q. split; [|reflexivity]. do 4 right. left.
  - do 2 eexists. split; [vm_compute; reflexivity|].
    split; [reflexivity|]. split; reflexivity.
Qed.

End ShellResults.


(** * Further properties of the antimeridian code *)

(** A mapped call fails exactly when one of its calls does. *)
Lemma rmapM_Raise_iff {A B} (f : A -> result B) l :
  (exists e, rmapM f l = Raise e) <-> exists a e, a ∈ l /\ f a = Raise e.
Proof.
  induction l as [|a l IH]; simpl.
  - split; [by intros [? ?] | by intros (? & ? & ?%elem_of_nil & _)].
  - unfold mbind, result_bind. destruct (f a) as [b|e] eqn:Ha.
    + destruct (rmapM f l) as [bs|e] eqn:Hl.
      * split; [by intros [? ?]|].
        intros (a' & e & [-> | Hin]%elem_of_cons & Hf); [congruence|].
        destruct (proj2 IH) as [? ?]; [eauto | done].
      * split; [|eauto]. intros _.
        destruct (proj1 IH) as (a' & e' & Hin & Hf); [eauto|].
        exists a', e'. split; [by right | done].
    + split; [|eauto]. intros _. exists a, e. split; [by left | done].
Qed.

(** The positions kept by a filter of a run of consecutive numbers come
    out in increasing order. *)
Lemma filter_seq_increasing (P : nat -> Prop) `{!forall i, Decision (P i)}
    start len j1 j2 a b :
  j1 < j2 ->
  filter P (seq start len) !! j1 = Some a ->
  filter P (seq start len) !! j2 = Some b ->
  start <= a /\ a < b.
Proof.
  revert start j1 j2.
  induction len as [|len IH]; intros start j1 j2 Hlt; simpl; [done|].
  assert (Hge : forall j c, filter P (seq (S start) len) !! j = Some c ->
                            S start <= c).
  { intros j c Hc%list_elem_of_lookup_2.
    apply list_elem_of_filter in Hc as [_ Hc%elem_of_seq]. lia. }
  rewrite filter_cons. destruct (decide (P start)).
  - destruct j1 as [|j1], j2 as [|j2]; simpl; try lia.
    + intros [= <-] Hb%Hge. lia.
    + intros Ha Hb.
      destruct (IH (S start) j1 j2) as [? ?]; [lia | done | done | lia].
  - intros Ha Hb.
    destruct (IH (S start) j1 j2) as [? ?]; [lia | done | done | lia].
Qed.


Lemma rmapM_ext_Forall {A B} (f g : A -> result B) l :
  Forall (fun a => f a = g a) l -> rmapM f l = rmapM g l.
Proof.
  induction 1 as [|a l Ha _ IH]; simpl; [done|]. by rewrite Ha, IH.
Qed.

(** The polygons picked by [polygons[indices]]. *)
Lemma take_polygons (shells : list (list (Q * Q))) indices taken :
  rmapM (fun i => of_option IndexError ((Polygon <$> shells) !! i)) indices
    = Ok taken ->
  Forall (fun i => i < length shells) indices
  /\ Forall2 (fun i P => exists shell,
                shells !! i = Some shell /\ P = Polygon shell) indices taken.
Proof.
  intros Htaken%rmapM_Ok.
  induction Htaken as [|i P indices taken Hi _ [IH1 IH2]];
    [split; constructor|].
  rewrite list_lookup_fmap in Hi.
  destruct (shells !! i) as [shell|] eqn:Hs; [|done].
  simpl in Hi. injection Hi as <-.
  split; constructor; eauto. by eapply lookup_lt_Some.
Qed.

Module AntimeridianResults.
Import Geometry.

(** X6.  The flagged faces come as a one-dimensional array, whether none, one
    or several faces cross: its only axis has one entry per flagged face, and
    the entries are positions of shells in strictly increasing order. *)
Theorem antimeridian_face_indices_one_dimensional grid :
  let found := _build_antimeridian_face_indices grid in
  shape found = [length (data found)]
  /\ well_formed found
  /\ Forall (fun i => i < length (polygon_shells grid)) (data found)
  /\ forall j1 j2 a b,
       j1 < j2 -> data found !! j1 = Some a -> data found !! j2 = Some b ->
       a < b.
Proof.
  intros found. subst found.
  destruct (GeometryFacts.antimeridian_face_indices_data grid)
    as [Hshape Hdata].
  cbv zeta in Hshape, Hdata.
  split; [exact Hshape|]. split.
  { unfold well_formed, np_size. rewrite Hshape. simpl. lia. }
  split.
  { apply (DataArrayFacts.antimeridian_face_indices_distinct grid). }
  rewrite Hdata. intros j1 j2 a b Hlt Ha Hb.
  by destruct (filter_seq_increasing _ _ _ _ _ _ _ Hlt Ha Hb).
Qed.


Section Correction.

Variable antimeridian_fix : polygon -> option geometry.

Lemma zip_replicate_fmap {A B} (f : A -> B) (i : nat) (l : list A) :
  zip (replicate (length l) i) (f <$> l) = (fun p => (i, f p)) <$> l.
Proof. induction l as [|a l IH]; simpl; [done | by f_equal]. Qed.

(** The index map paired with the corrected shells: every part of every
    corrected geometry, labelled with the face it comes from. *)
Lemma index_runs_zip (entries : list (nat * geometry)) :
  zip (entries ≫= (fun e => replicate (length (parts (snd e))) (fst e)))
      (entries ≫= (fun e => exterior <$> parts (snd e)))
  = entries ≫= (fun e => (fun p => (fst e, exterior p)) <$> parts (snd e)).
Proof.
  induction entries as [|e entries IH]; [done|].
  rewrite !bind_cons, zip_with_app, IH, zip_replicate_fmap; [done|].
  by rewrite length_replicate, length_fmap.
Qed.

(** The index map never decreases: the runs of the faces follow one another
    in face order. *)
Lemma index_runs_monotone (gs : list geometry) start j1 j2 i1 i2 :
  let runs :=
    imap (fun i g => (start + i, g)) gs
      ≫= (fun e => replicate (length (parts (snd e))) (fst e)) in
  j1 <= j2 -> runs !! j1 = Some i1 -> runs !! j2 = Some i2 ->
  start <= i1 /\ i1 <= i2.
Proof.
  revert start j1 j2 i1 i2.
  induction gs as [|g gs IH]; intros start j1 j2 i1 i2 runs; subst runs;
    [done|].
  rewrite imap_cons, bind_cons. cbn [fst snd].
  rewrite (imap_ext _ (fun i g => (S start + i, g)))
    by (intros; simpl; f_equal; lia).
  set (run := replicate (length (parts g)) (start + 0)).
  intros Hle H1 H2.
  assert (Hrun : forall j i, run !! j = Some i -> i = start).
  { intros j i [-> _]%lookup_replicate. lia. }
  destruct (decide (j1 < length run)) as [Hj1|Hj1].
  - rewrite lookup_app_l in H1 by done. apply Hrun in H1 as ->.
    split; [done|].
    destruct (decide (j2 < length run)) as [Hj2|Hj2].
    + rewrite lookup_app_l in H2 by done. apply Hrun in H2 as ->. done.
    + rewrite lookup_app_r in H2 by lia.
      destruct (IH (S start) _ _ i2 i2 (Nat.le_refl _) H2 H2). lia.
  - rewrite lookup_app_r in H1 by lia. rewrite lookup_app_r in H2 by lia.
    destruct (IH (S start) (j1 - length run) (j2 - length run) i1 i2);
      [lia | done | done | lia].
Qed.

(** X7.  The corrected shells, one by one.  When the repair succeeds on the
    polygon of every face, entry [j] of the corrected shells is the exterior
    ring of a part of the corrected geometry of the face that entry [j] of
    the index map names; the two lists run in parallel, and the index map
    never decreases, so the corrected shells come in face order. *)
Theorem corrected_polygon_shells_aligned
    (polygon_shells : list (list (Q * Q))) :
  (forall shell, shell ∈ polygon_shells ->
     is_Some (antimeridian_fix (Polygon shell))) ->
  exists corrected_polygon_shells original_to_corrected,
    _build_corrected_polygon_shells antimeridian_fix polygon_shells
      = Ok (corrected_polygon_shells, original_to_corrected)
    /\ length original_to_corrected = length corrected_polygon_shells
    /\ (forall j ring,
          corrected_polygon_shells !! j = Some ring ->
          exists i shell g part,
            original_to_corrected !! j = Some i
            /\ polygon_shells !! i = Some shell
            /\ antimeridian_fix (Polygon shell) = Some g
            /\ part ∈ parts g
            /\ ring = exterior part)
    /\ forall j1 j2 i1 i2,
         j1 <= j2 ->
         original_to_corrected !! j1 = Some i1 ->
         original_to_corrected !! j2 = Some i2 ->
         i1 <= i2.
Proof.
  intros Hfix. unfold _build_corrected_polygon_shells.
  destruct (rmapM_total (fix_polygon antimeridian_fix)
              (Polygon <$> polygon_shells)) as [corrected Hcorrected].
  { apply Forall_fmap, Forall_forall. intros shell Hs.
    destruct (Hfix shell Hs) as [g Hg]. exists g. unfold fix_polygon.
    simpl. by rewrite Hg. }
  rewrite Hcorrected. unfold mbind, result_bind.
  rewrite GeometryFacts.corrected_loop. simpl.
  apply rmapM_Ok in Hcorrected.
  set (entries := imap pair corrected).
  do 2 eexists. split; [done|].
  split; [apply GeometryFacts.index_runs_length|]. split.
  - intros j ring Hj.
    destruct (lookup_lt_is_Some_2
      (entries ≫= (fun e => replicate (length (parts (snd e))) (fst e))) j)
      as [i Hi].
    { rewrite GeometryFacts.index_runs_length. by eapply lookup_lt_Some. }
    assert (Hpair :
      zip (entries ≫= (fun e => replicate (length (parts (snd e))) (fst e)))
          (entries ≫= (fun e => exterior <$> parts (snd e))) !! j
      = Some (i, ring)).
    { by rewrite lookup_zip_with, Hi, Hj. }
    rewrite index_runs_zip in Hpair.
    apply list_elem_of_lookup_2, list_elem_of_bind in Hpair
      as ([i' g] & Hin & Hentry).
    simpl in Hin.
    apply list_elem_of_fmap in Hin as (part & [= -> ->] & Hpart).
    apply GeometryFacts.enumerate_elem in Hentry.
    destruct (Forall2_lookup_r _ _ _ _ _ Hcorrected Hentry)
      as (P & HP & Hg).
    rewrite list_lookup_fmap in HP.
    destruct (polygon_shells !! i') as [shell|] eqn:Hs; [|done].
    simpl in HP. injection HP as <-.
    exists i', shell, g, part. do 2 (split; [done|]).
    split; [|done]. unfold fix_polygon in Hg.
    by destruct (antimeridian_fix (Polygon shell)); simplify_eq/=.
  - intros j1 j2 i1 i2 Hle H1 H2. subst entries.
    rewrite (imap_ext _ (fun i g => (0 + i, g))) in H1, H2 by done.
    by destruct (index_runs_monotone corrected 0 j1 j2 i1 i2 Hle H1 H2).
Qed.

(** X8.  The corrected shells are built only if the repair succeeds on every
    face, crossing or not: a face whose polygon the repair rejects makes the
    whole construction fail with the error of the repair, and nothing else
    makes it fail. *)
Theorem corrected_polygon_shells_failure
    (polygon_shells : list (list (Q * Q))) :
  (_build_corrected_polygon_shells antimeridian_fix polygon_shells
     = Raise GeometryError
   <-> exists shell, shell ∈ polygon_shells
                     /\ antimeridian_fix (Polygon shell) = None)
  /\ forall e,
       _build_corrected_polygon_shells antimeridian_fix polygon_shells
         = Raise e -> e = GeometryError.
Proof.
  unfold _build_corrected_polygon_shells, mbind, result_bind.
  assert (Hone : forall e,
    rmapM (fix_polygon antimeridian_fix) (Polygon <$> polygon_shells)
      = Raise e -> e = GeometryError).
  { intros e. apply (rmapM_raises _ (fun e => e = GeometryError)).
    intros P e'. apply of_option_raises. }
  pose proof (rmapM_Raise_iff (fix_polygon antimeridian_fix)
                (Polygon <$> polygon_shells)) as Hiff.
  destruct (rmapM _ _) as [corrected|e] eqn:Hrun.
  - split; [|discriminate]. split; [discriminate|].
    intros (shell & Hs & Hnone).
    destruct (proj2 Hiff) as [? ?]; [|done].
    exists (Polygon shell), GeometryError.
    split; [by apply list_elem_of_fmap_2|].
    unfold fix_polygon. by rewrite Hnone.
  - rewrite (Hone e eq_refl). split; [|by intros ? [= <-]].
    split; [|done]. intros _.
    destruct (proj1 Hiff) as (P & e' & HP & Hf); [eauto|].
    apply list_elem_of_fmap in HP as (shell & -> & Hs).
    exists shell. split; [done|]. unfold fix_polygon in Hf.
    by destruct (antimeridian_fix (Polygon shell)).
Qed.

End Correction.


Section Polygons.

Variable antimeridian_fix : polygon -> option geometry.

(** With the listed faces in range and repaired, the polygons are built,
    one per shell. *)
Lemma grid_to_polygons_runs grid :
  let flagged := default [] (antimeridian_face_indices grid) in
  Forall (fun i => i < length (polygon_shells grid)) flagged ->
  (forall i shell, i ∈ flagged -> polygon_shells grid !! i = Some shell ->
     is_Some (antimeridian_fix (Polygon shell))) ->
  exists polygons,
    grid_to_polygons antimeridian_fix grid = Ok polygons
    /\ length polygons = length (polygon_shells grid).
Proof.
  intros flagged Hrange Hfix. unfold grid_to_polygons.
  destruct (antimeridian_face_indices grid) as [indices|];
    subst flagged; simpl in *.
  2:{ eexists. split; [done|]. by rewrite !length_fmap. }
  destruct (rmapM_total
              (fun i => of_option IndexError
                          ((Polygon <$> polygon_shells grid) !! i))
              indices) as [taken Htaken].
  { eapply Forall_impl; [exact Hrange|]. intros i Hi. simpl in Hi.
    destruct (lookup_lt_is_Some_2 (Polygon <$> polygon_shells grid) i)
      as [p Hp]; [by rewrite length_fmap|].
    rewrite Hp. by eexists. }
  rewrite Htaken. unfold mbind at 1, result_bind at 1.
  destruct (take_polygons _ _ _ Htaken) as [_ Hshells].
  destruct (rmapM_total (fix_polygon antimeridian_fix) taken)
    as [corrected Hcorrected].
  { apply Forall_lookup. intros k P Hk.
    destruct (Forall2_lookup_r _ _ _ _ _ Hshells Hk)
      as (i & Hi & shell & Hs & ->).
    destruct (Hfix i shell) as [g Hg];
      [by eapply list_elem_of_lookup_2 | done |].
    exists g. unfold fix_polygon. by rewrite Hg. }
  rewrite Hcorrected. unfold mbind, result_bind.
  apply rmapM_Ok in Hcorrected.
  destruct (GeometryFacts.write_back_spec indices corrected
              (GPolygon <$> (Polygon <$> polygon_shells grid)))
    as (written & Hw & Hl & _).
  { rewrite <- (Forall2_length _ _ _ Hcorrected).
    symmetry. exact (Forall2_length _ _ _ Hshells). }
  { by rewrite !length_fmap. }
  exists written. split; [exact Hw|]. by rewrite Hl, !length_fmap.
Qed.

(** With the listed indices in range, either every listed face is repaired
    and the polygons are built, or the repair rejects a listed face and its
    error is passed on. *)
Lemma grid_to_polygons_cases grid :
  let flagged := default [] (antimeridian_face_indices grid) in
  Forall (fun i => i < length (polygon_shells grid)) flagged ->
  (exists polygons,
     grid_to_polygons antimeridian_fix grid = Ok polygons
     /\ forall i shell,
          i ∈ flagged -> polygon_shells grid !! i = Some shell ->
          is_Some (antimeridian_fix (Polygon shell)))
  \/ (grid_to_polygons antimeridian_fix grid = Raise GeometryError
      /\ exists i shell,
           i ∈ flagged /\ polygon_shells grid !! i = Some shell
           /\ antimeridian_fix (Polygon shell) = None).
Proof.
  intros flagged Hrange. subst flagged. unfold grid_to_polygons.
  destruct (antimeridian_face_indices grid) as [indices|]; simpl in *.
  2:{ left. eexists. split; [done|]. by intros i shell ?%elem_of_nil. }
  destruct (rmapM_total
              (fun i => of_option IndexError
                          ((Polygon <$> polygon_shells grid) !! i))
              indices) as [taken Htaken].
  { eapply Forall_impl; [exact Hrange|]. intros j Hj. simpl in Hj.
    destruct (lookup_lt_is_Some_2 (Polygon <$> polygon_shells grid) j)
      as [p Hp]; [by rewrite length_fmap|].
    rewrite Hp. by eexists. }
  rewrite Htaken. unfold mbind at 1, result_bind at 1.
  destruct (take_polygons _ _ _ Htaken) as [_ Hshells].
  pose proof (rmapM_Raise_iff (fix_polygon antimeridian_fix) taken) as Hiff.
  destruct (rmapM (fix_polygon antimeridian_fix) taken)
    as [corrected|e] eqn:Hcorrected.
  - left. unfold mbind, result_bind.
    apply rmapM_Ok in Hcorrected.
    destruct (GeometryFacts.write_back_spec indices corrected
                (GPolygon <$> (Polygon <$> polygon_shells grid)))
      as (written & Hw & _).
    { rewrite <- (Forall2_length _ _ _ Hcorrected).
      symmetry. exact (Forall2_length _ _ _ Hshells). }
    { by rewrite !length_fmap. }
    exists written. split; [exact Hw|].
    intros i shell [k Hk]%list_elem_of_lookup Hs.
    destruct (Forall2_lookup_l _ _ _ _ _ Hshells Hk)
      as (P & HP & shell' & Hs' & ->).
    assert (shell' = shell) as -> by congruence.
    destruct (Forall2_lookup_l _ _ _ _ _ Hcorrected HP) as (g & _ & Hg).
    unfold fix_polygon in Hg.
    by destruct (antimeridian_fix (Polygon shell)).
  - right. unfold mbind, result_bind.
    assert (e = GeometryError) as ->.
    { revert Hcorrected.
      apply (rmapM_raises _ (fun e => e = GeometryError)).
      intros P e'. apply of_option_raises. }
    rewrite Hcorrected. split; [done|].
    destruct (proj1 Hiff) as (P & e' & [k Hk]%list_elem_of_lookup & Hf);
      [eauto|].
    destruct (Forall2_lookup_r _ _ _ _ _ Hshells Hk)
      as (i & Hi & shell & Hs & ->).
    exists i, shell. split; [by eapply list_elem_of_lookup_2|].
    split; [done|]. unfold fix_polygon in Hf.
    by destruct (antimeridian_fix (Polygon shell)).
Qed.

(** X9.  How [grid_to_polygons] ends.  It fails with [IndexError] exactly
    when a listed face index is not the position of a shell, and with the
    error of the repair exactly when the listed indices are in range and the
    repair rejects the polygon of a listed face; it returns exactly when the
    listed indices are in range and every listed face is repaired.  The faces
    that are not listed play no part. *)
Theorem grid_to_polygons_outcome grid :
  let flagged := default [] (antimeridian_face_indices grid) in
  let in_range :=
    Forall (fun i => i < length (polygon_shells grid)) flagged in
  (grid_to_polygons antimeridian_fix grid = Raise IndexError
   <-> ~ in_range)
  /\ (grid_to_polygons antimeridian_fix grid = Raise GeometryError
      <-> in_range
          /\ exists i shell,
               i ∈ flagged /\ polygon_shells grid !! i = Some shell
               /\ antimeridian_fix (Polygon shell) = None)
  /\ ((exists polygons,
         grid_to_polygons antimeridian_fix grid = Ok polygons)
      <-> in_range
          /\ forall i shell,
               i ∈ flagged -> polygon_shells grid !! i = Some shell ->
               is_Some (antimeridian_fix (Polygon shell))).
Proof.
  intros flagged in_range.
  destruct (decide in_range) as [Hrange | Hrange].
  2:{ (* a listed index is out of range *)
    assert (Hraise : grid_to_polygons antimeridian_fix grid
                     = Raise IndexError).
    { subst in_range flagged. unfold grid_to_polygons.
      destruct (antimeridian_face_indices grid) as [indices|]; simpl in *;
        [|destruct Hrange; constructor].
      destruct (rmapM _ indices) as [taken|e] eqn:Htaken.
      - by destruct (take_polygons _ _ _ Htaken) as [? _].
      - simpl. f_equal. revert Htaken.
        apply (rmapM_raises _ (fun e => e = IndexError)).
        intros i e'. apply of_option_raises. }
    rewrite Hraise. split; [done|].
    split; [split; [discriminate | tauto]|].
    split; [by intros [? ?] | tauto]. }
  destruct (grid_to_polygons_cases grid Hrange)
    as [(polygons & Hrun & Hall) | (Hraise & i & shell & Hi & Hs & Hnone)].
  - (* every listed face is repaired *)
    rewrite Hrun.
    split; [split; [discriminate | tauto]|].
    split; [|split; eauto].
    split; [discriminate|]. intros (_ & i & shell & Hi & Hs & Hnone).
    destruct (Hall i shell Hi Hs) as [g Hg]. congruence.
  - (* the repair rejects a listed face *)
    rewrite Hraise. split; [split; [discriminate | tauto]|].
    split; [split; [eauto 7 | done]|].
    split; [by intros [? ?]|]. intros [_ Hall].
    destruct (Hall i shell Hi Hs) as [g Hg]. congruence.
Qed.


End Polygons.

(** X11.  [grid_to_polygons] consults the repair routine at the listed faces
    only: two repair routines that agree on the polygons of the listed faces
    give the same result, the same error included, however they differ on the
    other faces. *)
Theorem grid_to_polygons_repairs_listed_faces_only
    (fix1 fix2 : polygon -> option geometry) grid :
  (forall i shell,
     i ∈ default [] (antimeridian_face_indices grid) ->
     polygon_shells grid !! i = Some shell ->
     fix1 (Polygon shell) = fix2 (Polygon shell)) ->
  grid_to_polygons fix1 grid = grid_to_polygons fix2 grid.
Proof.
  intros Hagree. unfold grid_to_polygons.
  destruct (antimeridian_face_indices grid) as [indices|]; [|done].
  simpl in Hagree.
  destruct (rmapM _ indices) as [taken|e] eqn:Htaken; [|done].
  simpl. destruct (take_polygons _ _ _ Htaken) as [_ Hshells].
  rewrite (rmapM_ext_Forall (fix_polygon fix1) (fix_polygon fix2) taken);
    [done|].
  apply Forall_lookup. intros k P Hk.
  destruct (Forall2_lookup_r _ _ _ _ _ Hshells Hk)
    as (i & Hi & shell & Hs & ->).
  unfold fix_polygon. rewrite (Hagree i shell); [done | | done].
  by eapply list_elem_of_lookup_2.
Qed.

Lemma corrected_polygon_shells_aligned_witness :
  exists corrected_polygon_shells original_to_corrected,
    _build_corrected_polygon_shells seam_split (polygon_shells dateline_grid)
      = Ok (corrected_polygon_shells, original_to_corrected)
    /\ length original_to_corrected = length corrected_polygon_shells
    /\ (forall j ring,
          corrected_polygon_shells !! j = Some ring ->
          exists i shell g part,
            original_to_corrected !! j = Some i
            /\ polygon_shells dateline_grid !! i = Some shell
            /\ seam_split (Polygon shell) = Some g
            /\ part ∈ parts g
            /\ ring = exterior part)
    /\ forall j1 j2 i1 i2,
         j1 <= j2 ->
         original_to_corrected !! j1 = Some i1 ->
         original_to_corrected !! j2 = Some i2 ->
         i1 <= i2.
Proof.
  apply (corrected_polygon_shells_aligned seam_split
           (polygon_shells dateline_grid)).
  intros shell _.
  destruct (GeometryExamples.seam_split_parts (Polygon shell))
    as (g & Hg & _).
  rewrite Hg. by eexists.
Defined.

(** A repair routine that handles crossing faces only does for
    [grid_to_polygons], though not for the corrected shells. *)
Lemma grid_to_polygons_repairs_listed_faces_only_witness :
  grid_to_polygons seam_split dateline_grid
  = grid_to_polygons
      (fun P => if crosses_antimeridian (exterior P)
                then seam_split P else None)
      dateline_grid.
Proof.
  apply (grid_to_polygons_repairs_listed_faces_only seam_split
           (fun P => if crosses_antimeridian (exterior P)
                     then seam_split P else None)
           dateline_grid).
  intros i shell Hi Hs. simpl in Hi.
  apply list_elem_of_singleton in Hi. subst i.
  vm_compute in Hs. injection Hs as <-. reflexivity.
Defined.

Example crossing_only_repair_fails_corrected_shells :
  _build_corrected_polygon_shells
    (fun P => if crosses_antimeridian (exterior P)
              then seam_split P else None)
    (polygon_shells dateline_grid)
  = Raise GeometryError.
Proof. vm_compute. reflexivity. Qed.

Example dateline_indices_as_built :
  antimeridian_face_indices dateline_grid
  = Some (data (_build_antimeridian_face_indices dateline_grid)).
Proof. vm_compute. reflexivity. Qed.


End AntimeridianResults.


(** * Further properties of the table export *)

Module TableResults.
Import DataArray.

Section Table.

Context {V : Type}.
Variable antimeridian_fix : polygon -> option geometry.

(** X12.  Without [exclude_antimeridian] the table has one row per face: its
    geometry column holds the polygons of [grid_to_polygons], the corrected
    geometry at the listed faces, and its data column, named after the
    variable or ["var"], holds every value of the variable in face order.
    This needs a variable of at most one dimension with one value per face,
    and a mesh whose listed faces are in range and repaired. *)
Theorem to_geodataframe_all_faces
    (self : @UxDataArray V) (override cache : bool) :
  let grid := uxgrid self in
  let flagged := default [] (antimeridian_face_indices grid) in
  ndim (values self) <= 1 ->
  np_size (values self) = n_face grid ->
  well_formed (values self) ->
  length (polygon_shells grid) = n_face grid ->
  Forall (fun i => i < n_face grid) flagged ->
  (forall i shell, i ∈ flagged -> polygon_shells grid !! i = Some shell ->
     is_Some (antimeridian_fix (Polygon shell))) ->
  exists gdf,
    to_geodataframe antimeridian_fix self override cache false = Ok gdf
    /\ Geometry.grid_to_polygons antimeridian_fix grid
       = Ok (gdf_geometry gdf)
    /\ get_column gdf (default "var" (name self))
       = Some (data (values self))
    /\ length (gdf_geometry gdf) = n_face grid
    /\ length (data (values self)) = n_face grid.
Proof.
  intros grid flagged Hnd Hsize Hwf Hshells Hrange Hfix.
  subst grid flagged. unfold well_formed in Hwf.
  destruct (AntimeridianResults.grid_to_polygons_runs antimeridian_fix
              (uxgrid self)) as (polygons & Hrun & Hlen);
    [by rewrite Hshells | done |].
  unfold to_geodataframe.
  destruct (Nat.ltb_spec 1 (ndim (values self))); [lia|].
  rewrite Hsize, Nat.eqb_refl.
  unfold grid_to_geodataframe, _grid_to_polygon_geodataframe.
  rewrite Hrun. unfold mbind, result_bind, set_column. simpl.
  rewrite Hwf, Hsize, Hlen, Hshells, Nat.eqb_refl.
  eexists. split; [reflexivity|]. simpl.
  split; [done|]. unfold get_column. simpl.
  rewrite decide_True by done. simpl.
  split; [done|]. split; lia.
Qed.

End Table.

Lemma to_geodataframe_all_faces_witness :
  exists gdf,
    to_geodataframe seam_split dateline_face_array false true false = Ok gdf
    /\ Geometry.grid_to_polygons seam_split dateline_grid
       = Ok (gdf_geometry gdf)
    /\ get_column gdf (default "var" (name dateline_face_array))
       = Some (data (values dateline_face_array))
    /\ length (gdf_geometry gdf) = n_face dateline_grid
    /\ length (data (values dateline_face_array)) = n_face dateline_grid.
Proof.
  apply (to_geodataframe_all_faces seam_split dateline_face_array
           false true).
  - unfold ndim. simpl. lia.
  - reflexivity.
  - reflexivity.
  - reflexivity.
  - repeat constructor.
  - intros i shell _ _.
    destruct (GeometryExamples.seam_split_parts (Polygon shell))
      as (g & Hg & _).
    rewrite Hg. by eexists.
Defined.

End TableResults.


(** * The plotting backend *)

Module PlotFacts.
Import Plot.

Lemma collapse_snoc l x :
  collapse (l ++ [x])
  = if bool_decide (last l = Some x) then collapse l else collapse l ++ [x].
Proof.
  induction l as [|a [|b l] IH]; [done | |].
  - simpl. destruct (decide (a = x)) as [-> | Hne].
    + by rewrite !bool_decide_eq_true_2.
    + rewrite !bool_decide_eq_false_2; [done | congruence | done].
  - change (collapse ((a :: b :: l) ++ [x]))
      with (if bool_decide (a = b) then collapse ((b :: l) ++ [x])
            else a :: collapse ((b :: l) ++ [x])).
    change (collapse (a :: b :: l))
      with (if bool_decide (a = b) then collapse (b :: l)
            else a :: collapse (b :: l)).
    change (last (a :: b :: l)) with (last (b :: l)).
    rewrite IH. by repeat case_bool_decide.
Qed.

(** One more call of [assign], on an object that holds the last accepted
    request and with a log that holds the accepted requests without their
    immediate repetitions. *)
Lemma assign_step accepted request :
  assign {| backend := last accepted |} request
  = ({| backend := last (accepted ++ filter supported [request]) |},
     drop (length (collapse accepted))
          (collapse (accepted ++ filter supported [request])),
     if bool_decide (supported request) then None
     else Some (UnsupportedBackend request)).
Proof.
  unfold assign, supported.
  rewrite filter_cons, filter_nil.
  destruct (decide (request ∈ ["bokeh"; "matplotlib"])) as [Hin | Hout].
  - rewrite bool_decide_eq_false_2 by tauto.
    rewrite (bool_decide_eq_true_2 _ Hin).
    rewrite last_snoc, collapse_snoc. simpl.
    destruct (decide (last accepted = Some request)) as [Heq | Hne].
    + rewrite bool_decide_eq_false_2 by (intros H; by apply H).
      rewrite (bool_decide_eq_true_2 _ Heq), drop_all. by rewrite Heq.
    + rewrite bool_decide_eq_true_2 by congruence.
      rewrite (bool_decide_eq_false_2 _ Hne).
      by rewrite drop_app_length.
  - rewrite (bool_decide_eq_true_2 _ Hout).
    rewrite (bool_decide_eq_false_2 _ Hout).
    by rewrite app_nil_r, drop_all.
Qed.

(** X13.  What a sequence of calls of [assign] leaves behind, unsupported
    requests included.  The object records the last supported request, or
    nothing if there was none.  [hv.extension] has been called with the
    supported requests in their order, a request that repeats the one
    accepted just before it being skipped; so it is never called with an
    unsupported name, and never twice in a row with the same name. *)
Theorem assign_session requests :
  session requests
  = ({| backend := last (filter supported requests) |},
     collapse (filter supported requests)).
Proof.
  unfold session.
  induction requests as [|request requests IH] using rev_ind; [done|].
  rewrite foldl_snoc, IH, assign_step, filter_app.
  f_equal.
  set (accepted := filter supported requests).
  set (next := filter supported [request]).
  assert (Hprefix : exists more, collapse (accepted ++ next)
                                 = collapse accepted ++ more).
  { subst next. rewrite filter_cons, filter_nil.
    destruct (decide (supported request)).
    - rewrite collapse_snoc. case_bool_decide; [exists [] | by eexists].
      by rewrite app_nil_r.
    - exists []. by rewrite !app_nil_r. }
  destruct Hprefix as [more ->]. by rewrite drop_app_length.
Qed.

End PlotFacts.


(** * The grid-aware operators of the data array *)

Lemma length_removelast {A} (l : list A) :
  length (removelast l) = length l - 1.
Proof.
  destruct l as [|a l] using rev_ind; [done|].
  rewrite removelast_last, length_app. simpl. lia.
Qed.

Module DataArrayOpsFacts.
Import DataArrayOps.

(** A sum of products of numbers that are not negative is not negative. *)
Lemma dot_nonnegative w row :
  Forall (fun a => (0 <= a)%Q) w -> Forall (fun x => (0 <= x)%Q) row ->
  (0 <= dot w row)%Q.
Proof.
  unfold dot. intros Hw. revert row.
  induction Hw as [|a w Ha _ IH]; intros row Hrow; simpl; [apply Qle_refl|].
  destruct Hrow as [|x row Hx Hrow]; simpl; [apply Qle_refl|].
  pose proof (Qmult_le_0_compat a x Ha Hx) as Hax.
  pose proof (IH row Hrow) as Hrest. lra.
Qed.

(** The rows a buffer is cut into hold entries of the buffer. *)
Lemma reshape_Forall {A} (P : A -> Prop) szs l :
  Forall P l -> Forall (Forall P) (reshape szs l).
Proof.
  revert l. induction szs as [|sz szs IH]; intros l Hl; simpl;
    constructor; [by apply Forall_take | by apply IH, Forall_drop].
Qed.

(** [l[-1] = x] replaces the last entry of a list that has one. *)
Lemma set_last_Returns {A} (l : list A) x :
  l <> [] -> set_last l x = Returns (removelast l ++ [x]).
Proof.
  destruct l as [|a l _] using rev_ind; [done|]. intros _.
  unfold set_last. destruct (l ++ [a]) eqn:Hl.
  { by destruct l. }
  rewrite <- Hl, removelast_last, length_app. simpl.
  replace (length l + 1 - 1) with (length l + 0) by lia.
  by rewrite insert_app_r.
Qed.

Section OperatorFacts.

Context {Coordinates : Type}.
Variable xarray_accepts :
  option Coordinates -> list string -> list nat -> bool.
Variable compute_face_areas : Grid -> string -> nat -> list Q * list Q.

(** The integral of a field with one value per face, level by level. *)
Lemma integrate_runs (self : @UxDataArray Coordinates)
    quadrature_rule order face_areas face_jacobian :
  coherent self ->
  last (shape (values self)) = Some (n_face (uxgrid self)) ->
  compute_face_areas (uxgrid self) quadrature_rule order
    = (face_areas, face_jacobian) ->
  length face_areas = n_face (uxgrid self) ->
  xarray_accepts None (removelast (dims self))
                 (removelast (shape (values self))) = true ->
  integrate xarray_accepts compute_face_areas self quadrature_rule order
  = Returns
      {| values :=
           NdArray (removelast (shape (values self)))
             (dot face_areas
                <$> reshape
                      (replicate (product (removelast (shape (values self))))
                                 (n_face (uxgrid self)))
                      (data (values self)));
         dims := removelast (dims self);
         name := name self;
         coords := None;
         uxgrid := uxgrid self |}.
Proof.
  intros [Hdims _] Hlast Hareas Hlen Hok.
  unfold integrate, trailing_dim. rewrite Hlast. simpl.
  rewrite Nat.eqb_refl, Hareas. unfold einsum_i_ellipsis_i.
  rewrite Hlast, Hlen, Nat.eqb_refl. simpl.
  unfold new_UxDataArray, ndim. simpl.
  rewrite !length_removelast, Hdims. unfold ndim.
  by rewrite Nat.eqb_refl, Hok.
Qed.


(** X14.  Which data [integrate] refuses.  A zero-dimensional variable has no
    final dimension to look at.  Otherwise the final dimension is compared
    with the face count first: data with as many entries as the mesh has
    faces is never refused as node or edge data, also on a mesh that has as
    many nodes or edges as faces.  Data that is not sized to the faces is
    refused as node data if it is sized to the nodes, else as edge data if it
    is sized to the edges, else as fitting nothing. *)
Theorem integrate_refusals (self : @UxDataArray Coordinates)
    quadrature_rule order :
  let outcome :=
    integrate xarray_accepts compute_face_areas self quadrature_rule order in
  let grid := uxgrid self in
  (shape (values self) = [] -> outcome = Raises (Inner IndexError))
  /\ forall n,
       last (shape (values self)) = Some n ->
       (n = n_face grid ->
        outcome <> Raises (OpValueError NodeIntegration)
        /\ outcome <> Raises (OpValueError EdgeIntegration)
        /\ outcome <> Raises (OpValueError FinalDimensionMismatch))
       /\ (n <> n_face grid -> n = n_node grid ->
           outcome = Raises (OpValueError NodeIntegration))
       /\ (n <> n_face grid -> n <> n_node grid -> n = n_edge grid ->
           outcome = Raises (OpValueError EdgeIntegration))
       /\ (n <> n_face grid -> n <> n_node grid -> n <> n_edge grid ->
           outcome = Raises (OpValueError FinalDimensionMismatch)).
Proof.
  intros outcome grid. subst outcome grid. unfold integrate, trailing_dim.
  split; [by intros ->|]. intros n ->. simpl.
  destruct (Nat.eqb_spec n (n_face (uxgrid self))) as [Hf | Hf].
  - split; [|repeat split; intros; lia]. intros _.
    destruct (compute_face_areas _ _ _) as [face_areas face_jacobian].
    unfold einsum_i_ellipsis_i, new_UxDataArray.
    repeat case_match; simpl; repeat case_match; done.
  - split; [intros; lia|].
    destruct (Nat.eqb_spec n (n_node (uxgrid self)));
      [repeat split; intros; try lia; done|].
    destruct (Nat.eqb_spec n (n_edge (uxgrid self)));
      repeat split; intros; try lia; done.
Qed.

(** X15.  The integral of a field that is nowhere negative, over faces
    none of which has a negative area, is nowhere negative: every level of
    the result, a sum of products of an area and a value, is at least
    zero. *)
Theorem integrate_nonnegative (self : @UxDataArray Coordinates)
    quadrature_rule order :
  let grid := uxgrid self in
  let face_areas := fst (compute_face_areas grid quadrature_rule order) in
  coherent self ->
  last (shape (values self)) = Some (n_face grid) ->
  length face_areas = n_face grid ->
  xarray_accepts None (removelast (dims self))
                 (removelast (shape (values self))) = true ->
  Forall (fun a => (0 <= a)%Q) face_areas ->
  Forall (fun x => (0 <= x)%Q) (data (values self)) ->
  exists integral,
    integrate xarray_accepts compute_face_areas self quadrature_rule order
      = Returns integral
    /\ length (data (values integral))
       = product (removelast (shape (values self)))
    /\ Forall (fun x => (0 <= x)%Q) (data (values integral)).
Proof.
  intros grid face_areas Hcoh Hlast Hlen Hok Hareas Hdata.
  subst grid face_areas.
  destruct (compute_face_areas (uxgrid self) quadrature_rule order)
    as [face_areas face_jacobian] eqn:Hcompute.
  simpl in *.
  rewrite (integrate_runs self _ _ face_areas face_jacobian) by done.
  eexists. split; [reflexivity|]. simpl.
  split; [by rewrite length_fmap, length_reshape, length_replicate|].
  apply Forall_fmap.
  eapply Forall_impl; [by apply reshape_Forall|].
  intros row Hrow. by apply dot_nonnegative.
Qed.

(** X16.  What [integrate] returns for data with one value per face: an
    array on the same mesh and under the same name, without coordinates,
    whose shape and dimension names are those of the data without the last
    one, with one value per level.  The labels of the result fit its data
    again; one-dimensional data gives a zero-dimensional result without
    dimension names. *)
Theorem integrate_labels (self : @UxDataArray Coordinates)
    quadrature_rule order :
  let grid := uxgrid self in
  let face_areas := fst (compute_face_areas grid quadrature_rule order) in
  coherent self ->
  last (shape (values self)) = Some (n_face grid) ->
  length face_areas = n_face grid ->
  xarray_accepts None (removelast (dims self))
                 (removelast (shape (values self))) = true ->
  exists integral,
    integrate xarray_accepts compute_face_areas self quadrature_rule order
      = Returns integral
    /\ shape (values integral) = removelast (shape (values self))
    /\ dims integral = removelast (dims self)
    /\ name integral = name self
    /\ coords integral = None
    /\ uxgrid integral = grid
    /\ coherent integral
    /\ (ndim (values self) = 1 ->
        shape (values integral) = [] /\ dims integral = []
        /\ length (data (values integral)) = 1).
Proof.
  intros grid face_areas Hcoh Hlast Hlen Hok. subst grid face_areas.
  destruct (compute_face_areas (uxgrid self) quadrature_rule order)
    as [face_areas face_jacobian] eqn:Hcompute.
  simpl in *.
  rewrite (integrate_runs self _ _ face_areas face_jacobian) by done.
  eexists. split; [reflexivity|]. simpl. do 5 (split; [done|]).
  assert (Hsize : length
            (dot face_areas
               <$> reshape
                     (replicate (product (removelast (shape (values self))))
                                (n_face (uxgrid self)))
                     (data (values self)))
          = product (removelast (shape (values self)))).
  { by rewrite length_fmap, length_reshape, length_replicate. }
  destruct Hcoh as [Hdims Hwf]. split.
  - split; simpl.
    + unfold ndim in *. simpl. rewrite !length_removelast. lia.
    + unfold well_formed, np_size. simpl. exact Hsize.
  - intros Hone. unfold ndim in Hone, Hdims. rewrite Hone in Hdims.
    rewrite Hsize.
    destruct (shape (values self)) as [|d [|]]; try done.
    by destruct (dims self) as [|l [|]].
Qed.

End OperatorFacts.

Section DifferenceFacts.

Context {Coordinates : Type}.
Variable xarray_accepts :
  option Coordinates -> list string -> list nat -> bool.
Variable edge_face_connectivity : Grid -> list (list Z).
Variable edge_node_connectivity : Grid -> list (list Z).
Variable edge_face_distances : Grid -> list Q.
Variable _calculate_grad_on_edge_from_faces :
  ndarray Q -> list (list Z) -> list Q -> nat -> bool -> ndarray Q.
Variable _calculate_edge_face_difference :
  ndarray Q -> list (list Z) -> nat -> ndarray Q.
Variable _calculate_edge_node_difference :
  ndarray Q -> list (list Z) -> ndarray Q.

(** The labelled array the constructor returns. *)
Lemma new_UxDataArray_Returns data grid dims name
    (coords : option Coordinates) F :
  new_UxDataArray xarray_accepts data grid dims name coords = Returns F ->
  F = {| values := data; dims := dims; name := name;
         coords := coords; uxgrid := grid |}
  /\ length dims = ndim data.
Proof.
  unfold new_UxDataArray.
  destruct (Nat.eqb_spec (length dims) (ndim data)); [|discriminate].
  destruct (xarray_accepts coords dims (shape data)); [|discriminate].
  by intros [= <-].
Qed.

Lemma new_UxDataArray_accepted data grid dims name
    (coords : option Coordinates) :
  length dims = ndim data ->
  xarray_accepts coords dims (shape data) = true ->
  new_UxDataArray xarray_accepts data grid dims name coords
  = Returns {| values := data; dims := dims; name := name;
               coords := coords; uxgrid := grid |}.
Proof.
  intros Hlen Hok. unfold new_UxDataArray.
  by rewrite Hlen, Nat.eqb_refl, Hok.
Qed.

Lemma valid_destination destination :
  destination ∈ ["node"; "edge"; "face"] ->
  destination = "node" \/ destination = "edge" \/ destination = "face".
Proof. rewrite !elem_of_cons, elem_of_nil. tauto. Qed.

(** X17.  What [difference] refuses.  A destination other than node, edge or
    face is refused as invalid, whatever the data.  With a valid destination,
    data with a face dimension can only be taken to the edges, and so can
    data with a node dimension and no face dimension; data with an edge
    dimension only gets the not-implemented error, and data with none of the
    three dimensions the unnamed one.  So a result is only ever returned for
    the destination edge. *)
Theorem difference_refusals (self : @UxDataArray Coordinates) destination :
  let outcome :=
    difference xarray_accepts edge_face_connectivity edge_node_connectivity
      _calculate_edge_face_difference _calculate_edge_node_difference
      self destination in
  let face := "n_face" ∈ dims self in
  let node := "n_node" ∈ dims self in
  let edge := "n_edge" ∈ dims self in
  (destination ∉ ["node"; "edge"; "face"] ->
   outcome = Raises (OpValueError InvalidDestination))
  /\ (face -> destination = "face" ->
      outcome = Raises (OpValueError FaceToFace))
  /\ (face -> destination = "node" ->
      outcome = Raises (OpValueError FaceToNode))
  /\ (~ face -> node -> destination = "node" ->
      outcome = Raises (OpValueError NodeToNode))
  /\ (~ face -> node -> destination = "face" ->
      outcome = Raises (OpValueError NodeToFace))
  /\ (destination ∈ ["node"; "edge"; "face"] -> ~ face -> ~ node -> edge ->
      outcome = Raises OpNotImplementedError)
  /\ (destination ∈ ["node"; "edge"; "face"] ->
      ~ face -> ~ node -> ~ edge ->
      outcome = Raises (OpValueError Todo))
  /\ forall result,
       outcome = Returns result ->
       destination = "edge" /\ (face \/ node).
Proof.
  intros outcome face node edge. subst outcome face node edge.
  unfold difference, _face_centered, _node_centered, _edge_centered.
  destruct (decide (destination ∈ ["node"; "edge"; "face"])) as [Hd | Hd].
  2:{ rewrite (bool_decide_eq_true_2 _ Hd).
      split; [done|]. repeat split; try done; intros; subst;
        exfalso; apply Hd; rewrite !elem_of_cons; tauto. }
  rewrite bool_decide_eq_false_2 by tauto.
  split; [tauto|].
  destruct (decide ("n_face" ∈ dims self)) as [Hf | Hf].
  - rewrite (bool_decide_eq_true_2 _ Hf).
    apply valid_destination in Hd as [-> | [-> | ->]]; simpl;
      repeat split; try done; try tauto; auto.
  - rewrite (bool_decide_eq_false_2 _ Hf).
    destruct (decide ("n_node" ∈ dims self)) as [Hn | Hn].
    + rewrite (bool_decide_eq_true_2 _ Hn).
      apply valid_destination in Hd as [-> | [-> | ->]]; simpl;
        repeat split; try done; try tauto; auto.
    + rewrite (bool_decide_eq_false_2 _ Hn).
      destruct (decide ("n_edge" ∈ dims self)) as [He | He].
      * rewrite (bool_decide_eq_true_2 _ He). simpl.
        repeat split; try done; tauto.
      * rewrite (bool_decide_eq_false_2 _ He). simpl.
        repeat split; try done; tauto.
Qed.


(** Replacing the last entry removes a label that occurs nowhere else and
    puts the new one in. *)
Lemma relabelled_last (dims : list string) old new :
  old <> new -> old ∉ removelast dims ->
  (old ∉ removelast dims ++ [new]) /\ (new ∈ removelast dims ++ [new]).
Proof.
  intros Hne Hout. rewrite !elem_of_app, !list_elem_of_singleton.
  split; [|by right]. intros [? | ?]; [done | by apply Hne].
Qed.

(** X18.  The difference taken to the edges.  For data with a face dimension,
    or with a node dimension and no face dimension, [difference] onto the
    edges returns the output of the kernel for that centring, as long as the
    output has as many axes as the data has dimension names and xarray
    accepts the labels.  The result is on the same mesh, carries no
    coordinates, has the dimension names of the data with the last one
    replaced by ["n_edge"], and is named after the variable and the kind of
    difference.  A data array whose only element dimension is its last one
    therefore gives a result with an edge dimension and neither a face nor a
    node dimension, of which neither a difference nor a gradient can be
    taken: the first is not implemented, the second is refused. *)
Theorem difference_onto_edges (self : @UxDataArray Coordinates) :
  let outcome :=
    difference xarray_accepts edge_face_connectivity edge_node_connectivity
      _calculate_edge_face_difference _calculate_edge_node_difference
      self "edge" in
  let kernel :=
    if bool_decide ("n_face" ∈ dims self) then
      _calculate_edge_face_difference
        (values self) (edge_face_connectivity (uxgrid self))
        (n_edge (uxgrid self))
    else
      _calculate_edge_node_difference
        (values self) (edge_node_connectivity (uxgrid self)) in
  let kind :=
    if bool_decide ("n_face" ∈ dims self) then "edge_face_difference"
    else "edge_node_difference" in
  let relabelled := removelast (dims self) ++ ["n_edge"] in
  "n_face" ∈ dims self \/ "n_node" ∈ dims self ->
  length (dims self) = ndim kernel ->
  xarray_accepts None relabelled (shape kernel) = true ->
  exists result,
    outcome = Returns result
    /\ values result = kernel
    /\ dims result = relabelled
    /\ name result
       = Some (match name self with
               | Some name => ((name ++ "_") ++ kind)%string
               | None => (" " ++ kind)%string
               end)
    /\ coords result = None
    /\ uxgrid result = uxgrid self
    /\ ("n_face" ∉ removelast (dims self) ->
        "n_node" ∉ removelast (dims self) ->
        (forall destination,
           destination ∈ ["node"; "edge"; "face"] ->
           difference xarray_accepts edge_face_connectivity
             edge_node_connectivity _calculate_edge_face_difference
             _calculate_edge_node_difference result destination
           = Raises OpNotImplementedError)
        /\ forall normalize use_magnitude,
             snd (gradient xarray_accepts edge_face_connectivity
                    edge_face_distances _calculate_grad_on_edge_from_faces
                    result normalize use_magnitude)
             = Raises (OpValueError GradientNotFaceCentered)).
Proof.
  intros outcome kernel kind relabelled Hcentred Hlen Hok.
  assert (Hne : dims self <> []).
  { destruct Hcentred as [H | H]; by apply elem_of_not_nil in H. }
  assert (Hrun : outcome
    = Returns {| values := kernel; dims := relabelled;
                 name := Some (match name self with
                               | Some name => ((name ++ "_") ++ kind)%string
                               | None => (" " ++ kind)%string
                               end);
                 coords := None; uxgrid := uxgrid self |}).
  { subst outcome kernel kind relabelled.
    unfold difference, _face_centered, _node_centered. simpl.
    rewrite (set_last_Returns _ _ Hne).
    destruct (decide ("n_face" ∈ dims self)) as [Hf | Hf].
    - rewrite (bool_decide_eq_true_2 _ Hf) in *. simpl.
      rewrite new_UxDataArray_accepted;
        [|by rewrite length_app, length_removelast; simpl;
             destruct (dims self); simpl in *; [done | lia] | done].
      by destruct (name self).
    - rewrite (bool_decide_eq_false_2 _ Hf) in *.
      destruct Hcentred as [? | Hn]; [done|].
      rewrite (bool_decide_eq_true_2 _ Hn). simpl.
      rewrite new_UxDataArray_accepted;
        [|by rewrite length_app, length_removelast; simpl;
             destruct (dims self); simpl in *; [done | lia] | done].
      by destruct (name self). }
  eexists. split; [exact Hrun|]. simpl. do 5 (split; [done|]).
  intros Hface Hnode.
  destruct (relabelled_last (dims self) "n_face" "n_edge") as [Hf He];
    [done | done |].
  destruct (relabelled_last (dims self) "n_node" "n_edge") as [Hn _];
    [done | done |].
  split.
  - intros destination Hd.
    unfold difference, _face_centered, _node_centered, _edge_centered.
    simpl. fold relabelled.
    rewrite bool_decide_eq_false_2 by tauto.
    rewrite (bool_decide_eq_false_2 _ Hf), (bool_decide_eq_false_2 _ Hn).
    by rewrite (bool_decide_eq_true_2 _ He).
  - intros normalize use_magnitude. unfold gradient, _face_centered. simpl.
    fold relabelled. by rewrite (bool_decide_eq_false_2 _ Hf).
Qed.

(** X19.  The gradient.  It is refused, without a warning, for data that has
    no face dimension.  For data that has one, asking for the signed gradient
    ([use_magnitude] false) changes nothing but for one warning: the outcome
    is the same as for the magnitude.  The result, returned when the output
    of the kernel has as many axes as the data has dimension names and xarray
    accepts the labels, is that output on the same mesh, with the last
    dimension name replaced by ["n_edge"], named after the variable with
    ["_grad"] appended, or ["grad"] for an unnamed one. *)
Theorem gradient_outcome (self : @UxDataArray Coordinates) normalize :
  let gradient :=
    gradient xarray_accepts edge_face_connectivity edge_face_distances
             _calculate_grad_on_edge_from_faces self normalize in
  let kernel :=
    _calculate_grad_on_edge_from_faces
      (values self) (edge_face_connectivity (uxgrid self))
      (edge_face_distances (uxgrid self)) (n_edge (uxgrid self))
      normalize in
  let relabelled := removelast (dims self) ++ ["n_edge"] in
  ("n_face" ∉ dims self ->
   forall use_magnitude,
     gradient use_magnitude
     = ([], Raises (OpValueError GradientNotFaceCentered)))
  /\ snd (gradient false) = snd (gradient true)
  /\ fst (gradient true) = []
  /\ ("n_face" ∈ dims self -> length (fst (gradient false)) = 1)
  /\ ("n_face" ∈ dims self ->
      length (dims self) = ndim kernel ->
      xarray_accepts None relabelled (shape kernel) = true ->
      snd (gradient true)
      = Returns {| values := kernel;
                   dims := relabelled;
                   name := Some (match name self with
                                 | Some name => (name ++ "_grad")%string
                                 | None => "grad"
                                 end);
                   coords := None;
                   uxgrid := uxgrid self |}).
Proof.
  intros gradient kernel relabelled. subst gradient kernel relabelled.
  unfold DataArrayOps.gradient, _face_centered.
  destruct (decide ("n_face" ∈ dims self)) as [Hf | Hf].
  - rewrite (bool_decide_eq_true_2 _ Hf). simpl.
    split; [done|]. do 3 (split; [done|]).
    intros _ Hlen Hok.
    rewrite (set_last_Returns _ _ (elem_of_not_nil _ _ Hf)). simpl.
    apply new_UxDataArray_accepted; [|done].
    rewrite length_app, length_removelast. simpl.
    apply elem_of_not_nil in Hf. destruct (dims self); simpl in *;
      [done | lia].
  - rewrite (bool_decide_eq_false_2 _ Hf). simpl. by repeat split.
Qed.

End DifferenceFacts.


Section PolyCollectionFacts.

Context {Coordinates Projection : Type}.
Variable grid_to_polycollection :
  Grid -> bool -> bool -> string -> option Projection ->
  attempt (PolyCollection * list nat).

(** X20.  The colours of the polygons.  For a one-dimensional variable with a
    face dimension, [to_polycollection] returns the collection of the mesh
    with its polygons unchanged and a colour array that has one entry for
    every polygon the index map lists: the value of the variable at the face
    the map names for that polygon, so the parts of a split face all get the
    value of that face.  With an empty index map the colour array is the
    variable's values as they are.  The index map is handed back only if
    [return_indices] is set. *)
Theorem to_polycollection_colours (self : @UxDataArray Coordinates)
    periodic_elements (projection : option Projection)
    (return_indices cache override : bool) collection faces n :
  shape (values self) = [n] ->
  well_formed (values self) ->
  "n_face" ∈ dims self ->
  grid_to_polycollection (uxgrid self) override cache periodic_elements
                         projection = Returns (collection, faces) ->
  Forall (fun i => i < n) faces ->
  exists shaded colours,
    to_polycollection grid_to_polycollection self periodic_elements
                      projection return_indices cache override
      = Returns (shaded, if return_indices then Some faces else None)
    /\ verts shaded = verts collection
    /\ array shaded = Some colours
    /\ (faces = [] -> colours = values self)
    /\ (faces <> [] ->
        shape colours = [length faces]
        /\ length (data colours) = length faces
        /\ forall j i,
             faces !! j = Some i ->
             data colours !! j = data (values self) !! i).
Proof.
  intros Hshape Hwf Hface Hgrid Hrange.
  unfold to_polycollection, _face_centered, ndim.
  rewrite Hshape, (bool_decide_eq_true_2 _ Hface), Hgrid. simpl.
  destruct faces as [|i0 faces].
  - simpl. do 2 eexists.
    split; [by destruct return_indices|]. by repeat split.
  - set (listed := i0 :: faces) in *.
    change (0 <? length listed) with true. cbv iota.
    assert (Hlast : last (shape (values self)) = Some n)
      by by rewrite Hshape.
    destruct (np_take_last_Ok (values self)
                (NdArray [length listed] listed) n Hwf Hlast Hrange)
      as [colours Hcolours].
    rewrite Hcolours. simpl.
    exists (set_array collection colours), colours.
    split; [by destruct return_indices|]. do 2 (split; [done|]).
    split; [done|]. intros _.
    pose proof (np_take_last_shape _ _ _ Hcolours) as Hs.
    rewrite Hshape in Hs. simpl in Hs.
    destruct (np_take_last_lookup _ _ _ _ Hwf Hlast Hcolours) as [Hl Hv].
    rewrite Hshape in Hl, Hv. simpl in Hl, Hv.
    split; [done|]. split; [lia|]. intros j i Hj.
    destruct (Hv 0 j i) as [_ Hji]; [lia | done |].
    simpl in Hji. exact Hji.
Qed.

End PolyCollectionFacts.

Section RemapWrapperFacts.

Context {Coordinates : Type}.
Variable xarray_accepts :
  option Coordinates -> list string -> list nat -> bool.
Variable tree_query : BallTree -> list (list Q) -> nat -> ndarray nat.

(** The dimension name the wrapper picks for [remap_to]. *)
Lemma destination_dim_cases remap_to :
  recognized_remap_to remap_to ->
  (if (remap_to =? "nodes")%string then "n_node"
   else if (remap_to =? "edge centers")%string then "n_edge"
   else "n_face")
  = (if decide (remap_to = "nodes") then "n_node"
     else if decide (remap_to = "edge centers") then "n_edge"
     else "n_face").
Proof. by intros [-> | [-> | ->]]. Qed.

(** A call with an unrecognized argument, or with data that fits no count
    of the source mesh, ends in an error before the spatial index is
    touched. *)
Lemma nearest_neighbor_rejects src dst (source_data : ndarray Q)
    remap_to coord_type :
  (~ recognized_remap_to remap_to \/ ~ recognized_coord_type coord_type
   \/ forall n, last (shape source_data) = Some n ->
                ~ matches_a_count src n) ->
  exists e,
    Remap._nearest_neighbor tree_query src dst source_data
                            remap_to coord_type = Run [] (Raise e).
Proof.
  intros Hbad.
  destruct (last (shape source_data)) as [n|] eqn:Hlast.
  2:{ rewrite RemapFacts.nearest_neighbor_scalar by done. eauto. }
  destruct (RemapFacts.source_data_mapping_cases src n)
    as [Hr | (kind & Hk & _)].
  { rewrite (RemapFacts.nearest_neighbor_bad_shape _ _ _ _ _ _ _ _
               Hlast Hr). eauto. }
  destruct (RemapFacts.recognized_coord_type_dec coord_type) as [Hc|Hc].
  - destruct (RemapFacts.recognized_remap_to_dec remap_to) as [Hr|Hr].
    + destruct Hbad as [? | [? | Hfit]]; [done | done |].
      destruct (Hfit n eq_refl).
      unfold Remap.source_data_mapping in Hk. unfold matches_a_count.
      destruct (Nat.eqb_spec n (n_node src)); [tauto|].
      destruct (Nat.eqb_spec n (n_edge src)); [tauto|].
      destruct (Nat.eqb_spec n (n_face src)); [tauto | discriminate].
    + rewrite (RemapFacts.nearest_neighbor_bad_remap_to _ _ _ _ _ _ _ _
                 Hlast Hk Hc Hr). eauto.
  - rewrite (RemapFacts.nearest_neighbor_bad_coord_type _ _ _ _ _ _ _ _
               Hlast Hk Hc). eauto.
Qed.

(** X21.  What the remap of a data array refuses, and when.  A data array
    without dimension names is refused with [IndexError] before the remapper
    is entered.  For a data array with dimension names, an unrecognized
    [remap_to] or [coord_type], or data whose final dimension fits no count
    of the source mesh, is refused with the error of the remapper.  In all
    these cases the spatial index is neither built nor queried; in particular
    an unrecognized [remap_to] never gives a result labelled with the face
    dimension the wrapper falls back to. *)
Theorem nearest_neighbor_uxda_refusals
    (source_uxda : @UxDataArray Coordinates) destination_grid
    remap_to coord_type :
  let ran :=
    _nearest_neighbor_uxda xarray_accepts tree_query source_uxda
                           destination_grid remap_to coord_type in
  (dims source_uxda = [] -> ran = ([], Raises (Inner IndexError)))
  /\ (dims source_uxda <> [] ->
      (~ recognized_remap_to remap_to \/ ~ recognized_coord_type coord_type
       \/ forall n, last (shape (values source_uxda)) = Some n ->
                    ~ matches_a_count (uxgrid source_uxda) n) ->
      exists e,
        ran = ([], Raises (Inner e))
        /\ Remap._nearest_neighbor tree_query (uxgrid source_uxda)
             destination_grid (values source_uxda) remap_to coord_type
           = Run [] (Raise e)).
Proof.
  intros ran. subst ran. unfold _nearest_neighbor_uxda. split.
  - by intros ->.
  - intros Hne Hbad. rewrite (set_last_Returns _ _ Hne).
    destruct (nearest_neighbor_rejects _ destination_grid _ _ _ Hbad)
      as [e He].
    exists e. by rewrite He.
Qed.

(** X22.  The remap of a data array, away from destinations of a single
    element.  A valid call on a data array whose labels fit its data returns
    the remapped data on the destination mesh, under the name and with the
    coordinates of the source; the dimension names are those of the source
    with the last one replaced by the name of the destination kind ([n_node],
    [n_edge] or [n_face] for nodes, edge centers or face centers), and they
    are again as many as the result has axes. *)
Theorem nearest_neighbor_uxda_relabels dist
    (source_uxda : @UxDataArray Coordinates) destination_grid
    remap_to coord_type n :
  let destination_dim :=
    if decide (remap_to = "nodes") then "n_node"
    else if decide (remap_to = "edge centers") then "n_edge"
    else "n_face" in
  let relabelled := removelast (dims source_uxda) ++ [destination_dim] in
  let remapped :=
    removelast (shape (values source_uxda))
      ++ [element_count destination_grid remap_to] in
  nearest_spec dist tree_query ->
  well_formed_grid (uxgrid source_uxda) ->
  well_formed_grid destination_grid ->
  coherent source_uxda ->
  last (shape (values source_uxda)) = Some n -> 0 < n ->
  matches_a_count (uxgrid source_uxda) n ->
  recognized_remap_to remap_to -> recognized_coord_type coord_type ->
  element_count destination_grid remap_to <> 1 ->
  xarray_accepts (coords source_uxda) relabelled remapped = true ->
  exists uxda_remap,
    snd (_nearest_neighbor_uxda xarray_accepts tree_query source_uxda
           destination_grid remap_to coord_type) = Returns uxda_remap
    /\ outcome (Remap._nearest_neighbor tree_query (uxgrid source_uxda)
                  destination_grid (values source_uxda)
                  remap_to coord_type) = Ok (values uxda_remap)
    /\ shape (values uxda_remap) = remapped
    /\ dims uxda_remap = relabelled
    /\ length (dims uxda_remap) = ndim (values uxda_remap)
    /\ name uxda_remap = name source_uxda
    /\ coords uxda_remap = coords source_uxda
    /\ uxgrid uxda_remap = destination_grid.
Proof.
  intros destination_dim relabelled remapped
    Hspec Hsrc Hdst [Hdims Hwf] Hlast Hn Hm Hr Hc Hcount Hok.
  destruct (RemapFacts.nearest_neighbor_runs tree_query dist
              (uxgrid source_uxda) destination_grid (values source_uxda)
              remap_to coord_type n)
    as (destination_data & Hrun & Hshape & _); try done.
  specialize (Hshape Hcount).
  assert (Hne : dims source_uxda <> []).
  { intros Hnil. rewrite Hnil in Hdims. unfold ndim in Hdims.
    destruct (shape (values source_uxda)); [done | simpl in Hdims; lia]. }
  assert (Hlen : length relabelled = ndim destination_data).
  { subst relabelled. unfold ndim in *.
    rewrite Hshape, !length_app, !length_removelast. simpl. lia. }
  unfold _nearest_neighbor_uxda.
  rewrite (destination_dim_cases _ Hr). fold destination_dim.
  rewrite (set_last_Returns _ _ Hne). fold relabelled. simpl.
  rewrite Hrun. simpl. unfold new_UxDataArray.
  rewrite Hlen, Nat.eqb_refl, Hshape. fold remapped. rewrite Hok.
  eexists. split; [reflexivity|]. simpl. by repeat split.
Qed.

(** X23.  The remap of a one-dimensional data array onto a destination mesh
    with a single element of the requested kind fails.  The remapper builds
    and queries the spatial index and returns a zero-dimensional array; the
    wrapper then hands it to the constructor together with one dimension
    name, and the constructor refuses the pair. *)
Theorem nearest_neighbor_uxda_single_destination dist
    (source_uxda : @UxDataArray Coordinates) destination_grid
    remap_to coord_type n :
  nearest_spec dist tree_query ->
  well_formed_grid (uxgrid source_uxda) ->
  well_formed_grid destination_grid ->
  coherent source_uxda ->
  shape (values source_uxda) = [n] -> 0 < n ->
  matches_a_count (uxgrid source_uxda) n ->
  recognized_remap_to remap_to -> recognized_coord_type coord_type ->
  element_count destination_grid remap_to = 1 ->
  exists kind,
    _nearest_neighbor_uxda xarray_accepts tree_query source_uxda
                           destination_grid remap_to coord_type
    = ([GetBallTree kind coord_type (metric_of coord_type); TreeQuery 1 1],
       Raises (OpValueError DimensionCount)).
Proof.
  intros Hspec Hsrc Hdst [Hdims Hwf] Hshape Hn Hm Hr Hc Hone.
  assert (Hlast : last (shape (values source_uxda)) = Some n)
    by by rewrite Hshape.
  destruct (RemapFacts.nearest_neighbor_runs tree_query dist
              (uxgrid source_uxda) destination_grid (values source_uxda)
              remap_to coord_type n)
    as (destination_data & Hrun & _ & Hscalar); try done.
  assert (Hzero : shape destination_data = []).
  { apply Hscalar; [done|]. unfold ndim. by rewrite Hshape. }
  destruct (RemapFacts.source_data_mapping_matches (uxgrid source_uxda) n Hm)
    as (kind & Hk & Hkind).
  assert (Hcalls :
    calls (Remap._nearest_neighbor tree_query (uxgrid source_uxda)
             destination_grid (values source_uxda) remap_to coord_type)
    = [GetBallTree kind coord_type (metric_of coord_type); TreeQuery 1 1]).
  { rewrite (RemapFacts.nearest_neighbor_valid tree_query _ _ _ _ _ _ _
               Hlast Hk Hr Hc).
    rewrite (RemapFacts.tree_coordinates_destination _ kind coord_type
               Hkind Hc).
    destruct (RemapFacts.destination_points_Ok (uxgrid source_uxda)
                kind coord_type Hsrc) as (indexed & -> & _).
    destruct (RemapFacts.destination_points_Ok destination_grid
                remap_to coord_type Hdst) as (points & -> & ->).
    by rewrite Hone. }
  assert (Hne : dims source_uxda <> []).
  { intros Hnil. rewrite Hnil in Hdims. unfold ndim in Hdims.
    by rewrite Hshape in Hdims. }
  exists kind. unfold _nearest_neighbor_uxda.
  rewrite (set_last_Returns _ _ Hne), Hcalls, Hrun. simpl.
  unfold new_UxDataArray, ndim. rewrite Hzero, length_app. simpl.
  by rewrite Nat.add_1_r.
Qed.

End RemapWrapperFacts.

(** *** The operators on the example meshes *)

Example patch_integral :
  exists integral,
    integrate accept_all half_areas patch_level_uxda "triangular" 4
      = Returns integral
    /\ shape (values integral) = [3]
    /\ dims integral = ["level"]
    /\ Forall2 Qeq (data (values integral)) [6; 60; 600]%Q.
Proof.
  eexists. split; [vm_compute; reflexivity|]. simpl.
  do 2 (split; [reflexivity|]). repeat constructor.
Qed.

Lemma integrate_nonnegative_witness :
  exists integral,
    integrate accept_all half_areas patch_level_uxda "triangular" 4
      = Returns integral
    /\ length (data (values integral))
       = product (removelast (shape (values patch_level_uxda)))
    /\ Forall (fun x => (0 <= x)%Q) (data (values integral)).
Proof.
  apply (integrate_nonnegative accept_all half_areas patch_level_uxda
           "triangular" 4).
  - split; reflexivity.
  - reflexivity.
  - reflexivity.
  - reflexivity.
  - repeat constructor; discriminate.
  - repeat constructor; discriminate.
Defined.

Lemma integrate_labels_witness :
  exists integral,
    integrate accept_all half_areas patch_level_uxda "triangular" 4
      = Returns integral
    /\ shape (values integral) = removelast (shape (values patch_level_uxda))
    /\ dims integral = removelast (dims patch_level_uxda)
    /\ name integral = name patch_level_uxda
    /\ coords integral = None
    /\ uxgrid integral = patch_grid
    /\ coherent integral
    /\ (ndim (values patch_level_uxda) = 1 ->
        shape (values integral) = [] /\ dims integral = []
        /\ length (data (values integral)) = 1).
Proof.
  apply (integrate_labels accept_all half_areas patch_level_uxda
           "triangular" 4).
  - split; reflexivity.
  - reflexivity.
  - reflexivity.
  - reflexivity.
Defined.

(** One-dimensional data gives a zero-dimensional integral. *)
Example patch_face_integral :
  exists integral,
    integrate accept_all half_areas patch_face_uxda "triangular" 4
      = Returns integral
    /\ shape (values integral) = []
    /\ dims integral = []
    /\ Forall2 Qeq (data (values integral)) [6%Q].
Proof.
  eexists. split; [vm_compute; reflexivity|]. simpl.
  do 2 (split; [reflexivity|]). repeat constructor.
Qed.

Example patch_difference :
  difference accept_all patch_edge_faces patch_edge_nodes
    (fun values connectivity n_edge => edge_jumps values connectivity)
    edge_jumps patch_face_uxda "edge"
  = Returns {| values := NdArray [5] [0; 0; 2; 0; 0]%Q;
               dims := ["n_edge"];
               name := Some "t2m_edge_face_difference";
               coords := None;
               uxgrid := patch_grid |}.
Proof. vm_compute. reflexivity. Qed.

Lemma difference_onto_edges_witness :
  exists result,
    difference accept_all patch_edge_faces patch_edge_nodes
      (fun values connectivity n_edge => edge_jumps values connectivity)
      edge_jumps patch_face_uxda "edge" = Returns result
    /\ values result = NdArray [5] [0; 0; 2; 0; 0]%Q
    /\ dims result = ["n_edge"]
    /\ name result = Some "t2m_edge_face_difference"
    /\ coords result = None
    /\ uxgrid result = patch_grid
    /\ ("n_face" ∉ removelast (dims patch_face_uxda) ->
        "n_node" ∉ removelast (dims patch_face_uxda) ->
        (forall destination,
           destination ∈ ["node"; "edge"; "face"] ->
           difference accept_all patch_edge_faces patch_edge_nodes
             (fun values connectivity n_edge => edge_jumps values connectivity)
             edge_jumps result destination
           = Raises OpNotImplementedError)
        /\ forall normalize use_magnitude,
             snd (gradient accept_all patch_edge_faces unit_distances
                    (fun values connectivity distances n_edge normalize =>
                       edge_jumps values connectivity)
                    result normalize use_magnitude)
             = Raises (OpValueError GradientNotFaceCentered)).
Proof.
  apply (difference_onto_edges accept_all patch_edge_faces patch_edge_nodes
           unit_distances
           (fun values connectivity distances n_edge normalize =>
              edge_jumps values connectivity)
           (fun values connectivity n_edge => edge_jumps values connectivity)
           edge_jumps patch_face_uxda).
  - left. by left.
  - reflexivity.
  - reflexivity.
Defined.

Example dateline_collection :
  to_polycollection seam_split_collection dateline_face_uxda
                    "exclude" None true true false
  = Returns
      ({| verts :=
            [[(160, 0); (170, 0); (170, 10); (160, 10); (160, 0)];
             [(170, 0); (170, 10); (170, 0)];
             [(-170, 0); (-170, 10)];
             [(160, 0); (165, -10); (170, 0); (160, 0); (160, 0)]]%Q;
          array := Some (NdArray [4] [11; 22; 22; 33]%Q) |},
       Some [0; 1; 1; 2]).
Proof. vm_compute. reflexivity. Qed.

Lemma to_polycollection_colours_witness :
  exists shaded colours,
    to_polycollection seam_split_collection dateline_face_uxda
                      "exclude" None true true false
      = Returns (shaded, Some [0; 1; 1; 2])
    /\ verts shaded
       = [[(160, 0); (170, 0); (170, 10); (160, 10); (160, 0)];
          [(170, 0); (170, 10); (170, 0)];
          [(-170, 0); (-170, 10)];
          [(160, 0); (165, -10); (170, 0); (160, 0); (160, 0)]]%Q
    /\ array shaded = Some colours
    /\ ([0; 1; 1; 2] = [] -> colours = values dateline_face_uxda)
    /\ ([0; 1; 1; 2] <> [] ->
        shape colours = [length [0; 1; 1; 2]]
        /\ length (data colours) = length [0; 1; 1; 2]
        /\ forall j i,
             [0; 1; 1; 2] !! j = Some i ->
             data colours !! j = data (values dateline_face_uxda) !! i).
Proof.
  apply (to_polycollection_colours seam_split_collection dateline_face_uxda
           "exclude" None true true false
           {| verts :=
                [[(160, 0); (170, 0); (170, 10); (160, 10); (160, 0)];
                 [(170, 0); (170, 10); (170, 0)];
                 [(-170, 0); (-170, 10)];
                 [(160, 0); (165, -10); (170, 0); (160, 0); (160, 0)]]%Q;
              array := None |}
           [0; 1; 1; 2] 3).
  - reflexivity.
  - reflexivity.
  - by left.
  - vm_compute. reflexivity.
  - repeat constructor.
Defined.

Example patch_levels_to_nodes :
  _nearest_neighbor_uxda accept_all brute_force_query patch_level_uxda
                         patch_grid "nodes" "spherical"
  = ([GetBallTree "face centers" "spherical" "haversine"; TreeQuery 4 1],
     Returns {| values := NdArray [3; 4] [5; 5; 5; 7;
                                          50; 50; 50; 70;
                                          500; 500; 500; 700]%Q;
                dims := ["level"; "n_node"];
                name := Some "t2m";
                coords := Some tt;
                uxgrid := patch_grid |}).
Proof. vm_compute. reflexivity. Qed.

Lemma nearest_neighbor_uxda_relabels_witness :
  exists uxda_remap,
    snd (_nearest_neighbor_uxda accept_all brute_force_query
           patch_level_uxda patch_grid "nodes" "spherical")
      = Returns uxda_remap
    /\ outcome (Remap._nearest_neighbor brute_force_query patch_grid
                  patch_grid patch_level_field "nodes" "spherical")
       = Ok (values uxda_remap)
    /\ shape (values uxda_remap) = [3; 4]
    /\ dims uxda_remap = ["level"; "n_node"]
    /\ length (dims uxda_remap) = ndim (values uxda_remap)
    /\ name uxda_remap = Some "t2m"
    /\ coords uxda_remap = Some tt
    /\ uxgrid uxda_remap = patch_grid.
Proof.
  apply (nearest_neighbor_uxda_relabels accept_all brute_force_query
           (fun _ => sq_dist) patch_level_uxda patch_grid
           "nodes" "spherical" 2).
  - exact brute_force_nearest.
  - exact RemapFacts.patch_grid_well_formed.
  - exact RemapFacts.patch_grid_well_formed.
  - split; reflexivity.
  - reflexivity.
  - lia.
  - right. right. reflexivity.
  - left. reflexivity.
  - left. reflexivity.
  - vm_compute. lia.
  - reflexivity.
Defined.

Lemma nearest_neighbor_uxda_single_destination_witness :
  exists kind,
    _nearest_neighbor_uxda accept_all brute_force_query patch_face_uxda
                           triangle_grid "face centers" "spherical"
    = ([GetBallTree kind "spherical" (metric_of "spherical");
        TreeQuery 1 1],
       Raises (OpValueError DimensionCount)).
Proof.
  apply (nearest_neighbor_uxda_single_destination accept_all
           brute_force_query (fun _ => sq_dist) patch_face_uxda
           triangle_grid "face centers" "spherical" 2).
  - exact brute_force_nearest.
  - exact RemapFacts.patch_grid_well_formed.
  - exact RemapFacts.triangle_grid_well_formed.
  - split; reflexivity.
  - reflexivity.
  - lia.
  - right. right. reflexivity.
  - right. right. reflexivity.
  - left. reflexivity.
  - reflexivity.
Defined.

End DataArrayOpsFacts.
